(** * The Mines round engine of [app.py]

    A shallow embedding of the JSON handlers of [app.py]
    ([update_balance], [start_mines_game], [reveal_tile], [cashout]) over

    - the users table of [database.json], a finite map from user ids to
      user records;
    - the [game_state] dictionary kept in the Flask session;
    - Python numbers: unbounded integers are [Z], floats are IEEE 754
      binary64 values ([spec_float] with [prec = 53], [emax = 1024],
      every operation rounded to nearest, ties to even). *)

From Stdlib Require Import ZArith QArith Qround Lia Bool.
From Stdlib Require Import Floats.SpecFloat.
From stdpp Require Import gmap strings list fin_maps pretty.

Local Open Scope Z_scope.

(** ** Exceptions and the result monad *)

Inductive exn := OverflowError | ValueError | ZeroDivisionError | KeyError.

(** A handler either returns or dies with an uncaught exception. No
    handler writes the database before a statement that can raise; what
    becomes of the session is said where the reachable worlds are
    defined. *)
Inductive result (A : Type) :=
| Ok (a : A)
| Raise (e : exn).
Arguments Ok {A} a.
Arguments Raise {A} e.

#[global] Instance result_ret : MRet result := fun A a => Ok a.
#[global] Instance result_bind : MBind result := fun A B f m =>
  match m with
  | Ok a => f a
  | Raise e => Raise e
  end.

(** ** Python floats *)

Module PyFloat.

Definition prec : Z := 53.
Definition emax : Z := 1024.

Definition float := spec_float.

Definition fadd : float -> float -> float := SFadd prec emax.
Definition fmul : float -> float -> float := SFmul prec emax.
Definition fdiv : float -> float -> float := SFdiv prec emax.
Definition fleb : float -> float -> bool := SFleb.

(** [float(n)] for an int [n]: the nearest double, [OverflowError] when
    [n] rounds beyond the largest finite double. *)
Definition float_of_int (n : Z) : result float :=
  match binary_normalize prec emax n 0 false with
  | S754_infinity _ => Raise OverflowError
  | f => Ok f
  end.

(** [int(x)] for a float [x]: truncation toward zero. *)
Definition int_of_float (x : float) : result Z :=
  match x with
  | S754_nan => Raise ValueError
  | S754_infinity _ => Raise OverflowError
  | S754_zero _ => Ok 0
  | S754_finite s m e =>
      Ok (cond_Zopp s
            (match e with
             | Zneg p => Z.shiftr (Zpos m) (Zpos p)
             | _ => Zpos m * 2 ^ e
             end))
  end.

(** [a / b] on two ints (true division): the correctly rounded quotient,
    which is the quotient of the two doubles whenever both ints are doubles
    (below [2^53] in magnitude); the handlers only divide a tile count by
    [25 - mines_count]. *)
Definition int_truediv (a b : Z) : result float :=
  if b =? 0 then Raise ZeroDivisionError
  else
    fa ← float_of_int a;
    fb ← float_of_int b;
    Ok (fdiv fa fb).

(** Mixed arithmetic converts the int operand first. *)
Definition float_mul_int (x : float) (n : Z) : result float :=
  fn ← float_of_int n; Ok (fmul x fn).
Definition int_mul_float (n : Z) (x : float) : result float :=
  fn ← float_of_int n; Ok (fmul fn x).
Definition int_add_float (n : Z) (x : float) : result float :=
  fn ← float_of_int n; Ok (fadd fn x).

(** The literal [1.0]. *)
Definition one : float := S754_finite false 4503599627370496 (-52).

End PyFloat.
Import PyFloat.

(** ** Doubles that hold integers *)

Definition digits (n : positive) : Z := Zpos (digits2_pos n).

(** The double that holds the positive integer [n] exactly, for [n] below
    [2^53]: the mantissa is [n] shifted left to 53 digits. *)
Definition exact_mantissa (n : positive) : positive :=
  fst (shl_align n 0 (digits n - 53)).
Definition exact_double (n : positive) : float :=
  S754_finite false (exact_mantissa n) (digits n - 53).

(** A positive double with a full mantissa and a value in [1, 32). *)
Definition small_double (x : float) : bool :=
  match x with
  | S754_finite false m e => (digits m =? 53) && (-52 <=? e) && (e <=? -48)
  | _ => false
  end.

#[global] Instance spec_float_eq_dec : EqDecision spec_float.
Proof. solve_decision. Defined.

(** ** [random.sample]

    The library call [random.sample(population, k)] is modelled by
    selection without replacement: one draw per selected element, taken
    from an explicit entropy stream [draws] and reduced to an index into
    what is left of the population. *)

Fixpoint sample_from (draws : nat -> nat) (i : nat) (pool : list Z) (k : nat)
  : list Z :=
  match k with
  | O => []
  | S k' =>
      let j := (draws i `mod` length pool)%nat in
      match pool !! j with
      | Some x => x :: sample_from draws (S i) (delete j pool) k'
      | None => []
      end
  end.

Definition random_sample (draws : nat -> nat) (population : list Z) (k : Z)
  : result (list Z) :=
  if (k <? 0) || (Z.of_nat (length population) <? k) then Raise ValueError
  else Ok (sample_from draws 0 population (Z.to_nat k)).

(** [range(n)] *)
Definition range (n : Z) : list Z := seqZ 0 n.

(** ** The stored data *)

(** A record of [db['users']]. *)
Record user_data := {
  username : string;
  email : string;
  password : string;
  balance : Z;
  created_at : string
}.

Definition set_balance (b : Z) (u : user_data) : user_data :=
  {| username := username u; email := email u; password := password u;
     balance := b; created_at := created_at u |}.

(** [session['game_state']] *)
Record game_state := {
  mines_positions : list Z;
  bet_amount : Z;
  mines_count : Z;
  revealed_positions : list Z;
  active : bool;
  won : bool;
  multiplier : float
}.

Definition set_active_won (a w : bool) (gs : game_state) : game_state :=
  {| mines_positions := mines_positions gs; bet_amount := bet_amount gs;
     mines_count := mines_count gs;
     revealed_positions := revealed_positions gs;
     active := a; won := w; multiplier := multiplier gs |}.

Definition set_revealed (r : list Z) (gs : game_state) : game_state :=
  {| mines_positions := mines_positions gs; bet_amount := bet_amount gs;
     mines_count := mines_count gs;
     revealed_positions := r;
     active := active gs; won := won gs; multiplier := multiplier gs |}.

Definition set_multiplier (x : float) (gs : game_state) : game_state :=
  {| mines_positions := mines_positions gs; bet_amount := bet_amount gs;
     mines_count := mines_count gs;
     revealed_positions := revealed_positions gs;
     active := active gs; won := won gs; multiplier := x |}.

(** What one client sees: the users table of the database file and the
    [game_state] entry of its own session, when there is one. *)
Record world := {
  users : gmap string user_data;
  session : option game_state
}.

Definition set_users (db : gmap string user_data) (w : world) : world :=
  {| users := db; session := session w |}.
Definition set_session (gs : game_state) (w : world) : world :=
  {| users := users w; session := Some gs |}.

(** ** Responses *)

Inductive response :=
| LoginRedirect
| JsonError (msg : string)
| BalanceUpdated (new_balance : Z)
| GameStarted (new_balance : Z)
| MineHit (mines : list Z)
| RoundWon (mult : float) (winnings new_balance : Z) (mines : list Z)
| TileSafe (revealed : list Z) (mult : float) (potential_win : Z)
| CashedOutOk (winnings new_balance : Z) (mines : list Z).

(** The rejection kinds of the specification are the messages of the 400
    responses. *)
Definition InvalidMinesCount : string := "Invalid mines count".
Definition InvalidBet : string := "Invalid bet amount".
Definition InsufficientBalance : string := "Insufficient balance".
Definition InvalidPosition : string := "Invalid position".
Definition NoActiveRound : string := "No active game".
Definition AlreadyRevealed : string := "Tile already revealed".

(** ** The handlers *)

(** [db['users'][current_user.id]] *)
Definition get_user (uid : string) (w : world) : result user_data :=
  match users w !! uid with
  | Some u => Ok u
  | None => Raise KeyError
  end.

(** [db['users'][current_user.id]['balance'] += amount; save_db(db)];
    evaluates to the stored world and the new balance. *)
Definition add_balance (uid : string) (amount : Z) (w : world)
  : result (world * Z) :=
  u ← get_user uid w;
  let b := balance u + amount in
  Ok (set_users (<[uid := set_balance b u]> (users w)) w, b).

(** [@login_required]: the user loader finds the session's user id in the
    users table, or the request is sent to the login page. *)
Definition login_required (uid : string) (w : world)
    (handler : result (response * world)) : result (response * world) :=
  match users w !! uid with
  | Some _ => handler
  | None => Ok (LoginRedirect, w)
  end.

Definition update_balance (amount : Z) (uid : string) (w : world)
  : result (response * world) :=
  login_required uid w (
    '(w', b) ← add_balance uid amount w;
    Ok (BalanceUpdated b, w')).

Definition grid_size : Z := 25.

Definition start_mines_game (draws : nat -> nat) (bet_amount mines_count : Z)
    (uid : string) (w : world) : result (response * world) :=
  login_required uid w (
    if (mines_count <? 1) || (mines_count >? 24) then
      Ok (JsonError "Invalid mines count", w)
    else
      u ← get_user uid w;
      let user_balance := balance u in
      if bet_amount <=? 0 then Ok (JsonError "Invalid bet amount", w)
      else if user_balance <? bet_amount then
        Ok (JsonError "Insufficient balance", w)
      else
        '(w1, b) ← add_balance uid (- bet_amount) w;
        mines ← random_sample draws (range grid_size) mines_count;
        Ok (GameStarted b,
            set_session
              {| mines_positions := mines;
                 bet_amount := bet_amount;
                 mines_count := mines_count;
                 revealed_positions := [];
                 active := true;
                 won := false;
                 multiplier := one |} w1)).

(** [1 + (revealed_count / safe_tiles) * mines_count] *)
Definition compute_multiplier (revealed_count safe_tiles mines_count : Z)
  : result float :=
  q ← int_truediv revealed_count safe_tiles;
  x ← float_mul_int q mines_count;
  int_add_float 1 x.

(** [int(bet_amount * multiplier)] *)
Definition payout (bet_amount : Z) (mult : float) : result Z :=
  p ← int_mul_float bet_amount mult;
  int_of_float p.

Definition reveal_tile (position : Z) (uid : string) (w : world)
  : result (response * world) :=
  login_required uid w (
    if (position <? 0) || (position >=? 25) then
      Ok (JsonError "Invalid position", w)
    else
      match session w with
      | None => Ok (JsonError "No active game", w)
      | Some game_state =>
          if negb (active game_state) then Ok (JsonError "No active game", w)
          else if bool_decide (position ∈ revealed_positions game_state) then
            Ok (JsonError "Tile already revealed", w)
          else if bool_decide (position ∈ mines_positions game_state) then
            let game_state := set_active_won false false game_state in
            Ok (MineHit (mines_positions game_state),
                set_session game_state w)
          else
            let game_state :=
              set_revealed (revealed_positions game_state ++ [position])
                game_state in
            let safe_tiles := 25 - mines_count game_state in
            let revealed_count :=
              Z.of_nat (length (revealed_positions game_state)) in
            mult ← compute_multiplier revealed_count safe_tiles
                     (mines_count game_state);
            let game_state := set_multiplier mult game_state in
            if revealed_count =? safe_tiles then
              let game_state := set_active_won false true game_state in
              winnings ← payout (bet_amount game_state) mult;
              '(w1, b) ← add_balance uid winnings w;
              Ok (RoundWon mult winnings b (mines_positions game_state),
                  set_session game_state w1)
            else
              potential_win ← payout (bet_amount game_state) mult;
              Ok (TileSafe (revealed_positions game_state) mult potential_win,
                  set_session game_state w)
      end).

Definition cashout (uid : string) (w : world) : result (response * world) :=
  login_required uid w (
    match session w with
    | None => Ok (JsonError "No active game", w)
    | Some game_state =>
        if negb (active game_state) then Ok (JsonError "No active game", w)
        else
          winnings ← payout (bet_amount game_state) (multiplier game_state);
          '(w1, b) ← add_balance uid winnings w;
          let game_state := set_active_won false true game_state in
          Ok (CashedOutOk winnings b (mines_positions game_state),
              set_session game_state w1)
    end).

(** ** Requests and reachable worlds *)

Inductive request :=
| UpdateBalance (amount : Z)
| Start (draws : nat -> nat) (bet_amount mines_count : Z)
| Reveal (position : Z)
| Cashout.

Definition handle (uid : string) (r : request) (w : world)
  : result (response * world) :=
  match r with
  | UpdateBalance amount => update_balance amount uid w
  | Start draws bet mines => start_mines_game draws bet mines uid w
  | Reveal position => reveal_tile position uid w
  | Cashout => cashout uid w
  end.

(** The worlds a logged-in user [uid] can be in: a fresh session after
    login, then any sequence of that user's requests that return,
    interleaved with changes that other users make to their own records;
    a login on a client whose session still holds the round of an earlier
    login keeps that round. The one statement that can raise after the
    session was assigned is the [potential_win] of a safe reveal that does
    not clear the grid: without [debug] Flask still writes that session,
    so the world with it counts as reachable too. *)
Inductive reachable : string -> world -> Prop :=
| reach_login uid db :
    is_Some (db !! uid) ->
    reachable uid {| users := db; session := None |}
| reach_step uid w r resp w' :
    reachable uid w ->
    handle uid r w = Ok (resp, w') ->
    reachable uid w'
| reach_others uid w db' :
    reachable uid w ->
    db' !! uid = users w !! uid ->
    reachable uid (set_users db' w)
| reach_login_again uid' uid w :
    reachable uid' w ->
    is_Some (users w !! uid) ->
    reachable uid w
| reach_raised uid w gs p mult e :
    reachable uid w ->
    session w = Some gs -> active gs = true ->
    p ∉ revealed_positions gs -> p ∉ mines_positions gs ->
    compute_multiplier (Z.of_nat (length (revealed_positions gs ++ [p])))
      (25 - mines_count gs) (mines_count gs) = Ok mult ->
    Z.of_nat (length (revealed_positions gs ++ [p])) <> 25 - mines_count gs ->
    reveal_tile p uid w = Raise e ->
    reachable uid
      (set_session
         (set_multiplier mult
            (set_revealed (revealed_positions gs ++ [p]) gs)) w).

(** The balance of [uid] in the ledger (the users table). *)
Definition balance_of (uid : string) (w : world) : option Z :=
  balance <$> users w !! uid.

(** ** Reading the specification's vocabulary off the stored state *)

(** The session stores the status as the two flags [active] and [won]; a
    finished, won round was cleared when every safe tile is revealed and
    was cashed out otherwise. *)
Inductive status := Active | Lost | WonByClear | CashedOut.

Definition revealed_count (gs : game_state) : Z :=
  Z.of_nat (length (revealed_positions gs)).

Definition safe_tiles (gs : game_state) : Z := 25 - mines_count gs.

Definition status_of (gs : game_state) : status :=
  if active gs then Active
  else if negb (won gs) then Lost
  else if revealed_count gs =? safe_tiles gs then WonByClear
  else CashedOut.

(** A stored round blocks nothing when it is absent or finished. *)
Definition round_is_active (w : world) : bool :=
  match session w with
  | Some gs => active gs
  | None => false
  end.

(** The double that [reveal_tile] stores after the [k]-th safe reveal of a
    round with [m] mines. *)
Definition multiplier_at (m k : Z) : float :=
  match compute_multiplier k (25 - m) m with
  | Ok x => x
  | Raise _ => S754_nan
  end.

(** The specification's multiplier [1 + (k / (25 - m)) * m] in exact
    rational arithmetic, and its winnings [floor (b * multiplier)]. *)
Definition spec_multiplier (m k : Z) : Q :=
  (1 + (inject_Z k / inject_Z (25 - m)) * inject_Z m)%Q.
Definition spec_winnings (b m k : Z) : Z :=
  Qfloor (inject_Z b * spec_multiplier m k)%Q.

(** A request that leaves the stored round in place (everything but a new
    start), and what such requests can do to a round: the mines and the bet
    stay, revealed positions are only appended. *)
Definition keeps_round (r : request) : bool :=
  match r with
  | Start _ _ _ => false
  | _ => true
  end.

Definition round_extends (gs gs' : game_state) : Prop :=
  mines_positions gs' = mines_positions gs /\
  mines_count gs' = mines_count gs /\
  bet_amount gs' = bet_amount gs /\
  revealed_positions gs `prefix_of` revealed_positions gs'.

(** ** The invariant of stored rounds *)

Definition in_grid (p : Z) : Prop := 0 <= p < 25.

Record wf_game (gs : game_state) : Prop := {
  wf_mines_count : 1 <= mines_count gs <= 24;
  wf_mines_length : Z.of_nat (length (mines_positions gs)) = mines_count gs;
  wf_mines_nodup : NoDup (mines_positions gs);
  wf_mines_grid : Forall in_grid (mines_positions gs);
  wf_revealed_nodup : NoDup (revealed_positions gs);
  wf_revealed_grid : Forall in_grid (revealed_positions gs);
  wf_revealed_safe :
    Forall (fun p => p ∉ mines_positions gs) (revealed_positions gs);
  wf_bet : 0 < bet_amount gs;
  wf_multiplier :
    multiplier gs = multiplier_at (mines_count gs) (revealed_count gs);
  wf_active : active gs = true -> revealed_count gs < safe_tiles gs
}.

Definition wf_world (uid : string) (w : world) : Prop :=
  is_Some (users w !! uid) /\
  forall gs, session w = Some gs -> wf_game gs.

(** ** Checking a property of every round shape by evaluation *)

(** [grid_forall P] evaluates [P m k] for every number of mines [m] in
    [1..24] and every count of revealed tiles [k] in [0..25 - m]. *)
Definition grid_forall (P : Z -> Z -> bool) : bool :=
  forallb (fun m => forallb (P m) (seqZ 0 (26 - m))) (seqZ 1 24).

Definition is_ok {A} (r : result A) : bool :=
  match r with
  | Ok _ => true
  | Raise _ => false
  end.

(** ** Sequences of requests *)

Fixpoint run (uid : string) (rs : list request) (w : world)
  : result (list response * world) :=
  match rs with
  | [] => Ok ([], w)
  | r :: rs' =>
      '(resp, w1) ← handle uid r w;
      '(resps, w2) ← run uid rs' w1;
      Ok (resp :: resps, w2)
  end.

(** The message of a rejected [start_mines_game]: the checks run in the
    order of the handler and the first that fails answers. *)
Definition start_rejection (bet mines : Z) : string :=
  if (mines <? 1) || (mines >? 24) then InvalidMinesCount
  else if bet <=? 0 then InvalidBet
  else InsufficientBalance.

(** The message of a [reveal_tile] or [cashout] request on a finished
    round. *)
Definition finished_rejection (r : request) : string :=
  match r with
  | Reveal p => if (p <? 0) || (p >=? 25) then InvalidPosition else NoActiveRound
  | _ => NoActiveRound
  end.

Definition is_play (r : request) : bool :=
  match r with
  | Reveal _ | Cashout => true
  | _ => false
  end.

(** ** A concrete client, for evaluating the handlers *)

Definition demo_user : user_data :=
  {| username := "alice"; email := "alice@example.org";
     password := "pbkdf2:sha256"; balance := 1000;
     created_at := "2024-01-01T00:00:00" |}.

Definition demo_uid : string := "2147483648".

Definition demo_world : world :=
  {| users := {[ demo_uid := demo_user ]}; session := None |}.

Definition demo_draws : nat -> nat := fun i => i.

(** The world after the requests [rs] of the demo user, when all return. *)
Definition after (rs : list request) (w : world) : option world :=
  match run demo_uid rs w with
  | Ok (_, w') => Some w'
  | Raise _ => None
  end.

Definition responses (rs : list request) (w : world) : option (list response) :=
  match run demo_uid rs w with
  | Ok (resps, _) => Some resps
  | Raise _ => None
  end.

(** The world after the requests [rs] of the demo user ([w] itself when
    one of them raises). *)
Definition world_after (rs : list request) (w : world) : world :=
  default w (after rs w).

(** The stored multiplier is within [2^-48] of the exact multiplier of the
    specification (as an inequality between integers). *)
Definition multiplier_close (m k : Z) : bool :=
  match multiplier_at m k with
  | S754_finite false mM eM =>
      let s := 25 - m in
      2 ^ 48 * Z.abs (Zpos mM * s - (s + k * m) * 2 ^ (- eM)) <=? s * 2 ^ (- eM)
  | _ => false
  end.

(** ** Kinds of answers and requests *)

(** The [balance] field of an answer, when it has one. *)
Definition reported_balance (resp : response) : option Z :=
  match resp with
  | BalanceUpdated b | GameStarted b | RoundWon _ _ b _ | CashedOutOk _ b _ =>
      Some b
  | _ => None
  end.

(** The answers that refuse a request: the redirect of [@login_required]
    and the JSON errors. *)
Definition is_rejection (resp : response) : bool :=
  match resp with
  | LoginRedirect | JsonError _ => true
  | _ => false
  end.

(** The answers that end a round. *)
Definition ends_round (resp : response) : bool :=
  match resp with
  | MineHit _ | RoundWon _ _ _ _ | CashedOutOk _ _ _ => true
  | _ => false
  end.

(** The requests of the game itself. *)
Definition is_game_request (r : request) : bool :=
  match r with
  | UpdateBalance _ => false
  | _ => true
  end.

(** ** The database file and the pages around the game *)

(** The content of [database.json]: [db['users']] in the order of the file
    (Python dicts and JSON objects keep it) and the JSON text of
    [db['game_stats']], which no route reads. *)
Record database := {
  db_users : list (string * user_data);
  db_game_stats : string
}.

Definition empty_database : database :=
  {| db_users := []; db_game_stats := "{}" |}.

Definition set_db_users (l : list (string * user_data)) (db : database)
  : database :=
  {| db_users := l; db_game_stats := db_game_stats db |}.

(** [load_db()]: the file is written first when it does not exist.
    Evaluates to the database read and the file afterwards. *)
Definition load_db (file : option database) : database * option database :=
  match file with
  | None => (empty_database, Some empty_database)
  | Some db => (db, Some db)
  end.

(** [save_db(db)] *)
Definition save_db (db : database) : option database := Some db.

(** [d[k]] and [d[k] = v] on a dict kept in insertion order. *)
Fixpoint dict_get {A} (k : string) (d : list (string * A)) : option A :=
  match d with
  | [] => None
  | (k', v) :: d' => if decide (k' = k) then Some v else dict_get k d'
  end.

Fixpoint dict_set {A} (k : string) (v : A) (d : list (string * A))
  : list (string * A) :=
  match d with
  | [] => [(k, v)]
  | (k', v') :: d' =>
      if decide (k' = k) then (k, v) :: d' else (k', v') :: dict_set k v d'
  end.

(** The [User] object of Flask-Login. *)
Record user := {
  user_id : string;
  user_username : string;
  user_email : string;
  user_balance : Z
}.

(** [load_user(user_id)], the user loader. *)
Definition load_user (uid : string) (file : option database)
  : option user * option database :=
  let '(db, file) := load_db file in
  (match dict_get uid (db_users db) with
   | Some user_data =>
       Some {| user_id := uid;
               user_username := username user_data;
               user_email := email user_data;
               user_balance := balance user_data |}
   | None => None
   end, file).

(** The server as one client meets it: the database file, and the session
    cookie of the client with the user id that [login_user] stores and the
    [game_state] entry. *)
Record site := {
  db_file : option database;
  session_user : option string;
  session_game : option game_state
}.

Inductive template :=
| IndexHtml | RegisterHtml | LoginHtml | DashboardHtml | MinesHtml.

Inductive endpoint := ToIndex | ToRegister | ToLogin | ToDashboard.

(** A rendered page or a redirect, with the message flashed while the
    request was handled; the JSON of [get_balance]; or an answer of the
    kinds the JSON handlers give ([LoginRedirect] is also what
    [@login_required] answers on the pages). *)
Inductive http_response :=
| Page (t : template) (flashed : option string)
| RedirectTo (e : endpoint) (flashed : option string)
| BalanceJson (b : Z)
| Answer (r : response).

(** The requests of the routes. A registration carries the three form
    fields and what the handler draws: the 32 random bits of the user id,
    the salt of the password hash and the time. *)
Inductive http_request :=
| GetIndex
| GetRegister
| PostRegister (form_username form_email form_password : string)
    (randbits : N) (salt : string) (now : string)
| GetLogin
| PostLogin (form_username form_password : string)
| GetLogout
| GetDashboard
| GetMines
| GetBalance
| Api (r : request).

(** The loop over [db['users'].items()] of [register]. *)
Fixpoint register_clash (form_username form_email : string)
    (items : list (string * user_data)) : option string :=
  match items with
  | [] => None
  | (_, user_data) :: rest =>
      if decide (username user_data = form_username) then
        Some "Username already exists"%string
      else if decide (email user_data = form_email) then
        Some "Email already exists"%string
      else register_clash form_username form_email rest
  end.

(** The loop over [db['users'].items()] of [login]: the first user with
    the username. *)
Fixpoint find_by_username (form_username : string)
    (items : list (string * user_data)) : option (string * user_data) :=
  match items with
  | [] => None
  | (uid, data) :: rest =>
      if decide (username data = form_username) then Some (uid, data)
      else find_by_username form_username rest
  end.

(** What a JSON handler stored: the handlers assign to the balance of the
    record of the current user and to nothing else of the users table. *)
Definition stored_users (uid : string) (table : gmap string user_data)
    (l : list (string * user_data)) : list (string * user_data) :=
  match table !! uid with
  | Some user_data => dict_set uid user_data l
  | None => l
  end.

Section Site.

(** [werkzeug.security]: the hash of a password under a salt, and the check
    of a password against a hash. *)
Variable generate_password_hash : string -> string -> string.
Variable check_password_hash : string -> string -> bool.

(** [@login_required] on a route: the session holds a user id and the user
    loader finds it, or the client is sent to the login page. *)
Definition protected (s : site)
    (handler : user -> site -> result (http_response * site))
  : result (http_response * site) :=
  match session_user s with
  | None => Ok (Answer LoginRedirect, s)
  | Some uid =>
      let '(current_user, file) := load_user uid (db_file s) in
      let s := {| db_file := file; session_user := session_user s;
                  session_game := session_game s |} in
      match current_user with
      | None => Ok (Answer LoginRedirect, s)
      | Some current_user => handler current_user s
      end
  end.

(** [register] on a POST: the form fields, then what the handler draws. *)
Definition register_post (form_username form_email form_password : string)
    (randbits : N) (salt now : string) (s : site)
  : result (http_response * site) :=
  let '(db, file) := load_db (db_file s) in
  let s := {| db_file := file; session_user := session_user s;
              session_game := session_game s |} in
  match register_clash form_username form_email (db_users db) with
  | Some message => Ok (RedirectTo ToRegister (Some message), s)
  | None =>
      let user_id := pretty randbits in
      let db :=
        set_db_users
          (dict_set user_id
             {| username := form_username;
                email := form_email;
                password := generate_password_hash salt form_password;
                balance := 1000;
                created_at := now |} (db_users db)) db in
      Ok (RedirectTo ToLogin
            (Some "Registration successful! Please login."%string),
          {| db_file := save_db db; session_user := session_user s;
             session_game := session_game s |})
  end.

(** [login] on a POST. *)
Definition login_post (form_username form_password : string) (s : site)
  : result (http_response * site) :=
  let '(db, file) := load_db (db_file s) in
  let s := {| db_file := file; session_user := session_user s;
              session_game := session_game s |} in
  match find_by_username form_username (db_users db) with
  | Some (user_id, user_data) =>
      if check_password_hash (password user_data) form_password then
        Ok (RedirectTo ToDashboard None,
            {| db_file := db_file s; session_user := Some user_id;
               session_game := session_game s |})
      else Ok (Page LoginHtml (Some "Invalid username or password"%string), s)
  | None => Ok (Page LoginHtml (Some "Invalid username or password"%string), s)
  end.

(** [logout]: [logout_user()] removes the user id from the session and
    nothing else. *)
Definition logout (s : site) : result (http_response * site) :=
  protected s (fun _ s =>
    Ok (RedirectTo ToIndex None,
        {| db_file := db_file s; session_user := None;
           session_game := session_game s |})).

(** [get_balance] *)
Definition get_balance (s : site) : result (http_response * site) :=
  protected s (fun current_user s =>
    let '(db, file) := load_db (db_file s) in
    match dict_get (user_id current_user) (db_users db) with
    | Some user_data =>
        Ok (BalanceJson (balance user_data),
            {| db_file := file; session_user := session_user s;
               session_game := session_game s |})
    | None => Raise KeyError
    end).

(** A JSON handler of the game behind the session and the file. *)
Definition api (r : request) (s : site) : result (http_response * site) :=
  match session_user s with
  | None => Ok (Answer LoginRedirect, s)
  | Some uid =>
      let '(db, file) := load_db (db_file s) in
      let w := {| users := list_to_map (db_users db);
                  session := session_game s |} in
      '(resp, w') ← handle uid r w;
      Ok (Answer resp,
          {| db_file :=
               Some (set_db_users
                       (stored_users uid (users w') (db_users db)) db);
             session_user := session_user s;
             session_game := session w' |})
  end.

(** One request of the client. *)
Definition serve (req : http_request) (s : site)
  : result (http_response * site) :=
  match req with
  | GetIndex => Ok (Page IndexHtml None, s)
  | GetRegister => Ok (Page RegisterHtml None, s)
  | PostRegister form_username form_email form_password randbits salt now =>
      register_post form_username form_email form_password randbits salt now
        s
  | GetLogin => Ok (Page LoginHtml None, s)
  | PostLogin form_username form_password =>
      login_post form_username form_password s
  | GetLogout => logout s
  | GetDashboard => protected s (fun _ s => Ok (Page DashboardHtml None, s))
  | GetMines => protected s (fun _ s => Ok (Page MinesHtml None, s))
  | GetBalance => get_balance s
  | Api r => api r s
  end.

(** A sequence of requests of the client. *)
Fixpoint serve_all (reqs : list http_request) (s : site)
  : result (list http_response * site) :=
  match reqs with
  | [] => Ok ([], s)
  | req :: reqs' =>
      '(resp, s1) ← serve req s;
      '(resps, s2) ← serve_all reqs' s1;
      Ok (resp :: resps, s2)
  end.

End Site.

(** The routes behind [@login_required]. *)
Definition is_protected (req : http_request) : bool :=
  match req with
  | GetLogout | GetDashboard | GetMines | GetBalance | Api _ => true
  | _ => false
  end.

(** The database the routes read from a file. *)
Definition database_of (file : option database) : database :=
  fst (load_db file).

(** No two records share a user id, a username or an email. *)
Definition users_distinct (l : list (string * user_data)) : Prop :=
  NoDup (fst <$> l) /\
  NoDup (username ∘ snd <$> l) /\
  NoDup (email ∘ snd <$> l).

(** The record [register] stores. *)
Definition new_user (form_username form_email hash now : string)
  : user_data :=
  {| username := form_username; email := form_email;
     password := hash; balance := 1000; created_at := now |}.

(** Two records of one user: all but the balance agree. *)
Definition same_identity (u u' : user_data) : Prop :=
  username u' = username u /\ email u' = email u /\
  password u' = password u /\ created_at u' = created_at u.

(** ** A concrete site, for evaluating the routes *)

(** Stand-ins for the two functions of [werkzeug.security], for evaluating
    the routes: the hash of a password is the password. *)
Definition demo_hash (salt pw : string) : string := pw.
Definition demo_check (hash pw : string) : bool := String.eqb hash pw.

Definition demo_other_uid : string := "7".

Definition demo_other_user : user_data :=
  {| username := "bob"; email := "bob@example.org";
     password := demo_hash "salt" "secret"; balance := 500;
     created_at := "2024-01-02T00:00:00" |}.

Definition demo_database : database :=
  {| db_users := [(demo_uid, demo_user); (demo_other_uid, demo_other_user)];
     db_game_stats := "{}" |}.

(** The demo user logged in, with no round in the session. *)
Definition demo_site : site :=
  {| db_file := Some demo_database;
     session_user := Some demo_uid;
     session_game := None |}.

(** The round of the demo user after a bet of 100 on 3 mines and one safe
    reveal. *)
Definition demo_round : game_state :=
  {| mines_positions := [0; 2; 4]; bet_amount := 100; mines_count := 3;
     revealed_positions := [1]; active := true; won := false;
     multiplier := multiplier_at 3 1 |}.

(** The world of the JSON handlers in a site: the users table of the file
    and the round of the session. *)
Definition world_of (s : site) : world :=
  {| users := list_to_map (db_users (database_of (db_file s)));
     session := session_game s |}.

(** Kinds of requests. *)
Definition is_register (req : http_request) : bool :=
  match req with PostRegister _ _ _ _ _ _ => true | _ => false end.

Definition is_api (req : http_request) : bool :=
  match req with Api _ => true | _ => false end.

(** The same users in the same order, each with the same username, email,
    password hash and creation time. *)
Definition same_accounts (l l' : list (string * user_data)) : Prop :=
  Forall2 (fun x y => fst y = fst x /\ same_identity (snd x) (snd y)) l l'.

(** * Proofs *)

(** ** Sampling without replacement *)

Section Sampling.
Variable draws : nat -> nat.

Lemma sample_from_length pool k i :
  (k <= length pool)%nat -> length (sample_from draws i pool k) = k.
Proof.
  revert pool i. induction k as [|k IH]; intros pool i Hk; [done|].
  simpl. destruct pool as [|p pool]; [simpl in Hk; lia|].
  set (j := (draws i `mod` length (p :: pool))%nat).
  assert (Hj : (j < length (p :: pool))%nat)
    by (apply Nat.mod_upper_bound; done).
  destruct (lookup_lt_is_Some_2 _ _ Hj) as [x Hx]. rewrite Hx. simpl.
  f_equal. apply IH. rewrite length_delete by eauto. simpl in *. lia.
Qed.

Lemma sample_from_elem_of pool k i x :
  x ∈ sample_from draws i pool k -> x ∈ pool.
Proof.
  revert pool i. induction k as [|k IH]; intros pool i; simpl.
  - by intros ?%elem_of_nil.
  - destruct (pool !! _) as [y|] eqn:Hy; [|by intros ?%elem_of_nil].
    intros [->|Hin]%elem_of_cons.
    + by eapply list_elem_of_lookup_2.
    + eapply list_elem_of_delete_inv, IH, Hin.
Qed.

Lemma sample_from_NoDup pool k i :
  NoDup pool -> NoDup (sample_from draws i pool k).
Proof.
  revert pool i. induction k as [|k IH]; intros pool i Hnd; simpl.
  - constructor.
  - destruct (pool !! _) as [y|] eqn:Hy; [|constructor].
    pose proof (delete_Permutation _ _ _ Hy) as Hperm.
    rewrite Hperm in Hnd. apply NoDup_cons in Hnd as [Hnotin Hnd'].
    constructor; [|by apply IH].
    intros Hin. apply Hnotin. by eapply sample_from_elem_of.
Qed.
End Sampling.

Lemma sample_from_ext d1 d2 k : forall i pool,
  (forall n, (i <= n)%nat -> d1 n = d2 n) ->
  sample_from d1 i pool k = sample_from d2 i pool k.
Proof.
  induction k as [|k IH]; intros i pool Hext; [done|]. simpl.
  rewrite (Hext i) by lia.
  destruct (pool !! _) as [x|]; [|done]. f_equal.
  apply IH. intros n Hn. apply Hext. lia.
Qed.

(** Every arrangement of distinct members of the pool is the sample of
    some draws: the model leaves out no outcome of the library call. *)
Lemma sample_from_complete (l : list Z) : forall pool i,
  NoDup l -> (forall x, x ∈ l -> x ∈ pool) ->
  exists draws, sample_from draws i pool (length l) = l.
Proof.
  induction l as [|x l IH]; intros pool i Hnd Hsub.
  - by exists (fun _ => 0%nat).
  - apply NoDup_cons in Hnd as [Hx Hnd].
    assert (Hin : x ∈ pool) by (apply Hsub; left).
    apply list_elem_of_lookup in Hin as [j Hj].
    pose proof (lookup_lt_Some _ _ _ Hj) as Hlt.
    destruct (IH (delete j pool) (S i) Hnd) as [draws' Hd'].
    { intros y Hy. assert (Hyp : y ∈ pool) by (apply Hsub; by right).
      rewrite (delete_Permutation _ _ _ Hj) in Hyp.
      apply elem_of_cons in Hyp as [->|Hyp]; done. }
    exists (fun n => if decide (n = i) then j else draws' n).
    simpl. rewrite decide_True by done.
    rewrite Nat.mod_small by done. rewrite Hj. f_equal.
    rewrite <- Hd' at 2. apply sample_from_ext.
    intros n Hn. rewrite decide_False by lia. done.
Qed.

Lemma range_grid p : p ∈ range grid_size <-> in_grid p.
Proof.
  unfold range, grid_size, in_grid. rewrite elem_of_seqZ. lia.
Qed.

(** [random.sample(range(25), k)] returns [k] distinct cells of the grid
    for every [k] between 0 and 25. *)
Lemma random_sample_grid draws k :
  0 <= k <= 25 ->
  exists mines,
    random_sample draws (range grid_size) k = Ok mines /\
    Z.of_nat (length mines) = k /\ NoDup mines /\ Forall in_grid mines.
Proof.
  intros Hk. unfold random_sample.
  assert (Hlen : length (range grid_size) = 25%nat) by done.
  rewrite Hlen.
  destruct (Z.ltb_spec k 0); [lia|].
  destruct (Z.ltb_spec (Z.of_nat 25) k); [lia|]. simpl.
  eexists; split; [done|]. split; [|split].
  - rewrite sample_from_length; [lia|]. rewrite Hlen. lia.
  - apply sample_from_NoDup, NoDup_seqZ.
  - apply Forall_forall. intros x Hx%sample_from_elem_of.
    by apply range_grid.
Qed.

(** ** Basic facts about the handlers *)

Lemma disjoint_grid_length (l1 l2 : list Z) :
  NoDup l1 -> NoDup l2 -> Forall in_grid l1 -> Forall in_grid l2 ->
  Forall (fun p => p ∉ l2) l1 ->
  Z.of_nat (length l1) + Z.of_nat (length l2) <= 25.
Proof.
  intros Hnd1 Hnd2 Hg1 Hg2 Hdisj.
  assert (Hnd : NoDup (l1 ++ l2)).
  { apply NoDup_app. split; [done|]. split; [|done].
    intros x Hx. by eapply Forall_forall in Hdisj. }
  assert (Hsub : l1 ++ l2 ⊆+ range grid_size).
  { apply NoDup_submseteq; [done|]. intros x Hx. apply range_grid.
    apply elem_of_app in Hx as [Hx|Hx]; by eapply Forall_forall in Hx. }
  apply submseteq_length in Hsub. rewrite length_app in Hsub.
  change (length (range grid_size)) with 25%nat in Hsub. lia.
Qed.

(** Every layout of distinct mines on the grid is drawn by some entropy. *)
Lemma random_sample_complete (mines : list Z) :
  NoDup mines -> Forall in_grid mines ->
  exists draws,
    random_sample draws (range grid_size) (Z.of_nat (length mines)) = Ok mines.
Proof.
  intros Hnd Hgrid.
  assert (Hdisj : Forall (fun p : Z => p ∉ ([] : list Z)) mines)
    by (apply Forall_forall; intros; apply not_elem_of_nil).
  pose proof (disjoint_grid_length mines [] Hnd (NoDup_nil_2) Hgrid
                (Forall_nil_2 _) Hdisj) as Hlen.
  simpl in Hlen.
  destruct (sample_from_complete mines (range grid_size) 0 Hnd) as [draws Hd].
  { intros x Hx. apply range_grid. by eapply Forall_forall in Hgrid. }
  exists draws. unfold random_sample.
  change (length (range grid_size)) with 25%nat.
  destruct (Z.ltb_spec (Z.of_nat (length mines)) 0); [lia|].
  destruct (Z.ltb_spec (Z.of_nat 25) (Z.of_nat (length mines))).
  - lia.
  - simpl. by rewrite Nat2Z.id, Hd.
Qed.

Lemma get_user_Some uid w u : users w !! uid = Some u -> get_user uid w = Ok u.
Proof. unfold get_user. by intros ->. Qed.

Lemma add_balance_Some uid amount w u :
  users w !! uid = Some u ->
  add_balance uid amount w =
    Ok (set_users (<[uid := set_balance (balance u + amount) u]> (users w)) w,
        balance u + amount).
Proof. intros Hu. unfold add_balance. by rewrite (get_user_Some _ _ _ Hu). Qed.

Lemma login_required_Some uid w u h :
  users w !! uid = Some u -> login_required uid w h = h.
Proof. unfold login_required. by intros ->. Qed.

Lemma balance_of_add uid w u amount :
  balance_of uid
    (set_users (<[uid := set_balance (balance u + amount) u]> (users w)) w)
  = Some (balance u + amount).
Proof. unfold balance_of. simpl. by rewrite lookup_insert_eq. Qed.

(** The unfolding of [start_mines_game] on its accepting path. *)
Lemma start_mines_game_accepts draws b m uid w u :
  users w !! uid = Some u ->
  1 <= m <= 24 -> 0 < b -> b <= balance u ->
  exists mines,
    random_sample draws (range grid_size) m = Ok mines /\
    start_mines_game draws b m uid w =
      Ok (GameStarted (balance u - b),
          {| users := <[uid := set_balance (balance u - b) u]> (users w);
             session := Some {| mines_positions := mines;
                                bet_amount := b;
                                mines_count := m;
                                revealed_positions := [];
                                active := true;
                                won := false;
                                multiplier := one |} |}).
Proof.
  intros Hu Hm Hb Hbal.
  destruct (random_sample_grid draws m) as (mines & Hs & _); [lia|].
  exists mines. split; [done|].
  unfold start_mines_game. rewrite (login_required_Some _ _ _ _ Hu).
  destruct (Z.ltb_spec m 1); [lia|].
  destruct (Z.gtb_spec m 24); [lia|]. simpl.
  rewrite (get_user_Some _ _ _ Hu). simpl.
  destruct (Z.leb_spec b 0); [lia|].
  destruct (Z.ltb_spec (balance u) b); [lia|].
  rewrite (add_balance_Some _ _ _ _ Hu). simpl. rewrite Hs. simpl.
  by replace (balance u + - b) with (balance u - b) by lia.
Qed.

(** ** Tables over the round shapes *)

Lemma grid_forall_spec (P : Z -> Z -> bool) :
  grid_forall P = true ->
  forall m k, 1 <= m <= 24 -> 0 <= k <= 25 - m -> P m k = true.
Proof.
  unfold grid_forall. intros H m k Hm Hk.
  rewrite forallb_forall in H.
  assert (Hin : In m (seqZ 1 24)).
  { apply list_elem_of_In, elem_of_seqZ. lia. }
  specialize (H m Hin). rewrite forallb_forall in H. apply H.
  apply list_elem_of_In, elem_of_seqZ. lia.
Qed.

Lemma compute_multiplier_ok m k :
  1 <= m <= 24 -> 0 <= k <= 25 - m ->
  compute_multiplier k (25 - m) m = Ok (multiplier_at m k).
Proof.
  intros Hm Hk.
  assert (H : grid_forall
                (fun m k => is_ok (compute_multiplier k (25 - m) m)) = true)
    by (vm_compute; reflexivity).
  pose proof (grid_forall_spec _ H m k Hm Hk) as Hok. simpl in Hok.
  unfold multiplier_at. by destruct (compute_multiplier k (25 - m) m).
Qed.

Lemma multiplier_at_start m : 1 <= m <= 24 -> multiplier_at m 0 = one.
Proof.
  intros Hm.
  assert (H : grid_forall
                (fun m k => bool_decide (multiplier_at m 0 = one)) = true)
    by (vm_compute; reflexivity).
  pose proof (grid_forall_spec _ H m 0 Hm ltac:(lia)) as Hok.
  by apply bool_decide_eq_true in Hok.
Qed.

Lemma in_grid_check p :
  (p <? 0) || (p >=? 25) = false <-> in_grid p.
Proof.
  unfold in_grid.
  destruct (Z.ltb_spec p 0), (Z.geb_spec p 25); simpl; split; (done || lia).
Qed.

(** ** The invariant is kept by every handler *)

Lemma wf_game_start mines b m :
  1 <= m <= 24 -> 0 < b ->
  Z.of_nat (length mines) = m -> NoDup mines -> Forall in_grid mines ->
  wf_game {| mines_positions := mines; bet_amount := b; mines_count := m;
             revealed_positions := []; active := true; won := false;
             multiplier := one |}.
Proof.
  intros Hm Hb Hlen Hnd Hgrid.
  split; simpl; try done; try constructor.
  - by rewrite multiplier_at_start.
  - unfold revealed_count, safe_tiles. simpl. lia.
Qed.

Lemma wf_game_finish w0 gs :
  wf_game gs -> wf_game (set_active_won false w0 gs).
Proof. intros [????????? _]. by split. Qed.

Lemma wf_game_reveal gs p :
  wf_game gs -> active gs = true -> in_grid p ->
  p ∉ revealed_positions gs -> p ∉ mines_positions gs ->
  let gs' := set_multiplier
               (multiplier_at (mines_count gs) (revealed_count gs + 1))
               (set_revealed (revealed_positions gs ++ [p]) gs) in
  revealed_count gs' = revealed_count gs + 1 /\
  revealed_count gs' <= safe_tiles gs' /\
  (revealed_count gs' <> safe_tiles gs' -> wf_game gs') /\
  wf_game (set_active_won false true gs').
Proof.
  intros [Hm Hlen Hnd Hgrid Hrnd Hrgrid Hsafe Hb Hmult Hact] Ha Hp Hrev Hmine gs'.
  assert (Hcount : revealed_count gs' = revealed_count gs + 1).
  { unfold revealed_count, gs'. simpl. rewrite length_app. simpl. lia. }
  assert (Hnd' : NoDup (revealed_positions gs ++ [p])).
  { apply NoDup_app. split; [done|]. split; [|apply NoDup_singleton].
    intros x Hx ->%list_elem_of_singleton. done. }
  assert (Hgrid' : Forall in_grid (revealed_positions gs ++ [p])).
  { apply Forall_app. split; [done|]. by apply Forall_singleton. }
  assert (Hsafe' : Forall (fun q => q ∉ mines_positions gs)
                     (revealed_positions gs ++ [p])).
  { apply Forall_app. split; [done|]. by apply Forall_singleton. }
  assert (Hle : revealed_count gs' <= safe_tiles gs').
  { pose proof (disjoint_grid_length _ _ Hnd' Hnd Hgrid' Hgrid Hsafe') as Hbound.
    unfold revealed_count, safe_tiles, gs'. simpl. lia. }
  split; [done|]. split; [done|].
  split; [intros Hne|]; (split; simpl; try done).
  - by rewrite <- Hcount.
  - intros _. lia.
  - by rewrite <- Hcount.
Qed.

(** ** Unfolding [reveal_tile] and [cashout] path by path *)

Section Paths.
Variables (uid : string) (w : world) (u : user_data).
Hypothesis Hu : users w !! uid = Some u.

Lemma reveal_tile_invalid p :
  ~ in_grid p -> reveal_tile p uid w = Ok (JsonError InvalidPosition, w).
Proof.
  intros Hp. unfold reveal_tile. rewrite (login_required_Some _ _ _ _ Hu).
  destruct ((p <? 0) || (p >=? 25)) eqn:Hc; [done|].
  by apply in_grid_check in Hc.
Qed.

Lemma reveal_tile_no_round p :
  in_grid p -> round_is_active w = false ->
  reveal_tile p uid w = Ok (JsonError NoActiveRound, w).
Proof.
  intros Hp Hr. unfold reveal_tile. rewrite (login_required_Some _ _ _ _ Hu).
  apply in_grid_check in Hp as ->. unfold round_is_active in Hr.
  destruct (session w) as [gs|]; [|done]. by rewrite Hr.
Qed.

Lemma reveal_tile_already p gs :
  in_grid p -> session w = Some gs -> active gs = true ->
  p ∈ revealed_positions gs ->
  reveal_tile p uid w = Ok (JsonError AlreadyRevealed, w).
Proof.
  intros Hp Hs Ha Hin. unfold reveal_tile.
  rewrite (login_required_Some _ _ _ _ Hu).
  apply in_grid_check in Hp as ->. rewrite Hs, Ha. simpl.
  by rewrite bool_decide_eq_true_2.
Qed.

Lemma reveal_tile_mine p gs :
  in_grid p -> session w = Some gs -> active gs = true ->
  p ∉ revealed_positions gs -> p ∈ mines_positions gs ->
  reveal_tile p uid w =
    Ok (MineHit (mines_positions gs),
        set_session (set_active_won false false gs) w).
Proof.
  intros Hp Hs Ha Hrev Hmine. unfold reveal_tile.
  rewrite (login_required_Some _ _ _ _ Hu).
  apply in_grid_check in Hp as ->. rewrite Hs, Ha. simpl.
  rewrite bool_decide_eq_false_2 by done.
  by rewrite bool_decide_eq_true_2.
Qed.

Lemma reveal_tile_safe p gs :
  in_grid p -> session w = Some gs -> wf_game gs -> active gs = true ->
  p ∉ revealed_positions gs -> p ∉ mines_positions gs ->
  let mult := multiplier_at (mines_count gs) (revealed_count gs + 1) in
  let gs1 :=
    set_multiplier mult (set_revealed (revealed_positions gs ++ [p]) gs) in
  reveal_tile p uid w =
    if revealed_count gs + 1 =? safe_tiles gs then
      winnings ← payout (bet_amount gs) mult;
      Ok (RoundWon mult winnings (balance u + winnings) (mines_positions gs),
          set_session (set_active_won false true gs1)
            (set_users
               (<[uid := set_balance (balance u + winnings) u]> (users w)) w))
    else
      potential_win ← payout (bet_amount gs) mult;
      Ok (TileSafe (revealed_positions gs ++ [p]) mult potential_win,
          set_session gs1 w).
Proof.
  intros Hp Hs Hwf Ha Hrev Hmine mult gs1. unfold reveal_tile.
  rewrite (login_required_Some _ _ _ _ Hu).
  apply in_grid_check in Hp as ->. rewrite Hs, Ha. simpl.
  rewrite !bool_decide_eq_false_2 by done.
  rewrite length_app. simpl length.
  replace (Z.of_nat (length (revealed_positions gs) + 1))
    with (revealed_count gs + 1) by (unfold revealed_count; lia).
  pose proof (wf_mines_count _ Hwf) as Hm.
  pose proof (wf_active _ Hwf Ha) as Hlt. unfold safe_tiles in *.
  assert (0 <= revealed_count gs) by (unfold revealed_count; lia).
  rewrite compute_multiplier_ok by lia. simpl. fold mult.
  destruct (revealed_count gs + 1 =? 25 - mines_count gs); [|done].
  destruct (payout (bet_amount gs) mult) as [winnings|]; [|done]. simpl.
  by rewrite (add_balance_Some _ _ _ _ Hu).
Qed.

Lemma cashout_no_round :
  round_is_active w = false -> cashout uid w = Ok (JsonError NoActiveRound, w).
Proof.
  intros Hr. unfold cashout. rewrite (login_required_Some _ _ _ _ Hu).
  unfold round_is_active in Hr.
  destruct (session w) as [gs|]; [|done]. by rewrite Hr.
Qed.

Lemma cashout_active gs :
  session w = Some gs -> active gs = true ->
  cashout uid w =
    winnings ← payout (bet_amount gs) (multiplier gs);
    Ok (CashedOutOk winnings (balance u + winnings) (mines_positions gs),
        set_session (set_active_won false true gs)
          (set_users
             (<[uid := set_balance (balance u + winnings) u]> (users w)) w)).
Proof.
  intros Hs Ha. unfold cashout. rewrite (login_required_Some _ _ _ _ Hu).
  rewrite Hs, Ha. simpl.
  destruct (payout (bet_amount gs) (multiplier gs)) as [winnings|]; [|done].
  simpl. by rewrite (add_balance_Some _ _ _ _ Hu).
Qed.

Lemma update_balance_logged_in amount :
  update_balance amount uid w =
    Ok (BalanceUpdated (balance u + amount),
        set_users (<[uid := set_balance (balance u + amount) u]> (users w)) w).
Proof.
  unfold update_balance. rewrite (login_required_Some _ _ _ _ Hu).
  by rewrite (add_balance_Some _ _ _ _ Hu).
Qed.

End Paths.

Lemma start_mines_game_rejects draws b m uid w u :
  users w !! uid = Some u ->
  ~ (1 <= m <= 24 /\ 0 < b /\ b <= balance u) ->
  start_mines_game draws b m uid w = Ok (JsonError (start_rejection b m), w).
Proof.
  intros Hu Hbad. unfold start_mines_game, start_rejection.
  rewrite (login_required_Some _ _ _ _ Hu).
  destruct (Z.ltb_spec m 1); [done|].
  destruct (Z.gtb_spec m 24); [done|]. simpl.
  rewrite (get_user_Some _ _ _ Hu). simpl.
  destruct (Z.leb_spec b 0); [done|].
  destruct (Z.ltb_spec (balance u) b); [done|]. lia.
Qed.

Lemma wf_world_set_users uid w v :
  wf_world uid w -> wf_world uid (set_users (<[uid := v]> (users w)) w).
Proof.
  intros [_ Hgs]. split; [|done]. simpl. rewrite lookup_insert_eq. eauto.
Qed.

Lemma wf_world_set_session uid w gs :
  wf_world uid w -> wf_game gs -> wf_world uid (set_session gs w).
Proof.
  intros [Hu _] Hgs. split; [done|]. simpl. by intros ? [= <-].
Qed.

Lemma handle_wf uid r w resp w' :
  wf_world uid w -> handle uid r w = Ok (resp, w') -> wf_world uid w'.
Proof.
  intros Hwf. pose proof Hwf as [[u Hu] Hgs]. destruct r as [amount|draws b m|p|]; simpl.
  - rewrite (update_balance_logged_in _ _ _ Hu). intros [= <- <-].
    by eapply wf_world_set_users.
  - destruct (decide (1 <= m <= 24 /\ 0 < b /\ b <= balance u))
      as [(Hm & Hb & Hbal)|Hbad].
    + destruct (start_mines_game_accepts draws b m uid w u)
        as (mines & Hs & ->); try done.
      intros [= <- <-].
      destruct (random_sample_grid draws m) as (mines' & Hs' & Hl & Hnd & Hg);
        [lia|].
      rewrite Hs in Hs'. injection Hs' as <-.
      split; simpl; [rewrite lookup_insert_eq; eauto|].
      intros ? [= <-]. by apply wf_game_start.
    + rewrite (start_mines_game_rejects _ _ _ _ _ _ Hu Hbad). by intros [= <- <-].
  - destruct (decide (in_grid p)) as [Hp|Hp];
      [|rewrite (reveal_tile_invalid _ _ _ Hu _ Hp); by intros [= <- <-]].
    destruct (round_is_active w) eqn:Hact;
      [|rewrite (reveal_tile_no_round _ _ _ Hu _ Hp Hact); by intros [= <- <-]].
    unfold round_is_active in Hact.
    destruct (session w) as [gs|] eqn:Hs; [|done].
    specialize (Hgs gs eq_refl).
    destruct (decide (p ∈ revealed_positions gs)) as [Hrev|Hrev];
      [rewrite (reveal_tile_already _ _ _ Hu _ _ Hp Hs Hact Hrev);
       by intros [= <- <-]|].
    destruct (decide (p ∈ mines_positions gs)) as [Hmine|Hmine].
    + rewrite (reveal_tile_mine _ _ _ Hu _ _ Hp Hs Hact Hrev Hmine).
      intros [= <- <-]. apply wf_world_set_session; [done|].
      by apply wf_game_finish.
    + rewrite (reveal_tile_safe _ _ _ Hu _ _ Hp Hs Hgs Hact Hrev Hmine).
      destruct (wf_game_reveal gs p Hgs Hact Hp Hrev Hmine)
        as (Hcount & Hle & Hwf' & Hwon).
      destruct (Z.eqb_spec (revealed_count gs + 1) (safe_tiles gs)) as [Heq|Hne].
      * destruct (payout _ _) as [winnings|]; [|done]. simpl.
        intros [= <- <-]. apply wf_world_set_session.
        { by eapply wf_world_set_users. }
        done.
      * destruct (payout _ _) as [pw|]; [|done]. simpl.
        intros [= <- <-]. apply wf_world_set_session; [done|].
        apply Hwf'. rewrite Hcount. done.
  - destruct (round_is_active w) eqn:Hact;
      [|rewrite (cashout_no_round _ _ _ Hu Hact); by intros [= <- <-]].
    unfold round_is_active in Hact.
    destruct (session w) as [gs|] eqn:Hs; [|done].
    rewrite (cashout_active _ _ _ Hu gs Hs Hact).
    destruct (payout _ _) as [winnings|]; [|done]. simpl.
    intros [= <- <-]. apply wf_world_set_session.
    + by eapply wf_world_set_users.
    + apply wf_game_finish. by apply Hgs.
Qed.

Lemma reachable_wf uid w : reachable uid w -> wf_world uid w.
Proof.
  induction 1 as [uid db Hu|uid w r resp w' _ IH Hstep
                 |uid w db' _ [Hu Hgs] Hsame|uid' uid w _ [_ Hgs] Hu
                 |uid w gs p mult e _ [[u Hu] Hgs] Hs Ha Hrev Hmine Hcm Hne
                    Hraise].
  - split; [done|]. by intros gs [=].
  - by eapply handle_wf.
  - split; [|done]. simpl. by rewrite Hsame.
  - by split.
  - split; [simpl; eauto|]. simpl. intros ? [= <-].
    assert (Hp : in_grid p).
    { destruct (decide (in_grid p)) as [|Hp]; [done|].
      by rewrite (reveal_tile_invalid _ _ _ Hu _ Hp) in Hraise. }
    destruct (wf_game_reveal gs p (Hgs gs Hs) Ha Hp Hrev Hmine)
      as (Hcount & _ & Hwf' & _).
    assert (Hlen : Z.of_nat (length (revealed_positions gs ++ [p]))
                   = revealed_count gs + 1).
    { unfold revealed_count. rewrite length_app. simpl. lia. }
    rewrite Hlen in *.
    assert (mult = multiplier_at (mines_count gs) (revealed_count gs + 1))
      as -> by (unfold multiplier_at; by rewrite Hcm).
    apply Hwf'. rewrite Hcount. done.
Qed.

(** A round stored in a reachable world: the user is in the table, the
    round satisfies the invariant, and its tiles are cells of the grid. *)
Lemma reachable_round uid w gs :
  reachable uid w -> session w = Some gs ->
  (exists u, users w !! uid = Some u) /\ wf_game gs.
Proof.
  intros [[u Hu] Hgs]%reachable_wf Hs. split; [eauto|]. by apply Hgs.
Qed.

Lemma insert_other_user uid uid' (v : user_data) (db : gmap string user_data) :
  uid' <> uid -> <[uid := v]> db !! uid' = db !! uid'.
Proof. intros Hne. by apply lookup_insert_ne. Qed.

(** ** Runs *)

Lemma run_reachable uid rs : forall w resps w',
  reachable uid w -> run uid rs w = Ok (resps, w') -> reachable uid w'.
Proof.
  induction rs as [|r rs IH]; intros w resps w' Hw; simpl.
  - by intros [= _ <-].
  - destruct (handle uid r w) as [[resp w1]|] eqn:Hstep; [|done]. simpl.
    destruct (run uid rs w1) as [[resps' w2]|] eqn:Hrun; [|done]. simpl.
    intros [= _ <-]. eapply IH; [|done]. by eapply reach_step.
Qed.

Lemma demo_world_reachable : reachable demo_uid demo_world.
Proof. apply reach_login. unfold demo_uid. by rewrite lookup_singleton_eq. Qed.

Lemma world_after_reachable rs w :
  reachable demo_uid w -> reachable demo_uid (world_after rs w).
Proof.
  intros Hw. unfold world_after, after.
  destruct (run demo_uid rs w) as [[resps w']|] eqn:Hrun; [|done].
  simpl. by eapply run_reachable.
Qed.

(** On a finished (or absent) round every [reveal_tile] and [cashout]
    request is rejected and stores nothing. *)
Lemma run_finished uid w u rs :
  users w !! uid = Some u -> round_is_active w = false ->
  forallb is_play rs = true ->
  run uid rs w = Ok (JsonError ∘ finished_rejection <$> rs, w).
Proof.
  intros Hu Hfin. induction rs as [|r rs IH]; [done|]. simpl.
  intros [Hr Hrs]%andb_prop. specialize (IH Hrs).
  assert (Hstep : handle uid r w = Ok (JsonError (finished_rejection r), w)).
  { destruct r as [| |p|]; try done; simpl.
    - destruct ((p <? 0) || (p >=? 25)) eqn:Hc.
      + apply (reveal_tile_invalid _ _ _ Hu). by rewrite <- in_grid_check, Hc.
      + apply (reveal_tile_no_round _ _ _ Hu); [|done]. by apply in_grid_check.
    - by apply (cashout_no_round _ _ _ Hu). }
  rewrite Hstep. simpl. by rewrite IH.
Qed.

(** ** Binary64 arithmetic: digits and right shifts *)

Lemma digits2_pos_size p : digits2_pos p = Pos.size p.
Proof. induction p as [p IH|p IH|]; simpl; by rewrite ?IH. Qed.

Lemma digits_bounds p :
  2 ^ (Zpos (digits2_pos p) - 1) <= Zpos p < 2 ^ Zpos (digits2_pos p).
Proof.
  rewrite digits2_pos_size.
  pose proof (Pos.size_gt p) as Hgt. pose proof (Pos.size_le p) as Hle.
  apply Pos2Z.pos_lt_pos in Hgt. apply Pos2Z.pos_le_pos in Hle.
  rewrite Pos2Z.inj_pow in Hgt, Hle.
  change (Z.pos p~0) with (2 * Z.pos p) in Hle.
  assert (Hpow : 2 ^ Z.pos (Pos.size p) = 2 * 2 ^ (Z.pos (Pos.size p) - 1)).
  { rewrite <- Z.pow_succ_r by lia. f_equal. lia. }
  lia.
Qed.

Lemma digits_unique p d :
  2 ^ (d - 1) <= Zpos p < 2 ^ d -> Zpos (digits2_pos p) = d.
Proof.
  intros [Hlo Hhi]. pose proof (digits_bounds p) as [Hlo' Hhi'].
  assert (0 < d).
  { destruct (Z.le_gt_cases d 0) as [Hd|]; [|done].
    assert (2 ^ d <= 2 ^ 0) by (apply Z.pow_le_mono_r; lia).
    simpl in *. lia. }
  destruct (Z.lt_trichotomy (Zpos (digits2_pos p)) d) as [Hlt|[Heq|Hgt]];
    [|done|].
  - assert (2 ^ Zpos (digits2_pos p) <= 2 ^ (d - 1))
      by (apply Z.pow_le_mono_r; lia). lia.
  - assert (2 ^ d <= 2 ^ (Zpos (digits2_pos p) - 1))
      by (apply Z.pow_le_mono_r; lia). lia.
Qed.

Lemma digits_le p d : Zpos p < 2 ^ d -> Zpos (digits2_pos p) <= d.
Proof.
  intros Hp. pose proof (digits_bounds p) as [Hlo _].
  destruct (Z.le_gt_cases (Zpos (digits2_pos p)) d) as [|Hgt]; [done|].
  assert (2 ^ d <= 2 ^ (Zpos (digits2_pos p) - 1))
    by (apply Z.pow_le_mono_r; [lia|]; destruct (Z.le_gt_cases 0 d); [lia|];
        rewrite (Z.pow_neg_r 2 d) in Hp by lia; lia).
  lia.
Qed.

Lemma iter_pos_nat {A} (f : A -> A) p x :
  SpecFloat.iter_pos f p x = Nat.iter (Pos.to_nat p) f x.
Proof.
  revert x. induction p as [p IH|p IH|]; intros x; cbn [SpecFloat.iter_pos].
  - rewrite !IH, Pos2Nat.inj_xI.
    rewrite <- Nat.iter_succ_r, <- Nat.iter_add. f_equal. lia.
  - rewrite !IH, Pos2Nat.inj_xO, <- Nat.iter_add. f_equal. lia.
  - done.
Qed.

Lemma shr_1_m r : 0 <= shr_m r -> shr_m (shr_1 r) = shr_m r / 2.
Proof.
  destruct r as [m rb sb]. cbn [shr_m]. intros Hm.
  destruct m as [|[p|p|]|p]; cbn [shr_1 shr_m]; try done; try lia.
  - apply Z.div_unique with 1; lia.
  - apply Z.div_unique with 0; lia.
Qed.

Lemma shr_iter_m n r :
  0 <= shr_m r -> shr_m (Nat.iter n shr_1 r) = shr_m r / 2 ^ Z.of_nat n.
Proof.
  intros Hm. induction n as [|n IH].
  - simpl. by rewrite Z.div_1_r.
  - rewrite Nat2Z.inj_succ, Z.pow_succ_r by lia.
    change (Nat.iter (S n) shr_1 r) with (shr_1 (Nat.iter n shr_1 r)).
    rewrite shr_1_m, IH.
    + rewrite (Z.mul_comm 2), <- Z.div_div by lia. done.
    + rewrite IH. apply Z.div_pos; lia.
Qed.

(** Shifting out zero bits only is exact. *)
Lemma shr_iter_exact n m :
  Nat.iter n shr_1 (Build_shr_record (Zpos m * 2 ^ Z.of_nat n) false false)
  = Build_shr_record (Zpos m) false false.
Proof.
  induction n as [|n IH].
  - simpl. by rewrite Z.mul_1_r.
  - rewrite Nat.iter_succ_r.
    replace (shr_1 (Build_shr_record (Zpos m * 2 ^ Z.of_nat (S n)) false false))
      with (Build_shr_record (Zpos m * 2 ^ Z.of_nat n) false false); [done|].
    rewrite Nat2Z.inj_succ, Z.pow_succ_r by lia.
    replace (Zpos m * (2 * 2 ^ Z.of_nat n))
      with (2 * (Zpos m * 2 ^ Z.of_nat n)) by lia.
    assert (Hpos : 0 < Zpos m * 2 ^ Z.of_nat n) by lia.
    by destruct (Zpos m * 2 ^ Z.of_nat n) as [|q|q].
Qed.

Lemma shr_exact m e s :
  0 <= s ->
  shr (Build_shr_record (Zpos m * 2 ^ s) false false) e s
  = (Build_shr_record (Zpos m) false false, e + s).
Proof.
  intros Hs. destruct s as [|p|p]; [| |lia].
  - by rewrite Z.pow_0_r, Z.mul_1_r, Z.add_0_r.
  - unfold shr. rewrite iter_pos_nat. f_equal.
    rewrite <- (positive_nat_Z p). apply shr_iter_exact.
Qed.

Lemma Zdigits2_shift m s :
  0 <= s -> Zdigits2 (Zpos m * 2 ^ s) = Zpos (digits2_pos m) + s.
Proof.
  intros Hs. pose proof (digits_bounds m) as [Hlo Hhi].
  assert (Hpos : 0 < Zpos m * 2 ^ s) by lia.
  destruct (Zpos m * 2 ^ s) as [|q|q] eqn:Hq; try lia.
  simpl. apply digits_unique. rewrite <- Hq.
  replace (Z.pos (digits2_pos m) + s - 1)
    with ((Z.pos (digits2_pos m) - 1) + s) by lia.
  rewrite !Z.pow_add_r by lia. nia.
Qed.

Lemma fexp_normal e : -1074 <= e - 53 -> fexp prec emax e = e - 53.
Proof. unfold fexp, emin, prec, emax. lia. Qed.

(** Rounding a value whose significant bits fit into 53 digits is exact. *)
Lemma binary_round_aux_exact sx m e s :
  Zpos (digits2_pos m) = 53 -> 0 <= s -> -1074 <= e + s <= 971 ->
  binary_round_aux prec emax sx (Zpos m * 2 ^ s) e loc_Exact
  = S754_finite sx m (e + s).
Proof.
  intros Hd Hs He. unfold binary_round_aux, shr_fexp.
  rewrite Zdigits2_shift, Hd by done.
  rewrite fexp_normal by lia. cbn [shr_record_of_loc].
  replace (53 + s + e - 53 - e) with s by lia.
  rewrite shr_exact by done. cbn [shr_m loc_of_shr_record round_nearest_even].
  cbn [Zdigits2]. rewrite Hd, fexp_normal by lia.
  replace (53 + (e + s) - 53 - (e + s)) with 0 by lia.
  cbn [shr shr_record_of_loc shr_m].
  unfold prec, emax. destruct (Z.leb_spec (e + s) (1024 - 53)); [done|lia].
Qed.

Lemma pos_iter_xO m d : Zpos (Pos.iter xO m d) = Zpos m * 2 ^ Zpos d.
Proof.
  induction d as [|d IH] using Pos.peano_ind.
  - simpl. lia.
  - rewrite Pos.iter_succ, Pos2Z.inj_xO, IH, Pos2Z.inj_succ, Z.pow_succ_r by lia.
    lia.
Qed.

Lemma shl_align_spec m e e' :
  e' <= e ->
  snd (shl_align m e e') = e' /\
  Zpos (fst (shl_align m e e')) = Zpos m * 2 ^ (e - e').
Proof.
  intros He. unfold shl_align.
  destruct (e' - e) as [|d|d] eqn:Hd; try lia; simpl.
  - assert (e = e') as -> by lia. rewrite Z.sub_diag. lia.
  - rewrite pos_iter_xO. split; [done|]. do 2 f_equal. lia.
Qed.

Lemma digits_range n : Zpos n < 2 ^ 53 -> 1 <= digits n <= 53.
Proof. intros Hn. unfold digits. split; [lia|]. by apply digits_le. Qed.

Lemma exact_mantissa_value n :
  Zpos n < 2 ^ 53 -> Zpos (exact_mantissa n) = Zpos n * 2 ^ (53 - digits n).
Proof.
  intros Hd%digits_range. unfold exact_mantissa.
  destruct (shl_align_spec n 0 (digits n - 53)) as [_ ->]; [lia|].
  do 2 f_equal. lia.
Qed.

Lemma exact_mantissa_digits n :
  Zpos n < 2 ^ 53 -> digits (exact_mantissa n) = 53.
Proof.
  intros Hn. pose proof (digits_range n Hn) as Hd.
  apply digits_unique. rewrite exact_mantissa_value by done.
  pose proof (digits_bounds n) as [Hlo Hhi]. fold (digits n) in Hlo, Hhi.
  assert (H1 : 2 ^ 53 = 2 ^ (53 - digits n) * 2 ^ digits n)
    by (rewrite <- Z.pow_add_r by lia; f_equal; lia).
  assert (H2 : 2 ^ (53 - 1) = 2 ^ (53 - digits n) * 2 ^ (digits n - 1))
    by (rewrite <- Z.pow_add_r by lia; f_equal; lia).
  assert (0 < 2 ^ (53 - digits n)) by (apply Z.pow_pos_nonneg; lia).
  rewrite H1, H2. nia.
Qed.

(** [float(n)] is exact below [2^53]. *)
Lemma float_of_int_exact n :
  Zpos n < 2 ^ 53 -> float_of_int (Zpos n) = Ok (exact_double n).
Proof.
  intros Hn. pose proof (digits_range n Hn) as Hd.
  unfold float_of_int, binary_normalize, binary_round.
  rewrite Z.add_0_r. fold (digits n). rewrite fexp_normal by lia.
  destruct (shl_align_spec n 0 (digits n - 53)) as [Hez _]; [lia|].
  rewrite (surjective_pairing (shl_align n 0 (digits n - 53))), Hez.
  fold (exact_mantissa n).
  replace (Zpos (exact_mantissa n)) with (Zpos (exact_mantissa n) * 2 ^ 0)
    by lia.
  rewrite binary_round_aux_exact; [|by apply exact_mantissa_digits|lia|lia].
  unfold exact_double. by rewrite Z.add_0_r.
Qed.

(** [int(x)] gives back the integer an exact double holds. *)
Lemma int_of_exact_double n :
  Zpos n < 2 ^ 53 -> int_of_float (exact_double n) = Ok (Zpos n).
Proof.
  intros Hn. pose proof (digits_range n Hn) as Hd.
  unfold exact_double, int_of_float. f_equal. cbn [cond_Zopp].
  pose proof (exact_mantissa_value n Hn) as Hm.
  destruct (digits n - 53) as [|p|p] eqn:Hp; try lia.
  - rewrite Hm. replace (53 - digits n) with 0 by lia. lia.
  - rewrite Z.shiftr_div_pow2, Hm by lia.
    replace (53 - digits n) with (Zpos p) by lia.
    rewrite Z.div_mul; [done|]. apply Z.pow_nonzero; lia.
Qed.

Lemma digits_mul_lower a b : digits a + digits b - 1 <= digits (a * b).
Proof.
  pose proof (digits_bounds a) as [Ha _]. pose proof (digits_bounds b) as [Hb _].
  pose proof (digits_bounds (a * b)) as [_ Hab].
  fold (digits a) in Ha. fold (digits b) in Hb. fold (digits (a * b)) in Hab.
  assert (1 <= digits a) by (unfold digits; lia).
  assert (1 <= digits b) by (unfold digits; lia).
  destruct (Z.le_gt_cases (digits a + digits b - 1) (digits (a * b)))
    as [|Hgt]; [done|].
  assert (Hpow : 2 ^ digits (a * b) <= 2 ^ ((digits a - 1) + (digits b - 1)))
    by (apply Z.pow_le_mono_r; unfold digits in *; lia).
  rewrite Z.pow_add_r in Hpow by lia.
  rewrite Pos2Z.inj_mul in Hab. nia.
Qed.

(** The product of two exact doubles is exact when it is below [2^53]. *)
Lemma fmul_exact_double a b :
  Zpos a * Zpos b < 2 ^ 53 ->
  fmul (exact_double a) (exact_double b) = exact_double (a * b).
Proof.
  intros Hab.
  assert (Ha : Zpos a < 2 ^ 53) by nia.
  assert (Hb : Zpos b < 2 ^ 53) by nia.
  assert (Hc : Zpos (a * b) < 2 ^ 53) by (by rewrite Pos2Z.inj_mul).
  pose proof (digits_range a Ha) as Hda. pose proof (digits_range b Hb) as Hdb.
  pose proof (digits_range _ Hc) as Hdc.
  pose proof (digits_mul_lower a b) as Hlow.
  unfold exact_double at 1 2. unfold fmul, SFmul. cbn [xorb].
  set (s := 53 + digits (a * b) - digits a - digits b).
  assert (Hm : Zpos (exact_mantissa a * exact_mantissa b)
               = Zpos (exact_mantissa (a * b)) * 2 ^ s).
  { rewrite Pos2Z.inj_mul, !exact_mantissa_value by done.
    rewrite Pos2Z.inj_mul.
    assert (Hp : 2 ^ (53 - digits a) * 2 ^ (53 - digits b)
                 = 2 ^ (53 - digits (a * b)) * 2 ^ s).
    { rewrite <- !Z.pow_add_r by lia. f_equal. lia. }
    nia. }
  rewrite Hm, binary_round_aux_exact;
    [|by apply exact_mantissa_digits|lia|lia].
  unfold exact_double. f_equal. lia.
Qed.

(** [int(b * x)] is exact when [x] holds the integer [c] and [b * c] is
    below [2^53]. *)
Lemma payout_exact b c :
  Zpos b * Zpos c < 2 ^ 53 ->
  payout (Zpos b) (exact_double c) = Ok (Zpos b * Zpos c).
Proof.
  intros Hbc. assert (Hb : Zpos b < 2 ^ 53) by nia.
  unfold payout, int_mul_float. rewrite float_of_int_exact by done.
  unfold mbind, result_bind.
  rewrite fmul_exact_double by done.
  rewrite int_of_exact_double by (by rewrite Pos2Z.inj_mul).
  by rewrite Pos2Z.inj_mul.
Qed.

Lemma shr_record_of_loc_m m l : shr_m (shr_record_of_loc m l) = m.
Proof. by destruct l as [|[]]. Qed.

Lemma shr_spec r e s :
  0 <= shr_m r ->
  shr_m (fst (shr r e s)) = shr_m r / 2 ^ Z.max 0 s /\
  snd (shr r e s) = e + Z.max 0 s.
Proof.
  intros Hm. destruct s as [|p|p]; cbn [shr fst snd].
  - rewrite Z.max_id, Z.pow_0_r, Z.div_1_r. lia.
  - rewrite iter_pos_nat, shr_iter_m, positive_nat_Z by done.
    by rewrite Z.max_r by lia.
  - rewrite Z.max_l, Z.pow_0_r, Z.div_1_r by lia. lia.
Qed.

Lemma round_nearest_even_bounds q l :
  q <= round_nearest_even q l <= q + 1.
Proof.
  destruct l as [|[]]; cbn [round_nearest_even]; try lia.
  destruct (Z.even q); lia.
Qed.

Lemma Zdigits2_le x k : 0 <= k -> 0 <= x < 2 ^ k -> 0 <= Zdigits2 x <= k.
Proof.
  intros Hk [Hx0 Hx]. destruct x as [|p|p]; cbn [Zdigits2]; try lia.
  split; [lia|]. by apply digits_le.
Qed.

(** Rounding stays finite while the value is below [2^1023]; the result
    keeps at most 53 digits and its exponent is at most one above the
    exponent the value calls for. *)
Lemma binary_round_aux_finite sx mx ex lx :
  let e0 := Z.max (Z.max ex (digits mx + ex - 53)) (-1074) in
  e0 + 1 <= 971 ->
  binary_round_aux prec emax sx (Zpos mx) ex lx = S754_zero sx \/
  exists m e,
    binary_round_aux prec emax sx (Zpos mx) ex lx = S754_finite sx m e /\
    digits m <= 53 /\ e <= e0 + 1.
Proof.
  intros e0 He0. unfold binary_round_aux, shr_fexp.
  cbn [Zdigits2]. fold (digits mx).
  set (s1 := fexp prec emax (digits mx + ex) - ex).
  assert (Hs1 : s1 = Z.max (digits mx - 53) (-1074 - ex))
    by (unfold s1, fexp, emin, prec, emax; lia).
  pose proof (shr_spec (shr_record_of_loc (Zpos mx) lx) ex s1) as [Hq He'];
    [rewrite shr_record_of_loc_m; lia|].
  destruct (shr (shr_record_of_loc (Zpos mx) lx) ex s1) as [mrs' e'].
  cbn [fst snd] in Hq, He'. rewrite shr_record_of_loc_m in Hq.
  pose proof (digits_bounds mx) as [_ Hmx]. fold (digits mx) in Hmx.
  assert (Hd1 : 1 <= digits mx) by (unfold digits; lia).
  assert (Hqb : 0 <= shr_m mrs' < 2 ^ 53).
  { rewrite Hq. split; [apply Z.div_pos; lia|].
    apply Z.div_lt_upper_bound; [lia|].
    destruct (Z.le_gt_cases (digits mx) 53) as [Hle|Hgt].
    - assert (2 ^ digits mx <= 2 ^ 53) by (apply Z.pow_le_mono_r; lia).
      assert (1 <= 2 ^ Z.max 0 s1) by lia. nia.
    - assert (Hpow : 2 ^ digits mx <= 2 ^ (Z.max 0 s1 + 53))
        by (apply Z.pow_le_mono_r; lia).
      rewrite Z.pow_add_r in Hpow by lia. lia. }
  set (m1 := round_nearest_even (shr_m mrs') (loc_of_shr_record mrs')).
  pose proof (round_nearest_even_bounds (shr_m mrs') (loc_of_shr_record mrs'))
    as Hm1. fold m1 in Hm1.
  assert (Hm1d : 0 <= Zdigits2 m1 <= 54).
  { apply Zdigits2_le; [lia|]. change (2 ^ 54) with (2 * 2 ^ 53). lia. }
  set (s2 := fexp prec emax (Zdigits2 m1 + e') - e').
  assert (Hs2 : s2 = Z.max (Zdigits2 m1 - 53) (-1074 - e'))
    by (unfold s2, fexp, emin, prec, emax; lia).
  pose proof (shr_spec (shr_record_of_loc m1 loc_Exact) e' s2) as [Hq2 He''];
    [rewrite shr_record_of_loc_m; lia|].
  destruct (shr (shr_record_of_loc m1 loc_Exact) e' s2) as [mrs'' e''].
  cbn [fst snd] in Hq2, He''. rewrite shr_record_of_loc_m in Hq2.
  assert (He'r : -1074 <= e' <= e0) by lia.
  assert (He''r : e'' <= e0 + 1) by lia.
  assert (Hq2b : 0 <= shr_m mrs'' < 2 ^ 53).
  { rewrite Hq2. split; [apply Z.div_pos; lia|].
    apply Z.div_lt_upper_bound; [lia|].
    destruct (Z.le_gt_cases (Zdigits2 m1) 53) as [Hle|Hgt].
    - assert (m1 < 2 ^ 53); [|nia].
      destruct m1 as [|p|p]; try lia. cbn [Zdigits2] in Hle.
      pose proof (digits_bounds p) as [_ Hp].
      assert (2 ^ Z.pos (digits2_pos p) <= 2 ^ 53)
        by (apply Z.pow_le_mono_r; lia). lia.
    - replace (Z.max 0 s2) with 1 by lia. lia. }
  destruct (shr_m mrs'') as [|m|m] eqn:Hm; [by left| |lia].
  right. exists m, e''. unfold prec, emax.
  destruct (Z.leb_spec e'' (1024 - 53)); [|lia].
  split; [done|]. split; [|done]. unfold digits. apply digits_le. lia.
Qed.

(** The integer part of a rounded value with a negative exponent: the
    mantissa is cut to 53 digits, moved up by at most one, and then
    truncated. *)
Lemma binary_round_aux_trunc mx ex :
  let s1 := digits mx - 53 in
  0 <= s1 -> -1074 <= ex + s1 < 0 ->
  exists m1,
    Zpos mx / 2 ^ s1 <= m1 <= Zpos mx / 2 ^ s1 + 1 /\
    int_of_float (binary_round_aux prec emax false (Zpos mx) ex loc_Exact)
      = Ok (m1 / 2 ^ (- (ex + s1))).
Proof.
  intros s1 Hs1 He. unfold binary_round_aux, shr_fexp.
  cbn [Zdigits2]. fold (digits mx).
  rewrite fexp_normal by (unfold s1 in *; lia).
  replace (digits mx + ex - 53 - ex) with s1 by (unfold s1; lia).
  pose proof (shr_spec (shr_record_of_loc (Zpos mx) loc_Exact) ex s1) as [Hq He'];
    [rewrite shr_record_of_loc_m; lia|].
  destruct (shr (shr_record_of_loc (Zpos mx) loc_Exact) ex s1) as [mrs' e'].
  cbn [fst snd] in Hq, He'. rewrite shr_record_of_loc_m in Hq.
  rewrite Z.max_r in Hq, He' by lia.
  pose proof (digits_bounds mx) as [Hlo Hhi]. fold (digits mx) in Hlo, Hhi.
  assert (Hqb : 2 ^ 52 <= shr_m mrs' < 2 ^ 53).
  { rewrite Hq. replace (digits mx - 1) with (52 + s1) in Hlo by (unfold s1; lia).
    replace (digits mx) with (53 + s1) in Hhi by (unfold s1; lia).
    rewrite Z.pow_add_r in Hlo, Hhi by lia.
    assert (0 < 2 ^ s1) by (apply Z.pow_pos_nonneg; lia).
    split.
    - apply Z.div_le_lower_bound; lia.
    - apply Z.div_lt_upper_bound; lia. }
  set (m1 := round_nearest_even (shr_m mrs') (loc_of_shr_record mrs')).
  pose proof (round_nearest_even_bounds (shr_m mrs') (loc_of_shr_record mrs'))
    as Hm1. fold m1 in Hm1.
  exists m1. split; [by rewrite <- Hq|].
  destruct m1 as [|p1|p1] eqn:Hp1; try lia.
  cbn [Zdigits2]. fold (digits p1).
  assert (Hd1 : 53 <= digits p1 <= 54).
  { split.
    - pose proof (digits_bounds p1) as [_ Hp]. fold (digits p1) in Hp.
      destruct (Z.le_gt_cases 53 (digits p1)) as [|Hlt]; [done|].
      assert (2 ^ digits p1 <= 2 ^ 52) by (apply Z.pow_le_mono_r; lia). lia.
    - unfold digits. apply digits_le. change (2 ^ 54) with (2 * 2 ^ 53). lia. }
  rewrite fexp_normal by lia.
  pose proof (shr_spec (shr_record_of_loc (Zpos p1) loc_Exact) e'
                (digits p1 + e' - 53 - e')) as [Hq2 He''];
    [rewrite shr_record_of_loc_m; lia|].
  destruct (shr (shr_record_of_loc (Zpos p1) loc_Exact) e'
              (digits p1 + e' - 53 - e')) as [mrs'' e''].
  cbn [fst snd] in Hq2, He''. rewrite shr_record_of_loc_m in Hq2.
  destruct (Z.eq_dec (digits p1) 53) as [H53|H54].
  - replace (Z.max 0 (digits p1 + e' - 53 - e')) with 0 in Hq2, He'' by lia.
    rewrite Z.pow_0_r, Z.div_1_r in Hq2. rewrite Hq2.
    replace e'' with (ex + s1) by lia.
    destruct (Z.leb_spec (ex + s1) (emax - prec)); [|unfold emax, prec in *; lia].
    cbn [int_of_float cond_Zopp]. f_equal.
    destruct (ex + s1) as [|e|e] eqn:Hex; try lia.
    rewrite Z.shiftr_div_pow2 by lia. done.
  - replace (Z.max 0 (digits p1 + e' - 53 - e')) with 1 in Hq2, He'' by lia.
    assert (Hp53 : Zpos p1 = 2 ^ 53).
    { pose proof (digits_bounds p1) as [Hp _]. fold (digits p1) in Hp.
      replace (digits p1 - 1) with 53 in Hp by lia. lia. }
    rewrite Hp53 in Hq2. change (2 ^ 53 / 2 ^ 1) with (Zpos (2 ^ 52)) in Hq2.
    rewrite Hq2, Hp53.
    destruct (Z.leb_spec e'' (emax - prec)); [|unfold emax, prec in *; lia].
    cbn [int_of_float cond_Zopp]. f_equal.
    assert (Hpow : 2 ^ (- (ex + s1)) = 2 * 2 ^ (- e''))
      by (rewrite <- Z.pow_succ_r by lia; f_equal; lia).
    rewrite Hpow. change (2 ^ 53) with (2 * Zpos (2 ^ 52)).
    rewrite Z.div_mul_cancel_l by (try apply Z.pow_nonzero; lia).
    destruct e'' as [|e|e] eqn:He2; try lia.
    + simpl. by rewrite Z.div_1_r.
    + rewrite Z.shiftr_div_pow2 by lia. done.
Qed.

Lemma digits_mul_upper a b : digits (a * b) <= digits a + digits b.
Proof.
  pose proof (digits_bounds a) as [_ Ha]. pose proof (digits_bounds b) as [_ Hb].
  fold (digits a) in Ha. fold (digits b) in Hb.
  unfold digits at 1. apply digits_le.
  rewrite Z.pow_add_r by (unfold digits; lia). rewrite Pos2Z.inj_mul. nia.
Qed.

Lemma shl_align_ge m e e' : e <= e' -> shl_align m e e' = (m, e).
Proof.
  intros He. unfold shl_align. destruct (e' - e) as [|d|d] eqn:Hd; (done || lia).
Qed.

(** [float(b)] is finite for every positive [b] below [2^1000]. *)
Lemma float_of_int_bounded b :
  Zpos b < 2 ^ 1000 ->
  float_of_int (Zpos b) = Ok (S754_zero false) \/
  exists m e,
    float_of_int (Zpos b) = Ok (S754_finite false m e) /\
    digits m <= 53 /\ e <= 948.
Proof.
  intros Hb. destruct (Z.le_gt_cases (digits b) 53) as [Hle|Hgt].
  - right. assert (Hb53 : Zpos b < 2 ^ 53).
    { pose proof (digits_bounds b) as [_ Hhi]. fold (digits b) in Hhi.
      assert (2 ^ digits b <= 2 ^ 53) by (apply Z.pow_le_mono_r; lia). lia. }
    exists (exact_mantissa b), (digits b - 53).
    split; [by apply float_of_int_exact|].
    rewrite exact_mantissa_digits by done. lia.
  - assert (Hd : digits b <= 1000) by (by apply digits_le).
    unfold float_of_int, binary_normalize, binary_round.
    rewrite Z.add_0_r. fold (digits b).
    rewrite fexp_normal, shl_align_ge by lia.
    destruct (binary_round_aux_finite false b 0 loc_Exact)
      as [->|(m & e & -> & Hm & He)]; [lia|by left|].
    right. exists m, e. split; [done|]. split; [done|]. lia.
Qed.

(** [int(b * x)] returns for every positive bet below [2^1000] and every
    double [x] between 1 and 32 with a full mantissa. *)
Lemma payout_succeeds b x :
  0 < b < 2 ^ 1000 -> small_double x = true ->
  exists winnings, payout b x = Ok winnings /\ 0 <= winnings.
Proof.
  intros [Hb0 Hb] Hx. destruct b as [|b|b]; try lia.
  destruct x as [| | |[] mx ex]; try done. unfold small_double in Hx.
  apply andb_prop in Hx as [[Hdx Hlo]%andb_prop Hhi].
  apply Z.eqb_eq in Hdx. apply Z.leb_le in Hlo, Hhi.
  unfold payout, int_mul_float.
  destruct (float_of_int_bounded b Hb) as [->|(m & e & -> & Hm & He)];
    unfold mbind, result_bind.
  - exists 0. done.
  - unfold fmul, SFmul. cbn [xorb].
    pose proof (digits_mul_upper m mx) as Hmul.
    destruct (binary_round_aux_finite false (m * mx) (e + ex) loc_Exact)
      as [->|(m' & e' & -> & _ & _)]; [lia|by exists 0|].
    eexists. split; [done|]. cbn [cond_Zopp].
    destruct e' as [|p|p]; [lia|lia|]. apply Z.shiftr_nonneg. lia.
Qed.

(** ** The stored multipliers *)

Lemma one_exact_double : one = exact_double 1.
Proof. reflexivity. Qed.

Lemma multiplier_at_small m k :
  1 <= m <= 24 -> 0 <= k <= 25 - m -> small_double (multiplier_at m k) = true.
Proof.
  apply (grid_forall_spec (fun m k => small_double (multiplier_at m k))).
  vm_compute. reflexivity.
Qed.

(** With every safe tile revealed the multiplier is the double [1 + m]. *)
Lemma multiplier_at_full m :
  1 <= m <= 24 -> float_of_int (1 + m) = Ok (multiplier_at m (25 - m)).
Proof.
  intros Hm.
  assert (H : grid_forall
                (fun m k =>
                   match float_of_int (1 + m) with
                   | Ok x => bool_decide (x = multiplier_at m (25 - m))
                   | Raise _ => false
                   end)
              = true) by (vm_compute; reflexivity).
  pose proof (grid_forall_spec _ H m 0 Hm ltac:(lia)) as Hok. simpl in Hok.
  destruct (float_of_int (1 + m)) as [x|]; [|done].
  by apply bool_decide_eq_true in Hok as ->.
Qed.

(** The multiplier never decreases with the number of revealed tiles. *)
Lemma multiplier_at_monotone m k k' :
  1 <= m <= 24 -> 0 <= k <= k' -> k' <= 25 - m ->
  fleb (multiplier_at m k) (multiplier_at m k') = true.
Proof.
  intros Hm Hk Hk'.
  assert (H : grid_forall
                (fun m k => forallb
                   (fun k' => fleb (multiplier_at m k) (multiplier_at m k'))
                   (seqZ k (26 - m - k)))
              = true) by (vm_compute; reflexivity).
  pose proof (grid_forall_spec _ H m k Hm ltac:(lia)) as Hok. simpl in Hok.
  rewrite forallb_forall in Hok. apply Hok.
  apply list_elem_of_In, elem_of_seqZ. lia.
Qed.

(** ** The payout against the exact formula *)

Lemma spec_winnings_div b m k :
  1 <= m <= 24 ->
  spec_winnings b m k = (b * ((25 - m) + k * m)) `div` (25 - m).
Proof.
  intros Hm. unfold spec_winnings, spec_multiplier.
  assert (Hs : exists s, 25 - m = Zpos s).
  { destruct (25 - m) as [|s|s] eqn:Hs; try lia. by exists s. }
  destruct Hs as [s Hs]. rewrite Hs.
  rewrite (Qfloor_comp _ ((b * (Zpos s + k * m)) # s)).
  - reflexivity.
  - unfold Qeq, Qmult, Qplus, Qdiv, Qinv, inject_Z. simpl. lia.
Qed.

Lemma drift_arith (b mM s K q m1 D V F r : Z) :
  0 < b < 2 ^ 40 -> 1 <= s <= 24 -> 0 < V -> 2 ^ 8 <= D ->
  q * V <= b * mM * D < (q + 1) * V ->
  q <= m1 <= q + 1 ->
  - (s * V) <= 2 ^ 48 * (mM * s - K * V) <= s * V ->
  b * K = F * s + r -> 0 <= r < s ->
  (F - 1) * D <= m1 < (F + 1) * D.
Proof.
  intros Hb Hs HV HD [H1 H2] Hm1 [T1 T2] HN Hr.
  change (2 ^ 40) with 1099511627776 in Hb.
  change (2 ^ 8) with 256 in HD.
  change (2 ^ 48) with 281474976710656 in T1, T2.
  set (X := b * mM) in *.
  assert (B1 : - (b * s * V) <= 281474976710656 * (X * s - (F * s + r) * V)).
  { rewrite <- HN. unfold X. nia. }
  assert (B2 : 281474976710656 * (X * s - (F * s + r) * V) <= b * s * V).
  { rewrite <- HN. unfold X. nia. }
  clearbody X. clear T1 T2 HN.
  split.
  - destruct (Z.le_gt_cases ((F - 1) * D) m1) as [|Hlt]; [done|exfalso].
    assert (C1 : (q + 1) * V <= (F - 1) * D * V) by nia.
    assert (C2 : X * D < (F - 1) * D * V) by lia.
    assert (C3 : X < (F - 1) * V) by nia.
    assert (C4 : 281474976710656 * (X * s) < 281474976710656 * ((F - 1) * V * s))
      by nia.
    assert (C5 : 281474976710656 * ((r + s) * V) < b * s * V) by nia.
    assert (C6 : 281474976710656 * (r + s) < b * s) by nia.
    nia.
  - destruct (Z.lt_ge_cases m1 ((F + 1) * D)) as [|Hge]; [done|exfalso].
    assert (C1 : ((F + 1) * D - 1) * V <= q * V) by nia.
    assert (C2 : ((F + 1) * D - 1) * V <= X * D) by lia.
    assert (C3 : 281474976710656 * s * (((F + 1) * D - 1) * V)
                 <= 281474976710656 * s * (X * D)) by nia.
    assert (C4 : 281474976710656 * (X * s) * D
                 <= (281474976710656 * (F * s + r) * V + b * s * V) * D) by nia.
    assert (C5 : 281474976710656 * s * ((F + 1) * D - 1) * V
                 <= (281474976710656 * (F * s + r) + b * s) * D * V) by nia.
    assert (C6 : 281474976710656 * s * ((F + 1) * D - 1)
                 <= (281474976710656 * (F * s + r) + b * s) * D) by nia.
    assert (C7 : 281474976710656 * (s - r) * D
                 <= 281474976710656 * s + b * s * D) by nia.
    assert (C8 : 281474976710656 * D <= 281474976710656 * s + b * s * D) by nia.
    assert (C9 : b * s * D <= 1099511627776 * 24 * D) by nia.
    nia.
Qed.

Lemma multiplier_at_close m k :
  1 <= m <= 24 -> 0 <= k <= 25 - m -> multiplier_close m k = true.
Proof.
  apply (grid_forall_spec multiplier_close). vm_compute. reflexivity.
Qed.

(** For a bet below [2^40] the payout is the exact floor of the
    specification or one unit less. *)
Lemma payout_close b m k :
  1 <= m <= 24 -> 0 <= k <= 25 - m -> 0 < b < 2 ^ 40 ->
  exists winnings,
    payout b (multiplier_at m k) = Ok winnings /\
    spec_winnings b m k - 1 <= winnings <= spec_winnings b m k.
Proof.
  intros Hm Hk [Hb0 Hb]. destruct b as [|b|b]; try lia.
  pose proof (multiplier_at_small m k Hm Hk) as Hsmall.
  pose proof (multiplier_at_close m k Hm Hk) as Hclose.
  unfold multiplier_close in Hclose.
  destruct (multiplier_at m k) as [| | |[] mM eM]; try done.
  unfold small_double in Hsmall.
  apply andb_prop in Hsmall as [[HdM Hlo]%andb_prop Hhi].
  apply Z.eqb_eq in HdM. apply Z.leb_le in Hlo, Hhi, Hclose.
  assert (Hb53 : Zpos b < 2 ^ 53).
  { assert (2 ^ 40 <= 2 ^ 53) by (apply Z.pow_le_mono_r; lia). lia. }
  assert (Hdb : 1 <= digits b <= 40).
  { unfold digits. split; [lia|]. by apply digits_le. }
  unfold payout, int_mul_float. rewrite float_of_int_exact by done.
  unfold mbind, result_bind, exact_double, fmul, SFmul. cbn [xorb].
  pose proof (exact_mantissa_value b Hb53) as Hmb.
  pose proof (exact_mantissa_digits b Hb53) as Hdmb.
  pose proof (digits_mul_lower (exact_mantissa b) mM) as Hdl.
  pose proof (digits_mul_upper (exact_mantissa b) mM) as Hdu.
  set (mx := (exact_mantissa b * mM)%positive) in *.
  destruct (binary_round_aux_trunc mx (digits b - 53 + eM))
    as (m1 & Hm1 & ->); [lia|lia|].
  eexists. split; [done|].
  rewrite spec_winnings_div by done.
  set (s1 := digits mx - 53) in *.
  set (t := - (digits b - 53 + eM + s1)).
  set (s := 25 - m) in *.
  set (K := s + k * m) in *.
  assert (HU : 0 < 2 ^ (53 - digits b)) by (apply Z.pow_pos_nonneg; lia).
  assert (HW : 0 < 2 ^ s1) by (apply Z.pow_pos_nonneg; lia).
  assert (HV : 0 < 2 ^ (- eM)) by (apply Z.pow_pos_nonneg; lia).
  assert (HD : 2 ^ 8 <= 2 ^ t) by (apply Z.pow_le_mono_r; lia).
  assert (HUV : 2 ^ (53 - digits b) * 2 ^ (- eM) = 2 ^ t * 2 ^ s1).
  { rewrite <- !Z.pow_add_r by lia. f_equal. lia. }
  assert (Hmx : Zpos mx = Zpos b * 2 ^ (53 - digits b) * Zpos mM).
  { unfold mx. rewrite Pos2Z.inj_mul, Hmb. done. }
  set (q := Zpos mx / 2 ^ s1) in *.
  assert (Hq : q * 2 ^ s1 <= Zpos mx < (q + 1) * 2 ^ s1).
  { unfold q. pose proof (Z.mul_div_le (Zpos mx) (2 ^ s1) HW).
    pose proof (Z.mul_succ_div_gt (Zpos mx) (2 ^ s1) HW). lia. }
  assert (Hstar : q * 2 ^ (- eM) <= Zpos b * Zpos mM * 2 ^ t
                  < (q + 1) * 2 ^ (- eM)).
  { rewrite Hmx in Hq.
    assert (E : Zpos b * 2 ^ (53 - digits b) * Zpos mM * 2 ^ (- eM)
                = Zpos b * Zpos mM * 2 ^ t * 2 ^ s1).
    { rewrite <- !Z.mul_assoc, <- HUV. lia. }
    split.
    - apply (Z.mul_le_mono_pos_r _ _ (2 ^ s1)); [done|]. rewrite <- E. nia.
    - apply (Z.mul_lt_mono_pos_r (2 ^ s1)); [done|]. rewrite <- E. nia. }
  pose proof (Z.div_mod (Zpos b * K) s ltac:(lia)) as Hdiv.
  pose proof (Z.mod_pos_bound (Zpos b * K) s ltac:(lia)) as Hmod.
  destruct (drift_arith (Zpos b) (Zpos mM) s K q m1 (2 ^ t) (2 ^ (- eM))
              (Zpos b * K / s) ((Zpos b * K) `mod` s)) as [Hl Hu];
    try done; try lia.
  assert (HDpos : 0 < 2 ^ t) by lia.
  split.
  - apply Z.div_le_lower_bound; lia.
  - assert (m1 / 2 ^ t < Zpos b * K / s + 1); [|lia].
    apply Z.div_lt_upper_bound; lia.
Qed.

(** ** Requests that keep the round *)

Lemma round_extends_refl gs : round_extends gs gs.
Proof. by repeat split. Qed.

Lemma round_extends_trans gs1 gs2 gs3 :
  round_extends gs1 gs2 -> round_extends gs2 gs3 -> round_extends gs1 gs3.
Proof.
  intros (H1 & H2 & H3 & H4) (H1' & H2' & H3' & H4').
  repeat split; try congruence. by etrans.
Qed.

Lemma handle_extends uid r w resp w' gs :
  wf_world uid w -> keeps_round r = true ->
  handle uid r w = Ok (resp, w') -> session w = Some gs ->
  exists gs', session w' = Some gs' /\ round_extends gs gs'.
Proof.
  intros [[u Hu] Hgs] Hr Hstep Hs. specialize (Hgs gs Hs).
  destruct r as [amount|draws b m|p|]; [|done| |]; simpl in Hstep.
  - rewrite (update_balance_logged_in _ _ _ Hu) in Hstep.
    injection Hstep as <- <-. exists gs. split; [done|apply round_extends_refl].
  - destruct (decide (in_grid p)) as [Hp|Hp];
      [|rewrite (reveal_tile_invalid _ _ _ Hu _ Hp) in Hstep;
        injection Hstep as <- <-; exists gs;
        split; [done|apply round_extends_refl]].
    destruct (active gs) eqn:Hact;
      [|rewrite (reveal_tile_no_round _ _ _ Hu _ Hp) in Hstep
          by (unfold round_is_active; by rewrite Hs);
        injection Hstep as <- <-; exists gs;
        split; [done|apply round_extends_refl]].
    destruct (decide (p ∈ revealed_positions gs)) as [Hrev|Hrev];
      [rewrite (reveal_tile_already _ _ _ Hu _ _ Hp Hs Hact Hrev) in Hstep;
       injection Hstep as <- <-; exists gs;
       split; [done|apply round_extends_refl]|].
    destruct (decide (p ∈ mines_positions gs)) as [Hmine|Hmine].
    + rewrite (reveal_tile_mine _ _ _ Hu _ _ Hp Hs Hact Hrev Hmine) in Hstep.
      injection Hstep as <- <-. eexists. split; [done|]. by repeat split.
    + rewrite (reveal_tile_safe _ _ _ Hu _ _ Hp Hs Hgs Hact Hrev Hmine) in Hstep.
      destruct (revealed_count gs + 1 =? safe_tiles gs);
        destruct (payout _ _) as [x|]; try done; simpl in Hstep;
        injection Hstep as <- <-; (eexists; split; [done|]);
        repeat split; simpl; by apply prefix_app_r.
  - destruct (active gs) eqn:Hact;
      [|rewrite (cashout_no_round _ _ _ Hu) in Hstep
          by (unfold round_is_active; by rewrite Hs);
        injection Hstep as <- <-; exists gs;
        split; [done|apply round_extends_refl]].
    rewrite (cashout_active _ _ _ Hu gs Hs Hact) in Hstep.
    destruct (payout _ _) as [x|]; [|done]. simpl in Hstep.
    injection Hstep as <- <-. eexists. split; [done|]. by repeat split.
Qed.

Lemma run_extends uid rs : forall w resps w' gs,
  wf_world uid w -> forallb keeps_round rs = true ->
  run uid rs w = Ok (resps, w') -> session w = Some gs ->
  exists gs', session w' = Some gs' /\ round_extends gs gs'.
Proof.
  induction rs as [|r rs IH]; intros w resps w' gs Hwf Hrs; simpl.
  - intros [= _ <-] Hs. exists gs. split; [done|apply round_extends_refl].
  - simpl in Hrs. apply andb_prop in Hrs as [Hr Hrs].
    destruct (handle uid r w) as [[resp w1]|] eqn:Hstep; [|done]. simpl.
    destruct (run uid rs w1) as [[resps' w2]|] eqn:Hrun; [|done]. simpl.
    intros [= _ <-] Hs.
    destruct (handle_extends _ _ _ _ _ _ Hwf Hr Hstep Hs) as (gs1 & Hs1 & He1).
    destruct (IH w1 resps' w2 gs1) as (gs2 & Hs2 & He2); try done.
    { by eapply handle_wf. }
    exists gs2. split; [done|]. by eapply round_extends_trans.
Qed.

Lemma wf_count_le gs : wf_game gs -> 0 <= revealed_count gs <= safe_tiles gs.
Proof.
  intros [Hm Hlen Hnd Hgrid Hrnd Hrgrid Hsafe _ _ _].
  pose proof (disjoint_grid_length _ _ Hrnd Hnd Hrgrid Hgrid Hsafe).
  unfold revealed_count, safe_tiles. lia.
Qed.

(** ** update_balance *)

(** C2: for a logged-in user and every integer [amount], [update_balance]
    adds [amount] to that user's balance and reports success, whatever the
    session holds and without touching it or any other user; hence every
    integer target balance, above or below the current one and also
    negative, is one request away. *)
Theorem update_balance_unconditional (amount : Z) (uid : string) (w : world)
    (u : user_data) :
  users w !! uid = Some u ->
  (exists w',
     update_balance amount uid w = Ok (BalanceUpdated (balance u + amount), w') /\
     balance_of uid w' = Some (balance u + amount) /\
     session w' = session w /\
     (forall uid', uid' <> uid -> users w' !! uid' = users w !! uid')) /\
  (forall target : Z, exists a w',
     update_balance a uid w = Ok (BalanceUpdated target, w') /\
     balance_of uid w' = Some target).
Proof.
  intros Hu. split.
  - eexists. rewrite (update_balance_logged_in _ _ _ Hu). split; [done|].
    split; [apply balance_of_add|]. split; [done|].
    intros uid' Hne. simpl. by apply insert_other_user.
  - intros target. exists (target - balance u). eexists.
    rewrite (update_balance_logged_in _ _ _ Hu).
    replace (balance u + (target - balance u)) with target by lia.
    split; [done|]. unfold balance_of. simpl. by rewrite lookup_insert_eq.
Qed.

Lemma update_balance_unconditional_witness :
  (exists w',
     update_balance (-5000) demo_uid demo_world
       = Ok (BalanceUpdated (balance demo_user + -5000), w') /\
     balance_of demo_uid w' = Some (balance demo_user + -5000) /\
     session w' = session demo_world /\
     (forall uid', uid' <> demo_uid ->
        users w' !! uid' = users demo_world !! uid')) /\
  (forall target : Z, exists a w',
     update_balance a demo_uid demo_world = Ok (BalanceUpdated target, w') /\
     balance_of demo_uid w' = Some target).
Proof.
  apply (update_balance_unconditional (-5000) demo_uid demo_world demo_user).
  reflexivity.
Defined.

(** ** start_mines_game *)

Lemma one_is_float_of_int_1 : float_of_int 1 = Ok one.
Proof. reflexivity. Qed.

(** C5: for [mines_count] in [1..24], a positive [bet_amount] and a balance
    of at least [bet_amount], [start_mines_game] succeeds; the stored round
    has exactly [mines_count] distinct mine positions, all in [0, 25), no
    revealed position, multiplier [1.0], is active, and the balance of the
    user is lowered by exactly [bet_amount] (no other user is touched). *)
Theorem start_creates_round (draws : nat -> nat) (b m : Z) (uid : string)
    (w : world) (u : user_data) :
  users w !! uid = Some u ->
  1 <= m <= 24 -> 0 < b -> b <= balance u ->
  exists gs w',
    start_mines_game draws b m uid w = Ok (GameStarted (balance u - b), w') /\
    session w' = Some gs /\
    Z.of_nat (length (mines_positions gs)) = m /\
    NoDup (mines_positions gs) /\
    Forall in_grid (mines_positions gs) /\
    revealed_positions gs = [] /\
    multiplier gs = one /\
    status_of gs = Active /\
    bet_amount gs = b /\ mines_count gs = m /\
    balance_of uid w' = Some (balance u - b) /\
    (forall uid', uid' <> uid -> users w' !! uid' = users w !! uid').
Proof.
  intros Hu Hm Hb Hbal.
  destruct (start_mines_game_accepts draws b m uid w u)
    as (mines & Hs & Hstart); try done.
  destruct (random_sample_grid draws m) as (mines' & Hs' & Hl & Hnd & Hg);
    [lia|].
  rewrite Hs in Hs'. injection Hs' as <-.
  eexists _, _. split; [exact Hstart|]. simpl.
  repeat (split; [done|]). split.
  - unfold balance_of. simpl. by rewrite lookup_insert_eq.
  - intros uid' Hne. by apply insert_other_user.
Qed.

Lemma start_creates_round_witness :
  exists gs w',
    start_mines_game demo_draws 100 3 demo_uid demo_world
      = Ok (GameStarted 900, w') /\
    session w' = Some gs /\
    mines_positions gs = [0; 2; 4] /\
    balance_of demo_uid w' = Some 900.
Proof.
  destruct (start_creates_round demo_draws 100 3 demo_uid demo_world demo_user)
    as (gs & w' & Hstart & Hs & _ & _ & _ & _ & _ & _ & _ & _ & Hbal & _).
  - reflexivity.
  - lia.
  - lia.
  - simpl. lia.
  - exists gs, w'. split; [exact Hstart|]. split; [exact Hs|].
    split; [|exact Hbal].
    assert (Hrun : start_mines_game demo_draws 100 3 demo_uid demo_world
                   = Ok (GameStarted 900,
                         world_after [Start demo_draws 100 3] demo_world))
      by (vm_compute; reflexivity).
    rewrite Hrun in Hstart. injection Hstart as <-.
    vm_compute in Hs. by injection Hs as <-.
Defined.

(** C1, as the handler has it: [start_mines_game] never reads the stored
    round. Also while an active round is stored, a request with
    [mines_count] in [1..24], a positive bet and enough balance is
    accepted: it stores a fresh active round in place of the old one and
    lowers the balance by the new bet. *)
Theorem start_over_active_round (draws : nat -> nat) (b m : Z) (uid : string)
    (w : world) (u : user_data) (old : game_state) :
  users w !! uid = Some u ->
  session w = Some old -> active old = true ->
  1 <= m <= 24 -> 0 < b -> b <= balance u ->
  exists mines w',
    start_mines_game draws b m uid w = Ok (GameStarted (balance u - b), w') /\
    session w' = Some {| mines_positions := mines; bet_amount := b;
                         mines_count := m; revealed_positions := [];
                         active := true; won := false; multiplier := one |} /\
    random_sample draws (range grid_size) m = Ok mines /\
    balance_of uid w' = Some (balance u - b).
Proof.
  intros Hu _ _ Hm Hb Hbal.
  destruct (start_mines_game_accepts draws b m uid w u)
    as (mines & Hs & Hstart); try done.
  eexists _, _. split; [exact Hstart|]. simpl.
  split; [done|]. split; [done|].
  unfold balance_of. simpl. by rewrite lookup_insert_eq.
Qed.

Lemma start_over_active_round_witness :
  exists mines w',
    start_mines_game demo_draws 10 5 demo_uid
      (world_after [Start demo_draws 100 3; Reveal 1] demo_world)
    = Ok (GameStarted 890, w') /\
    session w' = Some {| mines_positions := mines; bet_amount := 10;
                         mines_count := 5; revealed_positions := [];
                         active := true; won := false; multiplier := one |} /\
    random_sample demo_draws (range grid_size) 5 = Ok mines /\
    balance_of demo_uid w' = Some 890.
Proof.
  eapply (start_over_active_round demo_draws 10 5 demo_uid
            (world_after [Start demo_draws 100 3; Reveal 1] demo_world)
            (set_balance 900 demo_user)).
  - reflexivity.
  - vm_compute. reflexivity.
  - reflexivity.
  - lia.
  - lia.
  - simpl. lia.
Defined.

(** C1 fails as stated: the demo user starts a round with a bet of 100
    (balance 1000 to 900); while that round is active a second start with
    a bet of 10 is accepted, replaces the stored round and takes the
    balance to 890. *)
Lemma start_not_blocked_by_active_round :
  let w1 := world_after [Start demo_draws 100 3] demo_world in
  let w2 := world_after [Start demo_draws 10 5] w1 in
  reachable demo_uid w1 /\
  round_is_active w1 = true /\
  balance_of demo_uid w1 = Some 900 /\
  handle demo_uid (Start demo_draws 10 5) w1 = Ok (GameStarted 890, w2) /\
  session w2 <> session w1 /\
  (mines_positions <$> session w2) = Some [0; 2; 4; 6; 8] /\
  balance_of demo_uid w2 = Some 890.
Proof.
  split; [apply world_after_reachable, demo_world_reachable|].
  split; [by vm_compute|]. split; [by vm_compute|].
  split; [by vm_compute|]. split; [by vm_compute|].
  split; by vm_compute.
Qed.

(** C6, as the handler has it: for a logged-in user [start_mines_game]
    always answers; the checks run in the order mines count, bet, balance
    and the first failing one names the rejection. It rejects with
    [InvalidMinesCount] exactly when [mines_count] is outside [1..24], with
    [InvalidBet] exactly when [mines_count] is valid and [bet_amount <= 0],
    with [InsufficientBalance] exactly when both are valid and the balance
    is below the bet; a rejection changes neither the stored round nor the
    users table. *)
Theorem start_rejections (draws : nat -> nat) (b m : Z) (uid : string)
    (w : world) (u : user_data) :
  users w !! uid = Some u ->
  exists resp w',
    start_mines_game draws b m uid w = Ok (resp, w') /\
    (resp = JsonError InvalidMinesCount <-> ~ (1 <= m <= 24)) /\
    (resp = JsonError InvalidBet <-> 1 <= m <= 24 /\ b <= 0) /\
    (resp = JsonError InsufficientBalance <->
       1 <= m <= 24 /\ 0 < b /\ balance u < b) /\
    (forall msg, resp = JsonError msg -> w' = w).
Proof.
  intros Hu.
  destruct (decide (1 <= m <= 24 /\ 0 < b /\ b <= balance u))
    as [(Hm & Hb & Hbal)|Hbad].
  - destruct (start_mines_game_accepts draws b m uid w u)
      as (mines & _ & Hstart); try done.
    eexists _, _. split; [exact Hstart|].
    repeat split; try done; intros; lia.
  - eexists _, _. split; [by apply (start_mines_game_rejects _ _ _ _ _ u)|].
    unfold start_rejection.
    destruct (Z.ltb_spec m 1); simpl;
      [repeat split; try done; intros; lia|].
    destruct (Z.gtb_spec m 24); simpl;
      [repeat split; try done; intros; lia|].
    destruct (Z.leb_spec b 0); repeat split; try done; intros; lia.
Qed.

Lemma start_rejections_witness :
  exists resp w',
    start_mines_game demo_draws 2000 3 demo_uid demo_world = Ok (resp, w') /\
    (resp = JsonError InvalidMinesCount <-> ~ (1 <= 3 <= 24)) /\
    (resp = JsonError InvalidBet <-> 1 <= 3 <= 24 /\ 2000 <= 0) /\
    (resp = JsonError InsufficientBalance <->
       1 <= 3 <= 24 /\ 0 < 2000 /\ balance demo_user < 2000) /\
    (forall msg, resp = JsonError msg -> w' = demo_world).
Proof.
  apply (start_rejections demo_draws 2000 3 demo_uid demo_world demo_user).
  reflexivity.
Defined.

(** C6 fails as stated: with [mines_count = 0] and [bet_amount = 0] the bet
    is not positive, yet the rejection is [InvalidMinesCount] and not
    [InvalidBet]; after the balance is taken to -10, a start with
    [mines_count = 3] and [bet_amount = -5] finds the balance below the
    bet, yet the rejection is [InvalidBet] and not [InsufficientBalance]. *)
Lemma start_rejection_order :
  (0 <= 0 /\
   start_mines_game demo_draws 0 0 demo_uid demo_world
     = Ok (JsonError InvalidMinesCount, demo_world) /\
   JsonError InvalidMinesCount <> JsonError InvalidBet) /\
  (-10 < -5 /\
   responses [UpdateBalance (-1010); Start demo_draws (-5) 3] demo_world
     = Some [BalanceUpdated (-10); JsonError InvalidBet] /\
   JsonError InvalidBet <> JsonError InsufficientBalance).
Proof.
  split.
  - split; [lia|]. split; [by vm_compute|]. discriminate.
  - split; [lia|]. split; [by vm_compute|]. discriminate.
Qed.

(** ** reveal_tile *)

(** C7: on an active round, revealing a position that is already in
    [revealed_positions] is rejected with [AlreadyRevealed]; the world after
    the request is the world before it, so the round (flags, revealed
    positions, multiplier) and every balance are unchanged. *)
Theorem reveal_already_revealed (uid : string) (w : world) (gs : game_state)
    (p : Z) :
  reachable uid w -> session w = Some gs -> active gs = true ->
  p ∈ revealed_positions gs ->
  reveal_tile p uid w = Ok (JsonError AlreadyRevealed, w).
Proof.
  intros Hreach Hs Ha Hin.
  destruct (reachable_round _ _ _ Hreach Hs) as [[u Hu] Hwf].
  apply (reveal_tile_already _ _ _ Hu _ gs); try done.
  pose proof (wf_revealed_grid _ Hwf) as Hgrid.
  by eapply Forall_forall in Hgrid.
Qed.

Lemma reveal_already_revealed_witness :
  let w := world_after [Start demo_draws 100 3; Reveal 1; Reveal 3] demo_world in
  reveal_tile 3 demo_uid w = Ok (JsonError AlreadyRevealed, w).
Proof.
  eapply (reveal_already_revealed demo_uid
            (world_after [Start demo_draws 100 3; Reveal 1; Reveal 3] demo_world)
            _ 3).
  - apply world_after_reachable, demo_world_reachable.
  - vm_compute. reflexivity.
  - reflexivity.
  - simpl. apply list_elem_of_further, list_elem_of_here.
Defined.

(** C4, as the handler has it: on an active round, revealing a mine
    position stores the round with [active] and [won] both false (Lost) and
    leaves the users table as it was. The round is then finished for good:
    every later reveal of a position in [0, 25) and every later cashout is
    rejected with [NoActiveRound], a reveal of a position outside the grid
    is rejected with [InvalidPosition] (that check comes first), and no
    sequence of such requests changes the world. *)
Theorem reveal_mine_ends_round (uid : string) (w : world) (gs : game_state)
    (p : Z) :
  reachable uid w -> session w = Some gs -> active gs = true ->
  p ∈ mines_positions gs ->
  let gs' := set_active_won false false gs in
  let w' := set_session gs' w in
  reveal_tile p uid w = Ok (MineHit (mines_positions gs), w') /\
  status_of gs' = Lost /\
  users w' = users w /\
  (forall q, in_grid q ->
     reveal_tile q uid w' = Ok (JsonError NoActiveRound, w')) /\
  (forall q, ~ in_grid q ->
     reveal_tile q uid w' = Ok (JsonError InvalidPosition, w')) /\
  cashout uid w' = Ok (JsonError NoActiveRound, w') /\
  (forall rs, forallb is_play rs = true ->
     run uid rs w' = Ok (JsonError ∘ finished_rejection <$> rs, w')).
Proof.
  intros Hreach Hs Ha Hmine gs' w'.
  destruct (reachable_round _ _ _ Hreach Hs) as [[u Hu] Hwf].
  assert (Hp : in_grid p).
  { pose proof (wf_mines_grid _ Hwf) as Hgrid.
    by eapply Forall_forall in Hgrid. }
  assert (Hrev : p ∉ revealed_positions gs).
  { intros Hin. pose proof (wf_revealed_safe _ Hwf) as Hsafe.
    by eapply Forall_forall in Hsafe. }
  assert (Hu' : users w' !! uid = Some u) by done.
  assert (Hfin : round_is_active w' = false) by done.
  split; [by apply (reveal_tile_mine _ _ _ Hu)|].
  split; [done|]. split; [done|].
  split; [intros q Hq; by apply (reveal_tile_no_round _ _ _ Hu')|].
  split; [intros q Hq; by apply (reveal_tile_invalid _ _ _ Hu')|].
  split; [by apply (cashout_no_round _ _ _ Hu')|].
  intros rs Hrs. by apply (run_finished _ _ u).
Qed.

Lemma reveal_mine_ends_round_witness :
  let w := world_after [Start demo_draws 100 3; Reveal 1] demo_world in
  let w' := world_after [Reveal 2] w in
  reveal_tile 2 demo_uid w = Ok (MineHit [0; 2; 4], w') /\
  balance_of demo_uid w' = Some 900 /\
  reveal_tile 7 demo_uid w' = Ok (JsonError NoActiveRound, w') /\
  cashout demo_uid w' = Ok (JsonError NoActiveRound, w').
Proof.
  destruct (reveal_mine_ends_round demo_uid
              (world_after [Start demo_draws 100 3; Reveal 1] demo_world)
              {| mines_positions := [0; 2; 4]; bet_amount := 100;
                 mines_count := 3; revealed_positions := [1];
                 active := true; won := false;
                 multiplier := multiplier_at 3 1 |} 2)
    as (Hhit & _ & _ & Hreveal & _ & Hcash & _).
  - apply world_after_reachable, demo_world_reachable.
  - vm_compute. reflexivity.
  - reflexivity.
  - simpl. apply list_elem_of_further, list_elem_of_here.
  - split; [exact Hhit|]. split; [by vm_compute|].
    split; [apply Hreveal; unfold in_grid; lia|exact Hcash].
Defined.

(** C4 fails as stated: after the demo user hits the mine at position 0 the
    round is Lost, and a later reveal of position 25 is rejected with
    [InvalidPosition], not with [NoActiveRound]. *)
Lemma reveal_after_loss_invalid_position :
  let w' := world_after [Start demo_draws 100 3; Reveal 0] demo_world in
  reachable demo_uid w' /\
  (status_of <$> session w') = Some Lost /\
  reveal_tile 25 demo_uid w' = Ok (JsonError InvalidPosition, w') /\
  JsonError InvalidPosition <> JsonError NoActiveRound.
Proof.
  split; [apply world_after_reachable, demo_world_reachable|].
  split; [by vm_compute|]. split; [by vm_compute|]. discriminate.
Qed.

(** ** The multiplier over a round *)

(** C8: in every stored round the multiplier is [1.0] while no position is
    revealed, it is the double [1 + mines_count] once
    [25 - mines_count] positions are revealed, and it never decreases over
    any sequence of requests that keep the round (reveals, cashout, balance
    updates): the multiplier stored afterwards is at least the one stored
    before. *)
Theorem multiplier_profile (uid : string) (w : world) (gs : game_state) :
  reachable uid w -> session w = Some gs ->
  (revealed_positions gs = [] -> multiplier gs = one) /\
  (revealed_count gs = 25 - mines_count gs ->
     float_of_int (1 + mines_count gs) = Ok (multiplier gs)) /\
  (forall rs resps w' gs',
     forallb keeps_round rs = true ->
     run uid rs w = Ok (resps, w') -> session w' = Some gs' ->
     fleb (multiplier gs) (multiplier gs') = true).
Proof.
  intros Hreach Hs.
  destruct (reachable_round _ _ _ Hreach Hs) as [_ Hwf].
  pose proof (wf_mines_count _ Hwf) as Hm.
  pose proof (wf_multiplier _ Hwf) as Hmult.
  split; [|split].
  - intros Hnil. rewrite Hmult. unfold revealed_count. rewrite Hnil.
    by apply multiplier_at_start.
  - intros Hfull. rewrite Hmult, Hfull. by apply multiplier_at_full.
  - intros rs resps w' gs' Hrs Hrun Hs'.
    destruct (run_extends uid rs w resps w' gs) as (gs2 & Hs2 & Hext);
      try done; [by apply reachable_wf|].
    rewrite Hs' in Hs2. injection Hs2 as <-.
    destruct Hext as (_ & Hmc & _ & Hpre).
    assert (Hreach' : reachable uid w') by (by eapply run_reachable).
    destruct (reachable_round _ _ _ Hreach' Hs') as [_ Hwf'].
    pose proof (wf_count_le _ Hwf) as Hk. pose proof (wf_count_le _ Hwf') as Hk'.
    rewrite Hmult, (wf_multiplier _ Hwf'), Hmc.
    apply prefix_length in Hpre. unfold safe_tiles in *. rewrite Hmc in Hk'.
    apply multiplier_at_monotone; [done| |lia].
    unfold revealed_count in *. lia.
Qed.

Lemma multiplier_profile_witness :
  let w := world_after [Start demo_draws 100 3; Reveal 1] demo_world in
  let gs := {| mines_positions := [0; 2; 4]; bet_amount := 100;
               mines_count := 3; revealed_positions := [1];
               active := true; won := false;
               multiplier := multiplier_at 3 1 |} in
  (revealed_positions gs = [] -> multiplier gs = one) /\
  (revealed_count gs = 25 - mines_count gs ->
     float_of_int (1 + mines_count gs) = Ok (multiplier gs)) /\
  (forall rs resps w' gs',
     forallb keeps_round rs = true ->
     run demo_uid rs w = Ok (resps, w') -> session w' = Some gs' ->
     fleb (multiplier gs) (multiplier gs') = true).
Proof.
  apply (multiplier_profile demo_uid
           (world_after [Start demo_draws 100 3; Reveal 1] demo_world)).
  - apply world_after_reachable, demo_world_reachable.
  - vm_compute. reflexivity.
Defined.

(** ** cashout *)

(** C3, as the handler has it: on an active round with a bet below [2^1000]
    [cashout] succeeds. The stored multiplier is the double
    [1 + (k / (25 - m)) * m] for the [k] revealed positions and [m] mines,
    each of the three operations rounded to the nearest double; the
    winnings are [int (bet * multiplier)], the product rounded to a double
    once more before it is truncated. For a bet below [2^40] that is the
    exact [floor (bet * (1 + (k / (25 - m)) * m))] or one unit less. The
    amount is added to the balance of the user, and the round is stored
    with [active = false] and [won = true] (CashedOut). *)
Theorem cashout_pays_double (uid : string) (w : world) (gs : game_state) :
  reachable uid w -> session w = Some gs -> active gs = true ->
  bet_amount gs < 2 ^ 1000 ->
  exists u winnings w',
    users w !! uid = Some u /\
    compute_multiplier (revealed_count gs) (safe_tiles gs) (mines_count gs)
      = Ok (multiplier gs) /\
    payout (bet_amount gs) (multiplier gs) = Ok winnings /\
    0 <= winnings /\
    (bet_amount gs < 2 ^ 40 ->
     spec_winnings (bet_amount gs) (mines_count gs) (revealed_count gs) - 1
       <= winnings
       <= spec_winnings (bet_amount gs) (mines_count gs) (revealed_count gs)) /\
    cashout uid w =
      Ok (CashedOutOk winnings (balance u + winnings) (mines_positions gs), w') /\
    balance_of uid w' = Some (balance u + winnings) /\
    session w' = Some (set_active_won false true gs) /\
    status_of (set_active_won false true gs) = CashedOut.
Proof.
  intros Hreach Hs Ha Hb.
  destruct (reachable_round _ _ _ Hreach Hs) as [[u Hu] Hwf].
  pose proof (wf_mines_count _ Hwf) as Hm.
  pose proof (wf_count_le _ Hwf) as Hk.
  pose proof (wf_active _ Hwf Ha) as Hlt.
  pose proof (wf_bet _ Hwf) as Hb0.
  unfold safe_tiles in *.
  destruct (payout_succeeds (bet_amount gs) (multiplier gs))
    as (winnings & Hpay & Hw0); [lia| |].
  { rewrite (wf_multiplier _ Hwf). apply multiplier_at_small; lia. }
  exists u, winnings. eexists. split; [done|]. split.
  { rewrite (wf_multiplier _ Hwf). apply compute_multiplier_ok; lia. }
  split; [done|]. split; [done|]. split.
  { intros Hb40.
    destruct (payout_close (bet_amount gs) (mines_count gs) (revealed_count gs))
      as (w2 & Hpay2 & Hclose); [done|lia|lia|].
    rewrite <- (wf_multiplier _ Hwf), Hpay in Hpay2. by injection Hpay2 as <-. }
  split.
  { rewrite (cashout_active _ _ _ Hu gs Hs Ha), Hpay. reflexivity. }
  split; [apply balance_of_add|]. split; [done|].
  unfold status_of. simpl. unfold revealed_count, safe_tiles in *. simpl.
  destruct (Z.eqb_spec (Z.of_nat (length (revealed_positions gs)))
              (25 - mines_count gs)); [lia|done].
Qed.

Lemma cashout_pays_double_witness :
  let w := world_after
             [Start demo_draws 3 4; Reveal 1; Reveal 3; Reveal 5; Reveal 7;
              Reveal 8; Reveal 9; Reveal 10] demo_world in
  exists w',
    cashout demo_uid w = Ok (CashedOutOk 6 1003 [0; 2; 4; 6], w') /\
    balance_of demo_uid w' = Some 1003.
Proof.
  destruct (cashout_pays_double demo_uid
              (world_after
                 [Start demo_draws 3 4; Reveal 1; Reveal 3; Reveal 5; Reveal 7;
                  Reveal 8; Reveal 9; Reveal 10] demo_world)
              {| mines_positions := [0; 2; 4; 6]; bet_amount := 3;
                 mines_count := 4;
                 revealed_positions := [1; 3; 5; 7; 8; 9; 10];
                 active := true; won := false;
                 multiplier := multiplier_at 4 7 |})
    as (u & winnings & w' & Hu & _ & Hpay & _ & _ & Hcash & Hbal & _).
  - apply world_after_reachable, demo_world_reachable.
  - vm_compute. reflexivity.
  - reflexivity.
  - simpl. lia.
  - vm_compute in Hu. injection Hu as <-.
    vm_compute in Hpay. injection Hpay as <-.
    exists w'. split; [exact Hcash|exact Hbal].
Defined.

(** C3 fails as stated: with 4 mines, a bet of 3 and 7 safe reveals the
    exact multiplier is [1 + (7/21) * 4 = 7/3] and the exact winnings are
    [floor (3 * 7/3) = 7]; the handler stores the double just below [7/3]
    and pays [int (6.999999999999999) = 6]. *)
Lemma cashout_rounding_drift :
  let w := world_after
             [Start demo_draws 3 4; Reveal 1; Reveal 3; Reveal 5; Reveal 7;
              Reveal 8; Reveal 9; Reveal 10] demo_world in
  reachable demo_uid w /\
  (status_of <$> session w) = Some Active /\
  (mines_count <$> session w) = Some 4 /\
  (bet_amount <$> session w) = Some 3 /\
  (revealed_count <$> session w) = Some 7 /\
  (responses [Cashout] w) = Some [CashedOutOk 6 1003 [0; 2; 4; 6]] /\
  balance_of demo_uid w = Some 997 /\
  (balance_of demo_uid <$> after [Cashout] w) = Some (Some 1003) /\
  spec_winnings 3 4 7 = 7.
Proof.
  split; [apply world_after_reachable, demo_world_reachable|].
  repeat split; by vm_compute.
Qed.

Lemma payout_one b : 0 < b <= 2 ^ 53 -> payout b one = Ok b.
Proof.
  intros [Hb0 Hb]. destruct (Z.eq_dec b (2 ^ 53)) as [->|Hne].
  - by vm_compute.
  - destruct b as [|b|b]; try lia.
    rewrite one_exact_double, payout_exact by lia. f_equal. lia.
Qed.

(** C9, as the handler has it: for [mines_count] in [1..24] and a bet of at
    most [2^53] that the balance covers, a start followed at once by a
    cashout pays back exactly the bet (the multiplier is [1.0]) and the
    balance of the user is again what it was before the start. *)
Theorem start_then_cashout (draws : nat -> nat) (b m : Z) (uid : string)
    (w : world) (u : user_data) :
  users w !! uid = Some u ->
  1 <= m <= 24 -> 0 < b <= 2 ^ 53 -> b <= balance u ->
  exists w1 w2 mines,
    start_mines_game draws b m uid w = Ok (GameStarted (balance u - b), w1) /\
    (multiplier <$> session w1) = Some one /\
    cashout uid w1 = Ok (CashedOutOk b (balance u) mines, w2) /\
    balance_of uid w2 = Some (balance u) /\
    balance_of uid w2 = balance_of uid w.
Proof.
  intros Hu Hm Hb Hbal.
  destruct (start_mines_game_accepts draws b m uid w u)
    as (mines & _ & Hstart); [done|done|lia|done|].
  set (u1 := set_balance (balance u - b) u) in *.
  set (gs1 := {| mines_positions := mines; bet_amount := b; mines_count := m;
                 revealed_positions := []; active := true; won := false;
                 multiplier := one |}) in *.
  set (w1 := {| users := <[uid:=u1]> (users w); session := Some gs1 |}) in *.
  assert (Hu1 : users w1 !! uid = Some u1) by (simpl; by rewrite lookup_insert_eq).
  pose proof (cashout_active _ _ _ Hu1 gs1 eq_refl eq_refl) as Hcash.
  change (bet_amount gs1) with b in Hcash.
  change (multiplier gs1) with one in Hcash.
  rewrite payout_one in Hcash by done.
  unfold mbind, result_bind in Hcash.
  change (mines_positions gs1) with mines in Hcash.
  replace (balance u1 + b) with (balance u) in Hcash by (simpl; lia).
  exists w1. eexists _, mines. split; [exact Hstart|]. split; [done|].
  split; [exact Hcash|].
  unfold balance_of. simpl. rewrite lookup_insert_eq, Hu. done.
Qed.

Lemma start_then_cashout_witness :
  exists w1 w2 mines,
    start_mines_game demo_draws 100 3 demo_uid demo_world
      = Ok (GameStarted (balance demo_user - 100), w1) /\
    (multiplier <$> session w1) = Some one /\
    cashout demo_uid w1 = Ok (CashedOutOk 100 (balance demo_user) mines, w2) /\
    balance_of demo_uid w2 = Some (balance demo_user) /\
    balance_of demo_uid w2 = balance_of demo_uid demo_world.
Proof.
  apply (start_then_cashout demo_draws 100 3 demo_uid demo_world demo_user).
  - reflexivity.
  - lia.
  - simpl. lia.
  - simpl. lia.
Defined.

(** C9 fails as stated: the demo user raises the balance to [2^53 + 1]
    and bets all of it; the start takes the balance to 0 and the immediate
    cashout pays [int (float (2^53 + 1) * 1.0) = 2^53], one unit less than
    the bet, so the balance ends one unit below its value before the
    start. *)
Lemma start_then_cashout_loses_a_unit :
  let b := 9007199254740993 in
  let rs := [UpdateBalance (b - 1000); Start demo_draws b 3; Cashout] in
  b = 2 ^ 53 + 1 /\
  responses rs demo_world
    = Some [BalanceUpdated b; GameStarted 0;
            CashedOutOk (b - 1) (b - 1) [0; 2; 4]] /\
  (balance_of demo_uid <$> after rs demo_world) = Some (Some (b - 1)) /\
  b - 1 <> b.
Proof.
  split; [by vm_compute|]. split; [by vm_compute|].
  split; [by vm_compute|]. lia.
Qed.

(** ** Clearing the grid *)

Lemma multiplier_at_24_1 : multiplier_at 24 1 = exact_double 25.
Proof. by vm_compute. Qed.

(** C10, as the handler has it: in an active round with 24 mines and a bet
    [b] below [2^1000], revealing the one safe tile makes
    [revealed_count = safe_tiles = 1], stores the round with
    [active = false] and [won = true] (WonByClear) and the multiplier
    [25.0], and credits [int(float(b) * 25.0)] to the balance of the user;
    for [25 * b <= 2^53] that is exactly [25 * b]. *)
Theorem reveal_last_safe_tile (uid : string) (w : world) (gs : game_state)
    (p : Z) :
  reachable uid w -> session w = Some gs -> active gs = true ->
  mines_count gs = 24 -> in_grid p -> p ∉ mines_positions gs ->
  bet_amount gs < 2 ^ 1000 ->
  exists u w' gs' winnings,
    users w !! uid = Some u /\
    payout (bet_amount gs) (exact_double 25) = Ok winnings /\
    reveal_tile p uid w =
      Ok (RoundWon (exact_double 25) winnings (balance u + winnings)
            (mines_positions gs), w') /\
    session w' = Some gs' /\
    revealed_positions gs' = [p] /\
    revealed_count gs' = 1 /\ safe_tiles gs' = 1 /\
    status_of gs' = WonByClear /\
    multiplier gs' = exact_double 25 /\
    float_of_int 25 = Ok (multiplier gs') /\
    balance_of uid w' = Some (balance u + winnings) /\
    0 <= winnings /\
    (25 * bet_amount gs <= 2 ^ 53 -> winnings = 25 * bet_amount gs).
Proof.
  intros Hreach Hs Ha Hm Hp Hmine Hb.
  destruct (reachable_round _ _ _ Hreach Hs) as [[u Hu] Hwf].
  pose proof (wf_count_le _ Hwf) as Hk.
  pose proof (wf_active _ Hwf Ha) as Hlt.
  pose proof (wf_bet _ Hwf) as Hb0.
  unfold safe_tiles in Hk, Hlt. rewrite Hm in Hk, Hlt.
  assert (Hk0 : revealed_count gs = 0) by lia.
  assert (Hnil : revealed_positions gs = []).
  { unfold revealed_count in Hk0. destruct (revealed_positions gs); [done|].
    simpl in Hk0. lia. }
  assert (Hrev : p ∉ revealed_positions gs)
    by (rewrite Hnil; apply not_elem_of_nil).
  pose proof (reveal_tile_safe _ _ _ Hu p gs Hp Hs Hwf Ha Hrev Hmine) as Heq.
  cbv zeta in Heq. unfold safe_tiles in Heq.
  rewrite Hm, Hk0 in Heq. simpl (0 + 1 =? 25 - 24) in Heq. cbv iota in Heq.
  change (0 + 1) with 1 in Heq. rewrite multiplier_at_24_1 in Heq.
  destruct (payout_succeeds (bet_amount gs) (exact_double 25))
    as (winnings & Hpay & Hw0); [lia|by vm_compute|].
  rewrite Hpay in Heq.
  exists u. eexists _, _, winnings. split; [done|]. split; [done|].
  split; [exact Heq|].
  split; [done|]. rewrite Hnil. unfold status_of.
  unfold revealed_count, safe_tiles.
  cbn [revealed_positions set_active_won set_multiplier set_revealed
       mines_count active won multiplier app length negb].
  rewrite Hm. repeat (split; [by vm_compute|]).
  split.
  { unfold balance_of. cbn [users set_session set_users].
    by rewrite lookup_insert_eq. }
  split; [done|]. intros Hexact.
  destruct (bet_amount gs) as [|b|b] eqn:Hbet; try lia.
  rewrite payout_exact in Hpay by lia. injection Hpay as <-. lia.
Qed.

Lemma reveal_last_safe_tile_witness :
  let w := world_after [Start demo_draws 40 24] demo_world in
  exists w',
    reveal_tile 11 demo_uid w
      = Ok (RoundWon (exact_double 25) 1000 1960
              [0; 2; 4; 6; 8; 10; 12; 14; 16; 18; 20; 22; 24; 3; 9; 15; 21; 5;
               17; 7; 1; 13; 19; 23], w') /\
    (status_of <$> session w') = Some WonByClear /\
    balance_of demo_uid w' = Some 1960.
Proof.
  destruct (reveal_last_safe_tile demo_uid
              (world_after [Start demo_draws 40 24] demo_world)
              {| mines_positions :=
                   [0; 2; 4; 6; 8; 10; 12; 14; 16; 18; 20; 22; 24; 3; 9; 15;
                    21; 5; 17; 7; 1; 13; 19; 23];
                 bet_amount := 40; mines_count := 24;
                 revealed_positions := []; active := true; won := false;
                 multiplier := one |} 11)
    as (u & w' & gs' & winnings & Hu & _ & Hreveal & Hs' & _ & _ & _ & Hstatus
        & _ & _ & Hbal & _ & Hexact).
  - apply world_after_reachable, demo_world_reachable.
  - vm_compute. reflexivity.
  - reflexivity.
  - reflexivity.
  - unfold in_grid. lia.
  - apply (bool_decide_unpack _). vm_compute. exact I.
  - simpl. lia.
  - vm_compute in Hu. injection Hu as <-.
    assert (winnings = 1000) as -> by (apply Hexact; simpl; lia).
    exists w'. split; [exact Hreveal|]. rewrite Hs'. simpl.
    rewrite Hstatus. split; [reflexivity|exact Hbal].
Defined.

(** C10 fails as stated: the demo user raises the balance to [2^49 + 1]
    and bets all of it on 24 mines; the one safe tile (position 11) pays
    [int (float (2^49 + 1) * 25.0)], which is [25 * bet - 1]: the product
    needs 54 bits and is rounded to an even double. *)
Lemma last_safe_tile_rounds_winnings :
  let b := 562949953421313 in
  let rs := [UpdateBalance (b - 1000); Start demo_draws b 24; Reveal 11] in
  b = 2 ^ 49 + 1 /\
  (exists mines,
     responses rs demo_world
       = Some [BalanceUpdated b; GameStarted 0;
               RoundWon (exact_double 25) (25 * b - 1) (25 * b - 1) mines]) /\
  (status_of <$> (after rs demo_world ≫= session)) = Some WonByClear /\
  25 * b - 1 <> 25 * b.
Proof.
  split; [by vm_compute|]. split; [eexists; by vm_compute|].
  split; [by vm_compute|]. lia.
Qed.

(** Some bound on the bet is needed: the demo user raises the balance to
    [2^1020] and bets all of it on 24 mines; [float(b) * 25.0] is then
    infinite and the reveal of the safe tile raises [OverflowError]. *)
Lemma last_safe_tile_overflow :
  let b := 2 ^ 1020 in
  let rs := [UpdateBalance (b - 1000); Start demo_draws b 24] in
  responses rs demo_world = Some [BalanceUpdated b; GameStarted 0] /\
  reveal_tile 11 demo_uid (world_after rs demo_world) = Raise OverflowError.
Proof. split; by vm_compute. Qed.

(** * Further properties: the handlers, the pages and the database file *)

Ltac by_evaluation := apply (bool_decide_unpack _); vm_compute; exact I.

Ltac no_clash :=
  intros ? ? [[= -> ->]|[[= -> ->]|[]%elem_of_nil]%elem_of_cons]%elem_of_cons;
  by vm_compute.

Ltac handler_cases :=
  repeat match goal with
    | H : context [match ?x with _ => _ end] |- _ =>
        match type of x with
        | option _ => destruct x eqn:?
        | result _ => destruct x eqn:?
        | bool => destruct x eqn:?
        | prod _ _ => destruct x eqn:?
        end; simpl in H
    | H : Ok _ = Ok _ |- _ => injection H as ??; subst
    | H : Raise _ = Ok _ |- _ => discriminate H
    end.

Lemma add_balance_inv uid amount w w1 b :
  add_balance uid amount w = Ok (w1, b) ->
  exists u, users w !! uid = Some u /\ b = balance u + amount /\
    w1 = set_users (<[uid := set_balance b u]> (users w)) w.
Proof.
  unfold add_balance, get_user. destruct (users w !! uid) as [u|]; [|done].
  simpl. intros [= <- <-]. eauto.
Qed.

(** X1: a request of a JSON handler that is answered with the redirect to the
    login page or with an error message ([LoginRedirect] or [JsonError])
    leaves the users table and the round in the session as they were. *)
Theorem handle_rejection uid r w resp w' :
  handle uid r w = Ok (resp, w') -> is_rejection resp = true -> w' = w.
Proof.
  intros H Hrej. destruct r; simpl in H;
    unfold update_balance, start_mines_game, reveal_tile, cashout,
      login_required, mbind, result_bind in H;
    handler_cases; try done.
Qed.

Lemma handle_rejection_witness :
  handle demo_uid (Start demo_draws 2000 3) demo_world
    = Ok (JsonError InsufficientBalance, demo_world) /\
  demo_world = demo_world.
Proof.
  split; [by vm_compute|].
  apply (handle_rejection demo_uid (Start demo_draws 2000 3) demo_world
           (JsonError InsufficientBalance)); by vm_compute.
Defined.

Ltac add_balance_cases :=
  repeat match goal with
    | H : add_balance _ _ _ = Ok _ |- _ =>
        apply add_balance_inv in H as (? & ? & ? & ?); subst
    end.

Lemma handle_other_users uid r w resp w' uid' :
  handle uid r w = Ok (resp, w') -> uid' <> uid ->
  users w' !! uid' = users w !! uid'.
Proof.
  intros H Hne. destruct r; simpl in H;
    unfold update_balance, start_mines_game, reveal_tile, cashout,
      login_required, mbind, result_bind in H;
    handler_cases; add_balance_cases; simpl; try done;
    by rewrite lookup_insert_ne.
Qed.

Lemma handle_balance_stored uid r w resp w' b :
  handle uid r w = Ok (resp, w') -> reported_balance resp = Some b ->
  balance_of uid w' = Some b.
Proof.
  intros H Hb. destruct r; simpl in H;
    unfold update_balance, start_mines_game, reveal_tile, cashout,
      login_required, mbind, result_bind in H;
    handler_cases; add_balance_cases; simpl in Hb; try done;
    injection Hb as <-; unfold balance_of; simpl; by rewrite lookup_insert_eq.
Qed.

Lemma handle_ends_round uid r w resp w' :
  handle uid r w = Ok (resp, w') -> ends_round resp = true ->
  round_is_active w = true /\ round_is_active w' = false /\
  is_Some (users w' !! uid).
Proof.
  intros H Hend. destruct r; simpl in H;
    unfold update_balance, start_mines_game, reveal_tile, cashout,
      login_required, mbind, result_bind in H;
    handler_cases; add_balance_cases; try done;
    unfold round_is_active; simpl;
    repeat match goal with
      | H : session _ = Some _ |- _ => rewrite H
      | H : negb ?b = false |- _ => apply negb_false_iff in H; rewrite H
      end;
    (split; [done|]); (split; [done|]);
    rewrite ?lookup_insert_eq; eauto.
Qed.

(** X2: after the request that ends a round (the reveal of a mine, the reveal
    of the last safe tile, or a cashout) every sequence of [reveal_tile] and
    [cashout] requests is rejected request by request ([InvalidPosition] for a
    position outside the grid, [NoActiveRound] otherwise) and leaves balance
    and session unchanged: a round pays at most once. *)
Theorem round_pays_once uid r w resp w' rs :
  handle uid r w = Ok (resp, w') -> ends_round resp = true ->
  forallb is_play rs = true ->
  run uid rs w' = Ok (JsonError ∘ finished_rejection <$> rs, w').
Proof.
  intros H Hend Hrs.
  destruct (handle_ends_round _ _ _ _ _ H Hend) as (_ & Hfin & [u Hu]).
  by apply (run_finished _ _ u).
Qed.

Lemma round_pays_once_witness :
  let w' := world_after [Start demo_draws 100 3; Reveal 1; Cashout] demo_world in
  run demo_uid [Reveal 3; Cashout; Reveal 30] w'
    = Ok ([JsonError NoActiveRound; JsonError NoActiveRound;
           JsonError InvalidPosition], w').
Proof.
  apply (round_pays_once demo_uid Cashout
           (world_after [Start demo_draws 100 3; Reveal 1] demo_world)
           (CashedOutOk 113 1013 [0; 2; 4])
           (world_after [Start demo_draws 100 3; Reveal 1; Cashout] demo_world)
           [Reveal 3; Cashout; Reveal 30]); by vm_compute.
Defined.

Lemma binary_round_aux_sign sx mx ex lx :
  match binary_round_aux prec emax sx mx ex lx with
  | S754_zero s | S754_infinity s | S754_finite s _ _ => s = sx
  | S754_nan => True
  end.
Proof.
  unfold binary_round_aux.
  destruct (shr_fexp prec emax mx ex lx) as [mrs' e'].
  destruct (shr_fexp prec emax _ e' loc_Exact) as [mrs'' e''].
  destruct (shr_m mrs''); try done. by destruct (_ <=? _).
Qed.

Lemma int_of_float_nonneg x w :
  match x with
  | S754_zero s | S754_infinity s | S754_finite s _ _ => s = false
  | S754_nan => True
  end ->
  int_of_float x = Ok w -> 0 <= w.
Proof.
  destruct x as [s|s| |s m e]; simpl; try done.
  - by intros _ [= <-].
  - intros -> [= <-]. simpl. destruct e as [|p|p]; [lia|lia|].
    apply Z.shiftr_nonneg. lia.
Qed.

(** [int(b * x)] is never negative for a positive bet and a positive double. *)
Lemma payout_nonneg b x w :
  0 < b -> small_double x = true -> payout b x = Ok w -> 0 <= w.
Proof.
  intros Hb Hx. destruct b as [|b|b]; try lia.
  destruct x as [| | |[] mx ex]; try done.
  unfold payout, int_mul_float, float_of_int, binary_normalize, binary_round.
  destruct (shl_align b 0 _) as [mz ez].
  pose proof (binary_round_aux_sign false (Zpos mz) ez loc_Exact) as Hs.
  destruct (binary_round_aux prec emax false (Zpos mz) ez loc_Exact)
    as [s|s| |s m e]; try done; unfold mbind, result_bind.
  - simpl. intros [= <-]. done.
  - subst s. unfold fmul, SFmul. cbn [xorb].
    apply int_of_float_nonneg. apply binary_round_aux_sign.
Qed.

(** X3: in a reachable world a request to [start_mines_game], [reveal_tile] or
    [cashout] that returns keeps a balance that is not negative from becoming
    negative (only [update_balance] can make it so). *)
Theorem game_keeps_balance_nonneg uid r w resp w' b :
  reachable uid w -> is_game_request r = true ->
  handle uid r w = Ok (resp, w') ->
  balance_of uid w = Some b -> 0 <= b ->
  exists b', balance_of uid w' = Some b' /\ 0 <= b'.
Proof.
  intros Hreach Hr Hstep Hbal Hb.
  pose proof (reachable_wf _ _ Hreach) as [[u Hu] Hgs].
  assert (Hbu : balance u = b).
  { unfold balance_of in Hbal. rewrite Hu in Hbal. by injection Hbal. }
  assert (Hwinnings : forall gs mult winnings w1 bal,
            mult = multiplier_at (mines_count gs) (revealed_count gs) \/
            mult = multiplier_at (mines_count gs) (revealed_count gs + 1) ->
            session w = Some gs -> active gs = true ->
            payout (bet_amount gs) mult = Ok winnings ->
            add_balance uid winnings w = Ok (w1, bal) ->
            forall s, exists b', balance_of uid (set_session s w1) = Some b' /\ 0 <= b').
  { intros gs mult winnings w1 bal Hmult Hs Ha Hpay Hadd s.
    specialize (Hgs gs Hs).
    pose proof (wf_mines_count _ Hgs). pose proof (wf_count_le _ Hgs).
    pose proof (wf_active _ Hgs Ha). pose proof (wf_bet _ Hgs).
    unfold safe_tiles in *.
    assert (0 <= winnings).
    { eapply payout_nonneg; [done| |exact Hpay].
      destruct Hmult as [->| ->]; apply multiplier_at_small; lia. }
    apply add_balance_inv in Hadd as (u' & Hu' & -> & ->).
    rewrite Hu in Hu'. injection Hu' as <-.
    eexists. unfold balance_of. simpl. rewrite lookup_insert_eq. simpl.
    split; [done|]. lia. }
  destruct r as [amount|draws bet m|p|]; [done| | |]; simpl in Hstep.
  - destruct (decide (1 <= m <= 24 /\ 0 < bet /\ bet <= balance u))
      as [(Hm & Hbet & Hle)|Hbad].
    + destruct (start_mines_game_accepts draws bet m uid w u)
        as (mines & _ & Hstart); try done.
      rewrite Hstart in Hstep. injection Hstep as <- <-.
      eexists. unfold balance_of. simpl. rewrite lookup_insert_eq. simpl.
      split; [done|]. lia.
    + rewrite (start_mines_game_rejects _ _ _ _ _ _ Hu Hbad) in Hstep.
      injection Hstep as <- <-. eauto.
  - destruct (decide (in_grid p)) as [Hp|Hp];
      [|rewrite (reveal_tile_invalid _ _ _ Hu _ Hp) in Hstep;
        injection Hstep as <- <-; eauto].
    destruct (round_is_active w) eqn:Hact;
      [|rewrite (reveal_tile_no_round _ _ _ Hu _ Hp Hact) in Hstep;
        injection Hstep as <- <-; eauto].
    unfold round_is_active in Hact.
    destruct (session w) as [gs|] eqn:Hs; [|done].
    destruct (decide (p ∈ revealed_positions gs)) as [Hrev|Hrev];
      [rewrite (reveal_tile_already _ _ _ Hu _ _ Hp Hs Hact Hrev) in Hstep;
       injection Hstep as <- <-; eauto|].
    destruct (decide (p ∈ mines_positions gs)) as [Hmine|Hmine].
    + rewrite (reveal_tile_mine _ _ _ Hu _ _ Hp Hs Hact Hrev Hmine) in Hstep.
      injection Hstep as <- <-. eauto.
    + rewrite (reveal_tile_safe _ _ _ Hu _ _ Hp Hs (Hgs gs eq_refl) Hact Hrev
                 Hmine) in Hstep.
      destruct (revealed_count gs + 1 =? safe_tiles gs);
        destruct (payout _ _) as [x|] eqn:Hpay; try done; simpl in Hstep;
        injection Hstep as <- <-; [|eauto].
      eapply (Hwinnings gs _ x); [by right|done|done|exact Hpay|].
      by apply add_balance_Some.
  - destruct (round_is_active w) eqn:Hact;
      [|rewrite (cashout_no_round _ _ _ Hu Hact) in Hstep;
        injection Hstep as <- <-; eauto].
    unfold round_is_active in Hact.
    destruct (session w) as [gs|] eqn:Hs; [|done].
    rewrite (cashout_active _ _ _ Hu gs Hs Hact) in Hstep.
    destruct (payout _ _) as [x|] eqn:Hpay; [|done]. simpl in Hstep.
    injection Hstep as <- <-.
    eapply (Hwinnings gs _ x); [left; apply (wf_multiplier _ (Hgs gs eq_refl))
                               |done|done|exact Hpay|].
    by apply add_balance_Some.
Qed.

Lemma game_keeps_balance_nonneg_witness :
  exists b',
    balance_of demo_uid (world_after [Start demo_draws 1000 3] demo_world)
      = Some b' /\ 0 <= b'.
Proof.
  apply (game_keeps_balance_nonneg demo_uid (Start demo_draws 1000 3)
           demo_world (GameStarted 0) _ 1000).
  - apply demo_world_reachable.
  - reflexivity.
  - by vm_compute.
  - by vm_compute.
  - lia.
Defined.

Lemma reachable_flags uid w :
  reachable uid w ->
  forall gs, session w = Some gs -> active gs = true -> won gs = false.
Proof.
  induction 1 as [uid db Hu|uid w r resp w' _ IH Hstep
                 |uid w db' _ IH Hsame|uid' uid w _ IH Hu
                 |uid w gs0 p mult e _ IH Hs Ha Hrev Hmine Hcm Hne Hraise];
    intros gs Hgs Hact; simpl in *; try done; try (by eapply IH).
  - destruct r; simpl in Hstep;
      unfold update_balance, start_mines_game, reveal_tile, cashout,
        login_required, mbind, result_bind in Hstep;
      handler_cases; add_balance_cases; simpl in *; simplify_eq;
      try done; try (by eapply IH); try (by apply (IH _ eq_refl)).
  - injection Hgs as <-. simpl in *. by eapply IH.
Qed.

(** X4: the round stored in the session of a reachable world has between 1 and
    24 mines, as many mine positions as [mines_count], all distinct and in the
    grid; its revealed positions are distinct, in the grid and no mines; its
    bet is positive; at most [25 - mines_count] positions are revealed, fewer
    while the round is active; and an active round is not marked won. *)
Theorem stored_round_invariant uid w gs :
  reachable uid w -> session w = Some gs ->
  1 <= mines_count gs <= 24 /\
  Z.of_nat (length (mines_positions gs)) = mines_count gs /\
  NoDup (mines_positions gs) /\
  Forall in_grid (mines_positions gs) /\
  NoDup (revealed_positions gs) /\
  Forall in_grid (revealed_positions gs) /\
  (forall p, p ∈ revealed_positions gs -> p ∉ mines_positions gs) /\
  0 < bet_amount gs /\
  revealed_count gs + mines_count gs <= 25 /\
  (active gs = true -> revealed_count gs + mines_count gs < 25) /\
  (active gs = true -> won gs = false).
Proof.
  intros Hreach Hs.
  destruct (reachable_round _ _ _ Hreach Hs) as [_ Hwf].
  pose proof (wf_count_le _ Hwf) as Hle.
  destruct Hwf as [Hm Hlen Hnd Hgrid Hrnd Hrgrid Hsafe Hb Hmult Hact].
  unfold safe_tiles in *.
  repeat (split; [done || lia|]). split.
  { intros p Hp. by eapply Forall_forall in Hsafe. }
  split; [done|]. split; [lia|]. split.
  - intros Ha. specialize (Hact Ha). lia.
  - by eapply reachable_flags.
Qed.

Lemma stored_round_invariant_witness :
  Z.of_nat (length (mines_positions demo_round)) = 3 /\
  NoDup (mines_positions demo_round) /\
  revealed_count demo_round + mines_count demo_round < 25.
Proof.
  destruct (stored_round_invariant demo_uid
              (world_after [Start demo_draws 100 3; Reveal 1] demo_world)
              demo_round)
    as (_ & Hlen & Hnd & _ & _ & _ & _ & _ & _ & Hlt & _).
  - apply world_after_reachable, demo_world_reachable.
  - by vm_compute.
  - split; [exact Hlen|]. split; [exact Hnd|]. by apply Hlt.
Defined.

(** X5: on an active round with a bet below [2^1000], revealing a position of
    the grid that is neither revealed nor a mine and is not the last safe tile
    answers with the revealed positions extended by that position, the
    multiplier [1 + (revealed_count / safe_tiles) * mines_count] of the new
    count and a [potential_win]; the balance is untouched, the round stays
    active, and a [cashout] right after it pays exactly that [potential_win].
    *)
Theorem reveal_safe_tile uid w gs p :
  reachable uid w -> session w = Some gs -> active gs = true ->
  in_grid p -> p ∉ revealed_positions gs -> p ∉ mines_positions gs ->
  revealed_count gs + 1 < safe_tiles gs ->
  bet_amount gs < 2 ^ 1000 ->
  exists u mult potential_win w2,
    let gs' := set_multiplier mult
                 (set_revealed (revealed_positions gs ++ [p]) gs) in
    users w !! uid = Some u /\
    compute_multiplier (revealed_count gs + 1) (safe_tiles gs) (mines_count gs)
      = Ok mult /\
    reveal_tile p uid w
      = Ok (TileSafe (revealed_positions gs ++ [p]) mult potential_win,
            set_session gs' w) /\
    status_of gs' = Active /\
    cashout uid (set_session gs' w)
      = Ok (CashedOutOk potential_win (balance u + potential_win)
              (mines_positions gs), w2).
Proof.
  intros Hreach Hs Ha Hp Hrev Hmine Hlt Hb.
  destruct (reachable_round _ _ _ Hreach Hs) as [[u Hu] Hwf].
  pose proof (wf_mines_count _ Hwf) as Hm.
  pose proof (wf_count_le _ Hwf) as Hk.
  pose proof (wf_bet _ Hwf) as Hb0.
  unfold safe_tiles in *.
  set (mult := multiplier_at (mines_count gs) (revealed_count gs + 1)).
  destruct (payout_succeeds (bet_amount gs) mult) as (pw & Hpay & _);
    [lia|apply multiplier_at_small; lia|].
  exists u, mult, pw. eexists. cbv zeta.
  split; [done|]. split; [apply compute_multiplier_ok; lia|].
  pose proof (reveal_tile_safe _ _ _ Hu p gs Hp Hs Hwf Ha Hrev Hmine) as Heq.
  cbv zeta in Heq. fold mult in Heq. unfold safe_tiles in Heq.
  destruct (Z.eqb_spec (revealed_count gs + 1) (25 - mines_count gs)); [lia|].
  rewrite Hpay in Heq. split; [exact Heq|]. split.
  { unfold status_of. cbn [active set_multiplier set_revealed]. by rewrite Ha. }
  set (gs' := set_multiplier mult
                (set_revealed (revealed_positions gs ++ [p]) gs)).
  assert (Hu' : users (set_session gs' w) !! uid = Some u) by done.
  rewrite (cashout_active _ _ _ Hu' gs' eq_refl Ha).
  change (bet_amount gs') with (bet_amount gs).
  change (multiplier gs') with mult. rewrite Hpay. reflexivity.
Qed.

Lemma reveal_safe_tile_witness :
  let w := world_after [Start demo_draws 100 3; Reveal 1] demo_world in
  exists potential_win w1 w2,
    reveal_tile 3 demo_uid w
      = Ok (TileSafe [1; 3] (multiplier_at 3 2) potential_win, w1) /\
    cashout demo_uid w1
      = Ok (CashedOutOk potential_win (900 + potential_win) [0; 2; 4], w2).
Proof.
  destruct (reveal_safe_tile demo_uid
              (world_after [Start demo_draws 100 3; Reveal 1] demo_world)
              demo_round 3)
    as (u & mult & pw & w2 & Hu & Hmult & Hreveal & _ & Hcash).
  - apply world_after_reachable, demo_world_reachable.
  - by vm_compute.
  - reflexivity.
  - unfold in_grid. lia.
  - by_evaluation.
  - by_evaluation.
  - by vm_compute.
  - simpl. lia.
  - vm_compute in Hu. injection Hu as <-.
    assert (mult = multiplier_at 3 2) as ->.
    { vm_compute in Hmult. injection Hmult as <-. by vm_compute. }
    eexists pw, _, w2. split; [exact Hreveal|exact Hcash].
Defined.

Lemma multiplier_at_full_exact m :
  1 <= m <= 24 -> multiplier_at m (25 - m) = exact_double (Z.to_pos (1 + m)).
Proof.
  intros Hm. pose proof (multiplier_at_full m Hm) as Hfull.
  assert (Hpos : 1 + m = Zpos (Z.to_pos (1 + m))) by lia.
  rewrite Hpos in Hfull at 1. rewrite float_of_int_exact in Hfull.
  - by injection Hfull.
  - rewrite <- Hpos. change (2 ^ 53) with 9007199254740992. lia.
Qed.

(** X6: for every number of mines, revealing the last safe tile of an active
    round with [(1 + mines_count) * bet_amount < 2^53] ends the round as won
    with the multiplier [float(1 + mines_count)] and credits exactly [(1 +
    mines_count) * bet_amount]. *)
Theorem reveal_clears_grid uid w gs p :
  reachable uid w -> session w = Some gs -> active gs = true ->
  in_grid p -> p ∉ revealed_positions gs -> p ∉ mines_positions gs ->
  revealed_count gs + 1 = safe_tiles gs ->
  (1 + mines_count gs) * bet_amount gs < 2 ^ 53 ->
  exists u w' gs',
    let winnings := (1 + mines_count gs) * bet_amount gs in
    users w !! uid = Some u /\
    reveal_tile p uid w
      = Ok (RoundWon (multiplier gs') winnings (balance u + winnings)
              (mines_positions gs), w') /\
    session w' = Some gs' /\
    float_of_int (1 + mines_count gs) = Ok (multiplier gs') /\
    revealed_positions gs' = revealed_positions gs ++ [p] /\
    status_of gs' = WonByClear /\
    balance_of uid w' = Some (balance u + winnings).
Proof.
  intros Hreach Hs Ha Hp Hrev Hmine Hfull Hb.
  destruct (reachable_round _ _ _ Hreach Hs) as [[u Hu] Hwf].
  pose proof (wf_mines_count _ Hwf) as Hm.
  pose proof (wf_bet _ Hwf) as Hb0.
  pose proof (reveal_tile_safe _ _ _ Hu p gs Hp Hs Hwf Ha Hrev Hmine) as Heq.
  cbv zeta in Heq. rewrite Hfull, Z.eqb_refl in Heq.
  unfold safe_tiles in Heq. rewrite multiplier_at_full_exact in Heq by done.
  destruct (bet_amount gs) as [|b|b] eqn:Hbet; try lia.
  assert (Hpos : 1 + mines_count gs = Zpos (Z.to_pos (1 + mines_count gs)))
    by lia.
  rewrite payout_exact in Heq by lia.
  unfold mbind, result_bind in Heq.
  replace (Zpos b * Zpos (Z.to_pos (1 + mines_count gs)))
    with ((1 + mines_count gs) * Zpos b) in Heq by lia.
  exists u. eexists.
  exists (set_active_won false true
            (set_multiplier (exact_double (Z.to_pos (1 + mines_count gs)))
               (set_revealed (revealed_positions gs ++ [p]) gs))).
  cbv zeta. split; [done|].
  split; [exact Heq|]. split; [done|].
  cbn [multiplier set_active_won set_multiplier revealed_positions
       set_revealed].
  split.
  { rewrite Hpos at 1. apply float_of_int_exact. rewrite <- Hpos.
    change (2 ^ 53) with 9007199254740992. lia. }
  split; [done|]. split.
  - unfold status_of, revealed_count, safe_tiles in *.
    cbn [active won set_active_won set_multiplier set_revealed
         revealed_positions mines_count negb].
    rewrite length_app. simpl length.
    destruct (Z.eqb_spec (Z.of_nat (length (revealed_positions gs) + 1))
                (25 - mines_count gs)); [done|lia].
  - unfold balance_of. cbn [users set_session set_users].
    by rewrite lookup_insert_eq.
Qed.

Lemma reveal_clears_grid_witness :
  let w := world_after [Start demo_draws 40 23; Reveal 11] demo_world in
  exists mult w',
    reveal_tile 23 demo_uid w
      = Ok (RoundWon mult 960 1920
              [0; 2; 4; 6; 8; 10; 12; 14; 16; 18; 20; 22; 24; 3; 9; 15; 21; 5;
               17; 7; 1; 13; 19], w') /\
    float_of_int 24 = Ok mult /\
    balance_of demo_uid w' = Some 1920.
Proof.
  destruct (reveal_clears_grid demo_uid
              (world_after [Start demo_draws 40 23; Reveal 11] demo_world)
              {| mines_positions :=
                   [0; 2; 4; 6; 8; 10; 12; 14; 16; 18; 20; 22; 24; 3; 9; 15;
                    21; 5; 17; 7; 1; 13; 19];
                 bet_amount := 40; mines_count := 23;
                 revealed_positions := [11]; active := true; won := false;
                 multiplier := multiplier_at 23 1 |} 23)
    as (u & w' & gs' & Hu & Hreveal & _ & Hmult & _ & _ & Hbal).
  - apply world_after_reachable, demo_world_reachable.
  - by vm_compute.
  - reflexivity.
  - unfold in_grid. lia.
  - by_evaluation.
  - by_evaluation.
  - by vm_compute.
  - simpl. lia.
  - vm_compute in Hu. injection Hu as <-.
    exists (multiplier gs'), w'.
    split; [exact Hreveal|]. split; [exact Hmult|exact Hbal].
Defined.

(** For a bet below [2^40] the payout is at least the bet. *)
Lemma payout_at_least_bet b m k :
  1 <= m <= 24 -> 0 <= k <= 25 - m -> 0 < b < 2 ^ 40 ->
  exists winnings, payout b (multiplier_at m k) = Ok winnings /\ b <= winnings.
Proof.
  intros Hm Hk [Hb0 Hb]. destruct b as [|b|b]; try lia.
  pose proof (multiplier_at_small m k Hm Hk) as Hsmall.
  destruct (multiplier_at m k) as [| | |[] mM eM]; try done.
  unfold small_double in Hsmall.
  apply andb_prop in Hsmall as [[HdM Hlo]%andb_prop Hhi].
  apply Z.eqb_eq in HdM. apply Z.leb_le in Hlo, Hhi.
  assert (Hb53 : Zpos b < 2 ^ 53).
  { assert (2 ^ 40 <= 2 ^ 53) by (apply Z.pow_le_mono_r; lia). lia. }
  assert (Hdb : 1 <= digits b <= 40).
  { unfold digits. split; [lia|]. by apply digits_le. }
  unfold payout, int_mul_float. rewrite float_of_int_exact by done.
  unfold mbind, result_bind, exact_double, fmul, SFmul. cbn [xorb].
  pose proof (exact_mantissa_value b Hb53) as Hmb.
  pose proof (exact_mantissa_digits b Hb53) as Hdmb.
  pose proof (digits_mul_lower (exact_mantissa b) mM) as Hdl.
  pose proof (digits_mul_upper (exact_mantissa b) mM) as Hdu.
  set (mx := (exact_mantissa b * mM)%positive) in *.
  destruct (binary_round_aux_trunc mx (digits b - 53 + eM))
    as (m1 & Hm1 & ->); [lia|lia|].
  eexists. split; [done|].
  set (s1 := digits mx - 53) in *.
  set (t := - (digits b - 53 + eM + s1)).
  assert (HU : 0 < 2 ^ (53 - digits b)) by (apply Z.pow_pos_nonneg; lia).
  assert (HW : 0 < 2 ^ s1) by (apply Z.pow_pos_nonneg; lia).
  assert (HV : 0 < 2 ^ (- eM)) by (apply Z.pow_pos_nonneg; lia).
  assert (HD : 0 < 2 ^ t) by (apply Z.pow_pos_nonneg; lia).
  assert (HUV : 2 ^ (53 - digits b) * 2 ^ (- eM) = 2 ^ t * 2 ^ s1).
  { rewrite <- !Z.pow_add_r by lia. f_equal. lia. }
  assert (Hmx : Zpos mx = Zpos b * 2 ^ (53 - digits b) * Zpos mM).
  { unfold mx. rewrite Pos2Z.inj_mul, Hmb. done. }
  set (q := Zpos mx / 2 ^ s1) in *.
  assert (Hq : Zpos mx < (q + 1) * 2 ^ s1).
  { unfold q. pose proof (Z.mul_succ_div_gt (Zpos mx) (2 ^ s1) HW). lia. }
  assert (Hstar : Zpos b * Zpos mM * 2 ^ t < (q + 1) * 2 ^ (- eM)).
  { rewrite Hmx in Hq.
    assert (E : Zpos b * 2 ^ (53 - digits b) * Zpos mM * 2 ^ (- eM)
                = Zpos b * Zpos mM * 2 ^ t * 2 ^ s1).
    { rewrite <- !Z.mul_assoc, <- HUV. lia. }
    apply (Z.mul_lt_mono_pos_r (2 ^ s1)); [done|]. rewrite <- E. nia. }
  assert (HmM : 2 ^ (- eM) <= Zpos mM).
  { pose proof (digits_bounds mM) as [HloM _]. fold (digits mM) in HloM.
    rewrite HdM in HloM.
    assert (2 ^ (- eM) <= 2 ^ (53 - 1)) by (apply Z.pow_le_mono_r; lia). lia. }
  assert (Hbq : Zpos b * 2 ^ t <= q).
  { assert (Zpos b * 2 ^ t * 2 ^ (- eM) < (q + 1) * 2 ^ (- eM)) by nia. nia. }
  apply Z.div_le_lower_bound; lia.
Qed.

(** X7: on an active round with a bet below [2^40], [cashout] succeeds and
    pays at least the bet and at most [(1 + mines_count) * bet_amount]: a
    cashed-out round never leaves the player below the balance before the bet.
    *)
Theorem cashout_between_bet_and_cap uid w gs :
  reachable uid w -> session w = Some gs -> active gs = true ->
  bet_amount gs < 2 ^ 40 ->
  exists u winnings w',
    users w !! uid = Some u /\
    cashout uid w
      = Ok (CashedOutOk winnings (balance u + winnings) (mines_positions gs), w') /\
    bet_amount gs <= winnings <= (1 + mines_count gs) * bet_amount gs /\
    balance u <= balance u + winnings - bet_amount gs.
Proof.
  intros Hreach Hs Ha Hb.
  destruct (reachable_round _ _ _ Hreach Hs) as [[u Hu] Hwf].
  pose proof (wf_mines_count _ Hwf) as Hm.
  pose proof (wf_count_le _ Hwf) as Hk.
  pose proof (wf_bet _ Hwf) as Hb0.
  unfold safe_tiles in *.
  destruct (payout_at_least_bet (bet_amount gs) (mines_count gs)
              (revealed_count gs)) as (winnings & Hpay & Hlow); [done|lia|lia|].
  destruct (payout_close (bet_amount gs) (mines_count gs) (revealed_count gs))
    as (w2 & Hpay2 & _ & Hup); [done|lia|lia|].
  rewrite Hpay in Hpay2. injection Hpay2 as <-.
  rewrite spec_winnings_div in Hup by done.
  exists u, winnings. eexists. split; [done|]. split.
  { rewrite (cashout_active _ _ _ Hu gs Hs Ha), (wf_multiplier _ Hwf), Hpay.
    reflexivity. }
  split; [|lia]. split; [done|].
  etrans; [exact Hup|].
  apply Z.div_le_upper_bound; [lia|]. nia.
Qed.

Lemma cashout_between_bet_and_cap_witness :
  let w := world_after [Start demo_draws 100 3; Reveal 1] demo_world in
  exists winnings w',
    cashout demo_uid w
      = Ok (CashedOutOk winnings (900 + winnings) [0; 2; 4], w') /\
    100 <= winnings <= 400.
Proof.
  destruct (cashout_between_bet_and_cap demo_uid
              (world_after [Start demo_draws 100 3; Reveal 1] demo_world)
              demo_round)
    as (u & winnings & w' & Hu & Hcash & Hbounds & _).
  - apply world_after_reachable, demo_world_reachable.
  - by vm_compute.
  - reflexivity.
  - simpl. lia.
  - vm_compute in Hu. injection Hu as <-.
    exists winnings, w'. split; [exact Hcash|exact Hbounds].
Defined.

Lemma multiplier_at_strict m k :
  1 <= m <= 24 -> 0 <= k -> k + 1 <= 25 - m ->
  SFltb (multiplier_at m k) (multiplier_at m (k + 1)) = true.
Proof.
  intros Hm Hk Hk'.
  assert (H : grid_forall
                (fun m k => (k =? 25 - m)
                            || SFltb (multiplier_at m k) (multiplier_at m (k + 1)))
              = true) by (vm_compute; reflexivity).
  pose proof (grid_forall_spec _ H m k Hm ltac:(lia)) as Hok. simpl in Hok.
  destruct (Z.eqb_spec k (25 - m)); [lia|done].
Qed.

(** X8: on an active round, a [reveal_tile] of a position of the grid that is
    neither revealed nor a mine, when it returns, appends the position to the
    revealed positions and stores a multiplier strictly greater (as doubles)
    than the one before. *)
Theorem safe_reveal_raises_multiplier uid w gs p resp w' gs' :
  reachable uid w -> session w = Some gs -> active gs = true ->
  in_grid p -> p ∉ revealed_positions gs -> p ∉ mines_positions gs ->
  reveal_tile p uid w = Ok (resp, w') -> session w' = Some gs' ->
  revealed_positions gs' = revealed_positions gs ++ [p] /\
  SFltb (multiplier gs) (multiplier gs') = true.
Proof.
  intros Hreach Hs Ha Hp Hrev Hmine Hstep Hs'.
  destruct (reachable_round _ _ _ Hreach Hs) as [[u Hu] Hwf].
  pose proof (wf_mines_count _ Hwf) as Hm.
  pose proof (wf_count_le _ Hwf) as Hk.
  pose proof (wf_active _ Hwf Ha) as Hlt. unfold safe_tiles in *.
  rewrite (reveal_tile_safe _ _ _ Hu p gs Hp Hs Hwf Ha Hrev Hmine) in Hstep.
  assert (Hgoal : SFltb (multiplier gs)
                    (multiplier_at (mines_count gs) (revealed_count gs + 1))
                  = true).
  { rewrite (wf_multiplier _ Hwf). apply multiplier_at_strict; lia. }
  destruct (revealed_count gs + 1 =? safe_tiles gs);
    destruct (payout _ _) as [x|]; try done; simpl in Hstep;
    injection Hstep as <- <-; simpl in Hs'; injection Hs' as <-; done.
Qed.

Lemma safe_reveal_raises_multiplier_witness :
  SFltb (multiplier_at 3 1) (multiplier_at 3 2) = true.
Proof.
  destruct (safe_reveal_raises_multiplier demo_uid
              (world_after [Start demo_draws 100 3; Reveal 1] demo_world)
              demo_round 3 (TileSafe [1; 3] (multiplier_at 3 2) 127)
              (world_after [Start demo_draws 100 3; Reveal 1; Reveal 3]
                 demo_world)
              {| mines_positions := [0; 2; 4]; bet_amount := 100;
                 mines_count := 3; revealed_positions := [1; 3];
                 active := true; won := false;
                 multiplier := multiplier_at 3 2 |})
    as [_ Hlt].
  - apply world_after_reachable, demo_world_reachable.
  - by vm_compute.
  - reflexivity.
  - unfold in_grid. lia.
  - by_evaluation.
  - by_evaluation.
  - by vm_compute.
  - by vm_compute.
  - exact Hlt.
Defined.

Lemma dict_get_list_to_map {A} (l : list (string * A)) k :
  (list_to_map l : gmap string A) !! k = dict_get k l.
Proof.
  induction l as [|[k' v] l IH]; [done|]. simpl.
  destruct (decide (k' = k)) as [->|Hne].
  - by rewrite lookup_insert_eq.
  - by rewrite lookup_insert_ne.
Qed.

Lemma dict_get_set_eq {A} (l : list (string * A)) k v :
  dict_get k (dict_set k v l) = Some v.
Proof.
  induction l as [|[k' v'] l IH]; simpl.
  - by rewrite decide_True.
  - destruct (decide (k' = k)) as [->|Hne]; simpl.
    + by rewrite decide_True.
    + by rewrite decide_False.
Qed.

Lemma dict_get_set_ne {A} (l : list (string * A)) k k' v :
  k' <> k -> dict_get k' (dict_set k v l) = dict_get k' l.
Proof.
  intros Hne. induction l as [|[k2 v2] l IH]; simpl.
  - by rewrite decide_False.
  - destruct (decide (k2 = k)) as [->|Hne2]; simpl.
    + by rewrite !decide_False.
    + by rewrite IH.
Qed.

Lemma dict_get_None {A} (l : list (string * A)) k :
  dict_get k l = None <-> k ∉ fst <$> l.
Proof.
  induction l as [|[k' v'] l IH]; simpl.
  - split; [intros _; apply not_elem_of_nil|done].
  - rewrite not_elem_of_cons. destruct (decide (k' = k)) as [->|Hne].
    + split; [done|]. by intros [? _].
    + rewrite IH. split; [by intros ?; split|by intros [_ ?]].
Qed.

Lemma dict_set_absent {A} (l : list (string * A)) k v :
  dict_get k l = None -> dict_set k v l = l ++ [(k, v)].
Proof.
  induction l as [|[k' v'] l IH]; simpl; [done|].
  destruct (decide (k' = k)) as [->|Hne]; [done|].
  intros H. by rewrite IH.
Qed.

Lemma dict_set_present {A} (l : list (string * A)) k v :
  is_Some (dict_get k l) ->
  exists l1 v0 l2,
    l = l1 ++ (k, v0) :: l2 /\ dict_set k v l = l1 ++ (k, v) :: l2 /\ k ∉ fst <$> l1.
Proof.
  induction l as [|[k' v'] l IH]; simpl; [by intros [? ?]|].
  destruct (decide (k' = k)) as [->|Hne].
  - intros _. exists [], v', l. split; [done|]. split; [done|].
    apply not_elem_of_nil.
  - intros (l1 & v0 & l2 & -> & -> & Hnot)%IH.
    exists ((k', v') :: l1), v0, l2. split; [done|]. split; [done|].
    simpl. rewrite not_elem_of_cons. done.
Qed.

Lemma set_db_users_same db : set_db_users (db_users db) db = db.
Proof. by destruct db. Qed.

Lemma load_db_spec file :
  load_db file = (database_of file, Some (database_of file)).
Proof. by destruct file. Qed.

Lemma handle_no_user uid r w :
  users w !! uid = None -> handle uid r w = Ok (LoginRedirect, w).
Proof.
  intros H. destruct r; simpl;
    unfold update_balance, start_mines_game, reveal_tile, cashout,
      login_required; by rewrite H.
Qed.

Lemma handle_current_user uid r w resp w' u :
  handle uid r w = Ok (resp, w') -> users w !! uid = Some u ->
  users w' !! uid = Some u \/
  exists b, users w' !! uid = Some (set_balance b u).
Proof.
  intros H Hu. destruct r; simpl in H;
    unfold update_balance, start_mines_game, reveal_tile, cashout,
      login_required, mbind, result_bind in H;
    handler_cases; add_balance_cases; simplify_eq/=;
    rewrite ?lookup_insert_eq; eauto.
Qed.

Lemma register_clash_None u e l :
  register_clash u e l = None <->
  forall k d, (k, d) ∈ l -> username d <> u /\ email d <> e.
Proof.
  induction l as [|[k' d'] l IH]; simpl.
  - split; [|done]. intros _ k d H. by apply elem_of_nil in H.
  - destruct (decide (username d' = u)) as [Hu|Hu].
    { split; [done|]. intros H. destruct (H k' d') as [? _]; [left|done]. }
    destruct (decide (email d' = e)) as [He|He].
    { split; [done|]. intros H. destruct (H k' d') as [_ ?]; [left|done]. }
    rewrite IH. split.
    + intros H k d [[= -> ->]|Hin]%elem_of_cons; [done|eauto].
    + intros H k d Hin. apply (H k d). by right.
Qed.

Lemma register_clash_Some u e l msg :
  register_clash u e l = Some msg ->
  (msg = "Username already exists"%string /\
   exists k d, (k, d) ∈ l /\ username d = u) \/
  (msg = "Email already exists"%string /\
   exists k d, (k, d) ∈ l /\ email d = e).
Proof.
  induction l as [|[k' d'] l IH]; simpl; [done|].
  destruct (decide (username d' = u)) as [Hu|Hu].
  { intros [= <-]. left. split; [done|]. exists k', d'. split; [left|done]. }
  destruct (decide (email d' = e)) as [He|He].
  { intros [= <-]. right. split; [done|]. exists k', d'. split; [left|done]. }
  intros [(-> & k & d & Hin & H)|(-> & k & d & Hin & H)]%IH; [left|right];
    (split; [done|]); exists k, d; (split; [by right|done]).
Qed.

Lemma find_by_username_Some u l k d :
  find_by_username u l = Some (k, d) -> (k, d) ∈ l /\ username d = u.
Proof.
  induction l as [|[k' d'] l IH]; simpl; [done|].
  destruct (decide (username d' = u)) as [Hu|Hu].
  - intros [= -> ->]. split; [left|done].
  - intros [? ?]%IH. split; [by right|done].
Qed.

Lemma find_by_username_unique u l k d :
  NoDup (username ∘ snd <$> l) -> (k, d) ∈ l -> username d = u ->
  find_by_username u l = Some (k, d).
Proof.
  induction l as [|[k' d'] l IH]; simpl.
  - intros _ H. by apply elem_of_nil in H.
  - intros [Hnot Hnd]%NoDup_cons [[= -> ->]|Hin]%elem_of_cons Hu.
    + by rewrite decide_True.
    + rewrite decide_False; [auto|]. intros Heq. apply Hnot.
      apply list_elem_of_fmap. exists (k, d). split; [|done]. simpl. congruence.
Qed.

Lemma find_by_username_new u l k d :
  (forall k' d', (k', d') ∈ l -> username d' <> u) -> username d = u ->
  find_by_username u (dict_set k d l) = Some (k, d).
Proof.
  intros Hl Hu. induction l as [|[k' d'] l IH]; simpl.
  - by rewrite decide_True.
  - destruct (decide (k' = k)) as [->|Hne]; simpl.
    + by rewrite decide_True.
    + rewrite decide_False; [|apply (Hl k'); left].
      apply IH. intros k2 d2 Hin. apply (Hl k2). by right.
Qed.

(** X9: when the session holds no user id, or one that the database does not
    hold, every route behind [@login_required] (logout, dashboard, mines, the
    balance, the four JSON handlers) answers with the redirect to the login
    page and keeps the session and the content of the database; with no user
    id it does not even touch the file. *)
Theorem login_required_gate hash check req s :
  is_protected req = true ->
  (forall uid, session_user s = Some uid ->
     dict_get uid (db_users (database_of (db_file s))) = None) ->
  exists s', serve hash check req s = Ok (Answer LoginRedirect, s') /\
    session_user s' = session_user s /\
    session_game s' = session_game s /\
    database_of (db_file s') = database_of (db_file s) /\
    (session_user s = None -> s' = s).
Proof.
  intros Hreq Hno. destruct s as [file [uid|] sg]; simpl in *.
  - specialize (Hno uid eq_refl).
    destruct req; try done; simpl;
      unfold logout, get_balance, protected, api, load_user; simpl;
      rewrite load_db_spec.
    1-4: rewrite Hno; eexists; (split; [done|]); done.
    rewrite handle_no_user by (by simpl; rewrite dict_get_list_to_map).
    simpl. unfold stored_users. simpl.
    rewrite dict_get_list_to_map, Hno, set_db_users_same.
    eexists; (split; [done|]); done.
  - destruct req; try done; eexists; (split; [done|]); done.
Qed.

Lemma login_required_gate_witness :
  let s := {| db_file := None; session_user := None; session_game := None |} in
  exists s',
    serve demo_hash demo_check (Api Cashout) s = Ok (Answer LoginRedirect, s') /\
    s' = s.
Proof.
  destruct (login_required_gate demo_hash demo_check (Api Cashout)
              {| db_file := None; session_user := None;
                 session_game := None |})
    as (s' & Hserve & _ & _ & _ & Hsame); [reflexivity|done|].
  exists s'. split; [exact Hserve|by apply Hsame].
Defined.

(** X10: when a record of the database has the username or the email of the
    form, [register] stores nothing, redirects to the registration page and
    flashes one of the two messages; the message names a field that some
    record does share. *)
Theorem register_taken hash check u e p rb salt now s :
  (exists k d, (k, d) ∈ db_users (database_of (db_file s)) /\
     (username d = u \/ email d = e)) ->
  exists msg,
    serve hash check (PostRegister u e p rb salt now) s =
      Ok (RedirectTo ToRegister (Some msg),
          {| db_file := Some (database_of (db_file s));
             session_user := session_user s;
             session_game := session_game s |}) /\
    ((msg = "Username already exists"%string /\
      exists k d, (k, d) ∈ db_users (database_of (db_file s)) /\
        username d = u) \/
     (msg = "Email already exists"%string /\
      exists k d, (k, d) ∈ db_users (database_of (db_file s)) /\
        email d = e)).
Proof.
  intros (k & d & Hin & Hclash). simpl. unfold register_post.
  rewrite load_db_spec.
  destruct (register_clash u e (db_users (database_of (db_file s))))
    as [msg|] eqn:Hc.
  - exists msg. split; [done|]. by apply register_clash_Some.
  - destruct (proj1 (register_clash_None _ _ _) Hc k d Hin) as [? ?].
    by destruct Hclash.
Qed.

Lemma register_taken_witness :
  exists msg,
    serve demo_hash demo_check
      (PostRegister "carol" "bob@example.org" "pw" 12%N "salt" "2024-01-03")
      demo_site
    = Ok (RedirectTo ToRegister (Some msg), demo_site).
Proof.
  destruct (register_taken demo_hash demo_check "carol" "bob@example.org" "pw"
              12%N "salt" "2024-01-03" demo_site) as (msg & Hserve & _).
  - exists demo_other_uid, demo_other_user. split; [|by right].
    apply list_elem_of_further, list_elem_of_here.
  - exists msg. exact Hserve.
Defined.

(** X11: when no record has the username or the email of the form, [register]
    redirects to the login page, keeps the session, and saves a database in
    which the drawn user id holds the new record with balance 1000 and every
    other user id holds what it held; a fresh id is appended after the
    existing users, while an id that exists is overwritten in place. *)
Theorem register_accepted hash check u e p rb salt now s :
  (forall k d, (k, d) ∈ db_users (database_of (db_file s)) ->
     username d <> u /\ email d <> e) ->
  exists db',
    serve hash check (PostRegister u e p rb salt now) s =
      Ok (RedirectTo ToLogin
            (Some "Registration successful! Please login."%string),
          {| db_file := Some db';
             session_user := session_user s;
             session_game := session_game s |}) /\
    db_game_stats db' = db_game_stats (database_of (db_file s)) /\
    dict_get (pretty rb) (db_users db') =
      Some (new_user u e (hash salt p) now) /\
    (forall k, k <> pretty rb ->
       dict_get k (db_users db') =
       dict_get k (db_users (database_of (db_file s)))) /\
    (dict_get (pretty rb) (db_users (database_of (db_file s))) = None ->
       db_users db' =
       db_users (database_of (db_file s)) ++
         [(pretty rb, new_user u e (hash salt p) now)]) /\
    (is_Some (dict_get (pretty rb) (db_users (database_of (db_file s)))) ->
       length (db_users db') = length (db_users (database_of (db_file s)))).
Proof.
  intros Hfree. apply register_clash_None in Hfree. simpl.
  unfold register_post. rewrite load_db_spec, Hfree. simpl.
  eexists. split; [reflexivity|]. simpl. split; [done|].
  split; [apply dict_get_set_eq|].
  split; [intros k Hk; by apply dict_get_set_ne|].
  split; [apply dict_set_absent|].
  intros (l1 & v0 & l2 & Hl & -> & _)%(dict_set_present _ _
    {| username := u; email := e; password := hash salt p; balance := 1000;
       created_at := now |}).
  rewrite Hl. by rewrite !length_app.
Qed.

Lemma register_accepted_witness :
  exists db',
    serve demo_hash demo_check
      (PostRegister "carol" "carol@example.org" "pw" 12%N "salt" "2024-01-03")
      demo_site
    = Ok (RedirectTo ToLogin
            (Some "Registration successful! Please login."%string),
          {| db_file := Some db'; session_user := Some demo_uid;
             session_game := None |}) /\
    db_users db' =
      db_users demo_database ++
        [("12"%string,
          new_user "carol" "carol@example.org" "pw" "2024-01-03")].
Proof.
  destruct (register_accepted demo_hash demo_check "carol" "carol@example.org"
              "pw" 12%N "salt" "2024-01-03" demo_site)
    as (db' & Hserve & _ & _ & _ & Hnew & _); [no_clash|].
  exists db'. split; [exact Hserve|]. by apply Hnew.
Defined.

Lemma find_by_username_None u l :
  (forall k d, (k, d) ∈ l -> username d <> u) -> find_by_username u l = None.
Proof.
  induction l as [|[k' d'] l IH]; simpl; [done|]. intros H.
  rewrite decide_False; [|apply (H k'); left].
  apply IH. intros k d Hin. apply (H k). by right.
Qed.

(** X12: the user id is drawn without a check: when usernames are distinct and
    the drawn id is the id of an existing user, an accepted registration
    replaces that user, who can then no longer log in with any password. *)
Theorem register_id_collision hash check u e p rb salt now s old :
  NoDup (username ∘ snd <$> db_users (database_of (db_file s))) ->
  (forall k d, (k, d) ∈ db_users (database_of (db_file s)) ->
     username d <> u /\ email d <> e) ->
  dict_get (pretty rb) (db_users (database_of (db_file s))) = Some old ->
  exists s',
    serve hash check (PostRegister u e p rb salt now) s =
      Ok (RedirectTo ToLogin
            (Some "Registration successful! Please login."%string), s') /\
    forall p',
      serve hash check (PostLogin (username old) p') s' =
        Ok (Page LoginHtml (Some "Invalid username or password"%string), s').
Proof.
  intros Hnd Hfree Hold. simpl. unfold register_post.
  rewrite load_db_spec, (proj2 (register_clash_None _ _ _) Hfree). simpl.
  eexists. split; [reflexivity|]. intros p'.
  unfold login_post. simpl.
  destruct (dict_set_present (db_users (database_of (db_file s))) (pretty rb)
    {| username := u; email := e; password := hash salt p; balance := 1000;
       created_at := now |}) as (l1 & v0 & l2 & Hl & Hset & Hnot); [by eexists|].
  assert (v0 = old) as ->.
  { rewrite Hl in Hold. clear -Hold Hnot.
    induction l1 as [|[k v] l1 IH]; simpl in *.
    - rewrite decide_True in Hold by done. by injection Hold.
    - apply not_elem_of_cons in Hnot as [? ?].
      rewrite decide_False in Hold by done. auto. }
  rewrite Hset. rewrite find_by_username_None; [done|].
  intros k d Hin Hname. rewrite Hl in Hnd, Hfree.
  rewrite fmap_app, fmap_cons in Hnd. simpl in Hnd.
  apply NoDup_app in Hnd as (_ & Hdisj & [Hhd _]%NoDup_cons).
  apply elem_of_app in Hin as [Hin|[[= -> ->]|Hin]%elem_of_cons].
  - apply (Hdisj (username old)).
    + apply list_elem_of_fmap. by exists (k, d).
    + left.
  - simpl in Hname. destruct (Hfree (pretty rb) old) as [? _]; [|done].
    apply elem_of_app. right. left.
  - apply Hhd. apply list_elem_of_fmap. by exists (k, d).
Qed.

Lemma register_id_collision_witness :
  exists s',
    serve demo_hash demo_check
      (PostRegister "carol" "carol@example.org" "pw" 7%N "salt" "2024-01-03")
      demo_site
    = Ok (RedirectTo ToLogin
            (Some "Registration successful! Please login."%string), s') /\
    serve demo_hash demo_check (PostLogin "bob" "secret") s'
    = Ok (Page LoginHtml (Some "Invalid username or password"%string), s').
Proof.
  destruct (register_id_collision demo_hash demo_check "carol"
              "carol@example.org" "pw" 7%N "salt" "2024-01-03" demo_site
              demo_other_user)
    as (s' & Hserve & Hlogin).
  - by_evaluation.
  - no_clash.
  - by vm_compute.
  - exists s'. split; [exact Hserve|]. apply (Hlogin "secret"%string).
Defined.

(** X13: [login] always returns, leaves the content of the database and the
    round of the session alone, and either flashes the failure message keeping
    the session's user, or redirects to the dashboard having stored the id of
    a user of the database whose username is the one of the form and whose
    password hash checks against the password of the form. *)
Theorem login_outcome hash check u p s :
  exists resp s',
    serve hash check (PostLogin u p) s = Ok (resp, s') /\
    db_file s' = Some (database_of (db_file s)) /\
    session_game s' = session_game s /\
    ((resp = Page LoginHtml (Some "Invalid username or password"%string) /\
      session_user s' = session_user s) \/
     (exists uid d,
        resp = RedirectTo ToDashboard None /\
        session_user s' = Some uid /\
        (uid, d) ∈ db_users (database_of (db_file s)) /\
        username d = u /\ check (password d) p = true)).
Proof.
  simpl. unfold login_post. rewrite load_db_spec.
  destruct (find_by_username u _) as [[uid d]|] eqn:Hfind; simpl.
  - destruct (check (password d) p) eqn:Hcheck.
    + eexists _, _. split; [done|]. simpl. split; [done|]. split; [done|].
      right. apply find_by_username_Some in Hfind as [? ?].
      by exists uid, d.
    + eexists _, _. split; [done|]. simpl. split; [done|]. split; [done|].
      by left.
  - eexists _, _. split; [done|]. simpl. split; [done|]. split; [done|].
    by left.
Qed.

(** X14: when usernames are distinct, the form's username is the one of a user
    of the database and the password checks against that user's hash, [login]
    logs that user in and redirects to the dashboard. *)
Theorem login_accepts hash check u p s uid d :
  NoDup (username ∘ snd <$> db_users (database_of (db_file s))) ->
  (uid, d) ∈ db_users (database_of (db_file s)) ->
  username d = u -> check (password d) p = true ->
  serve hash check (PostLogin u p) s =
    Ok (RedirectTo ToDashboard None,
        {| db_file := Some (database_of (db_file s));
           session_user := Some uid;
           session_game := session_game s |}).
Proof.
  intros Hnd Hin Hu Hcheck. simpl. unfold login_post. rewrite load_db_spec.
  rewrite (find_by_username_unique u _ uid d Hnd Hin Hu). by rewrite Hcheck.
Qed.

Lemma login_accepts_witness :
  serve demo_hash demo_check (PostLogin "bob" "secret") demo_site
  = Ok (RedirectTo ToDashboard None,
        {| db_file := Some demo_database; session_user := Some demo_other_uid;
           session_game := None |}).
Proof.
  apply (login_accepts demo_hash demo_check "bob" "secret" demo_site
           demo_other_uid demo_other_user).
  - by_evaluation.
  - apply list_elem_of_further, list_elem_of_here.
  - reflexivity.
  - reflexivity.
Defined.

(** X15: provided a password checks against its own hash, an accepted
    registration followed by a login with the same username and password logs
    the new user in under the drawn id, keeps the round of the session, and
    the balance route then reports 1000. *)
Theorem register_then_login hash check u e p rb salt now s :
  (forall salt p, check (hash salt p) p = true) ->
  (forall k d, (k, d) ∈ db_users (database_of (db_file s)) ->
     username d <> u /\ email d <> e) ->
  exists s',
    serve_all hash check [PostRegister u e p rb salt now; PostLogin u p] s =
      Ok ([RedirectTo ToLogin
             (Some "Registration successful! Please login."%string);
           RedirectTo ToDashboard None], s') /\
    session_user s' = Some (pretty rb) /\
    session_game s' = session_game s /\
    serve hash check GetBalance s' = Ok (BalanceJson 1000, s').
Proof.
  intros Hcheck Hfree. pose proof Hfree as Hc.
  apply register_clash_None in Hc.
  simpl. unfold register_post. rewrite load_db_spec, Hc. simpl.
  unfold login_post. simpl.
  rewrite find_by_username_new; [|intros k d Hin; by apply (Hfree k d)|done].
  simpl. rewrite Hcheck. simpl.
  eexists. split; [reflexivity|]. simpl. split; [done|]. split; [done|].
  unfold get_balance, protected, load_user. simpl.
  rewrite dict_get_set_eq. simpl. by rewrite dict_get_set_eq.
Qed.

Lemma register_then_login_witness :
  exists s',
    serve_all demo_hash demo_check
      [PostRegister "carol" "carol@example.org" "pw" 12%N "salt" "2024-01-03";
       PostLogin "carol" "pw"] demo_site
    = Ok ([RedirectTo ToLogin
             (Some "Registration successful! Please login."%string);
           RedirectTo ToDashboard None], s') /\
    session_user s' = Some "12"%string /\
    serve demo_hash demo_check GetBalance s' = Ok (BalanceJson 1000, s').
Proof.
  destruct (register_then_login demo_hash demo_check "carol"
              "carol@example.org" "pw" 12%N "salt" "2024-01-03" demo_site)
    as (s' & Hserve & Huser & _ & Hbal).
  - intros salt p. apply String.eqb_refl.
  - no_clash.
  - exists s'. split; [exact Hserve|]. split; [exact Huser|exact Hbal].
Defined.

(** X16: [logout] removes the user from the session but not the round: when a
    user with an active round logs out and another user logs in on the same
    session, a [cashout] pays the round of the first user into the balance of
    the second. *)
Theorem round_survives_logout hash check s db a gs uB pB b dB winnings :
  db_file s = Some db -> session_user s = Some a ->
  is_Some (dict_get a (db_users db)) ->
  session_game s = Some gs -> active gs = true ->
  find_by_username uB (db_users db) = Some (b, dB) ->
  dict_get b (db_users db) = Some dB ->
  check (password dB) pB = true ->
  payout (bet_amount gs) (multiplier gs) = Ok winnings ->
  serve_all hash check [GetLogout; PostLogin uB pB; Api Cashout] s =
    Ok ([RedirectTo ToIndex None; RedirectTo ToDashboard None;
         Answer (CashedOutOk winnings (balance dB + winnings)
                   (mines_positions gs))],
        {| db_file :=
             Some (set_db_users
                     (dict_set b (set_balance (balance dB + winnings) dB)
                        (db_users db)) db);
           session_user := Some b;
           session_game := Some (set_active_won false true gs) |}).
Proof.
  destruct s as [file su sg]. simpl.
  intros -> -> [dA HA] -> Hact Hfind HB Hcheck Hpay.
  unfold logout, protected, load_user. simpl. rewrite HA. simpl.
  unfold login_post. simpl. rewrite Hfind, Hcheck. simpl.
  unfold api. simpl. unfold cashout, login_required. simpl.
  rewrite dict_get_list_to_map, HB, Hact. simpl. rewrite Hpay. simpl.
  unfold add_balance, get_user. simpl. rewrite dict_get_list_to_map, HB.
  simpl. unfold stored_users. simpl. by rewrite lookup_insert_eq.
Qed.

Lemma round_survives_logout_witness :
  let s := {| db_file := Some demo_database; session_user := Some demo_uid;
              session_game := Some demo_round |} in
  exists s',
    serve_all demo_hash demo_check
      [GetLogout; PostLogin "bob" "secret"; Api Cashout] s
    = Ok ([RedirectTo ToIndex None; RedirectTo ToDashboard None;
           Answer (CashedOutOk 113 613 [0; 2; 4])], s') /\
    session_user s' = Some demo_other_uid.
Proof.
  eexists. split.
  - apply (round_survives_logout demo_hash demo_check
             {| db_file := Some demo_database; session_user := Some demo_uid;
                session_game := Some demo_round |}
             demo_database demo_uid demo_round "bob" "secret" demo_other_uid
             demo_other_user 113);
      first [reflexivity | by eexists | by vm_compute].
  - reflexivity.
Defined.

(** X18: the balance that a JSON handler reports in its answer is the balance
    that the balance route reports right after it, and that route changes
    nothing. *)
Theorem balance_json_after_api hash check r s resp s1 b :
  serve hash check (Api r) s = Ok (Answer resp, s1) ->
  reported_balance resp = Some b ->
  serve hash check GetBalance s1 = Ok (BalanceJson b, s1).
Proof.
  simpl. unfold api. destruct (session_user s) as [uid|] eqn:Hs.
  2: { intros [= <- <-]. done. }
  rewrite load_db_spec.
  destruct (handle uid r _) as [[resp' w']|] eqn:H; [|done]. simpl.
  intros [= -> <-] Hb.
  pose proof (handle_balance_stored _ _ _ _ _ _ H Hb) as Hrep.
  unfold balance_of in Hrep.
  destruct (users w' !! uid) as [u'|] eqn:Hu'; [|done].
  simpl in Hrep. injection Hrep as <-.
  unfold get_balance, protected, load_user, stored_users. simpl.
  rewrite Hu', dict_get_set_eq. simpl. by rewrite dict_get_set_eq.
Qed.

Lemma balance_json_after_api_witness :
  exists s1,
    serve demo_hash demo_check (Api (UpdateBalance 5)) demo_site
      = Ok (Answer (BalanceUpdated 1005), s1) /\
    serve demo_hash demo_check GetBalance s1 = Ok (BalanceJson 1005, s1).
Proof.
  eexists. split; [by vm_compute|].
  eapply (balance_json_after_api demo_hash demo_check (UpdateBalance 5)
            demo_site (BalanceUpdated 1005)); by vm_compute.
Defined.

Lemma same_identity_refl u : same_identity u u.
Proof. done. Qed.

Lemma same_accounts_refl l : same_accounts l l.
Proof. apply Forall2_same_length_lookup. split; [done|]. intros i x y ??. by simplify_eq. Qed.

Lemma dict_set_same_accounts l k v v' :
  dict_get k l = Some v -> same_identity v v' ->
  same_accounts l (dict_set k v' l).
Proof.
  intros Hget Hid. induction l as [|[k' d'] l IH]; simpl in *; [done|].
  destruct (decide (k' = k)) as [->|Hne].
  - injection Hget as ->. constructor; [done|apply same_accounts_refl].
  - constructor; [|by apply IH]. split; [done|apply same_identity_refl].
Qed.

Lemma same_accounts_fmap l l' :
  same_accounts l l' ->
  fst <$> l' = fst <$> l /\
  username ∘ snd <$> l' = username ∘ snd <$> l /\
  email ∘ snd <$> l' = email ∘ snd <$> l.
Proof.
  induction 1 as [|[k d] [k' d'] l l' [Hk (Hu & He & _)] _ (IH1 & IH2 & IH3)];
    [done|].
  rewrite !fmap_cons, IH1, IH2, IH3. simpl in *. by rewrite Hk, Hu, He.
Qed.

Lemma stored_users_same_accounts uid r w resp w' l :
  users w = list_to_map l -> handle uid r w = Ok (resp, w') ->
  same_accounts l (stored_users uid (users w') l).
Proof.
  intros Hw H. unfold stored_users.
  destruct (users w' !! uid) as [u'|] eqn:Hu'; [|apply same_accounts_refl].
  destruct (users w !! uid) as [u|] eqn:Hu.
  - pose proof Hu as Hget. rewrite Hw, dict_get_list_to_map in Hget.
    apply (dict_set_same_accounts _ _ u); [done|].
    destruct (handle_current_user _ _ _ _ _ _ H Hu) as [?|[b ?]];
      simplify_eq; done.
  - rewrite (handle_no_user _ _ _ Hu) in H. injection H as _ <-. congruence.
Qed.

Lemma serve_database hash check req s resp s' :
  is_register req = false ->
  serve hash check req s = Ok (resp, s') ->
  database_of (db_file s') = database_of (db_file s) \/
  exists uid r resp' w',
    handle uid r (world_of s) = Ok (resp', w') /\
    database_of (db_file s') =
      set_db_users
        (stored_users uid (users w') (db_users (database_of (db_file s))))
        (database_of (db_file s)).
Proof.
  intros Hreq H.
  destruct req; try done; simpl in H;
    unfold login_post, logout, get_balance, protected, api, load_user in H;
    try rewrite load_db_spec in H; simpl in H.
  - left. by injection H as _ <-.
  - left. by injection H as _ <-.
  - left. by injection H as _ <-.
  - left. destruct (find_by_username _ _) as [[??]|]; [destruct (check _ _)|];
      by injection H as _ <-.
  - left. destruct (session_user s); [|by injection H as _ <-].
    rewrite ?load_db_spec in H; simpl in H.
    destruct (dict_get _ _); by injection H as _ <-.
  - left. destruct (session_user s); [|by injection H as _ <-].
    rewrite ?load_db_spec in H; simpl in H.
    destruct (dict_get _ _); by injection H as _ <-.
  - left. destruct (session_user s); [|by injection H as _ <-].
    rewrite ?load_db_spec in H; simpl in H.
    destruct (dict_get _ _); by injection H as _ <-.
  - left. destruct (session_user s); [|by injection H as _ <-].
    rewrite ?load_db_spec in H; simpl in H.
    destruct (dict_get _ _); [|by injection H as _ <-].
    simpl in H. destruct (dict_get _ _); [|done]. by injection H as _ <-.
  - destruct (session_user s) as [uid|]; [|left; by injection H as _ <-].
    destruct (handle uid r _) as [[resp' w']|] eqn:Hh; [|done].
    simpl in H. injection H as _ <-. right. by exists uid, r, resp', w'.
Qed.

(** X19: no request other than a registration changes who is in the database:
    after it the file lists the same user ids in the same order, each with the
    same username, email, password hash and creation time, and the same game
    statistics. *)
Theorem requests_keep_accounts hash check req s resp s' :
  is_register req = false ->
  serve hash check req s = Ok (resp, s') ->
  same_accounts (db_users (database_of (db_file s)))
    (db_users (database_of (db_file s'))) /\
  db_game_stats (database_of (db_file s')) =
    db_game_stats (database_of (db_file s)).
Proof.
  intros Hreq H.
  destruct (serve_database _ _ _ _ _ _ Hreq H)
    as [->|(uid & r & resp' & w' & Hh & ->)].
  - split; [apply same_accounts_refl|done].
  - simpl. split; [|done].
    by apply (stored_users_same_accounts uid r (world_of s) resp' w').
Qed.

Lemma requests_keep_accounts_witness :
  exists s',
    serve demo_hash demo_check (Api (Start demo_draws 100 3)) demo_site
      = Ok (Answer (GameStarted 900), s') /\
    same_accounts (db_users demo_database)
      (db_users (database_of (db_file s'))).
Proof.
  eexists. split; [by vm_compute|].
  eapply (requests_keep_accounts demo_hash demo_check
            (Api (Start demo_draws 100 3)) demo_site (Answer (GameStarted 900)));
    by vm_compute.
Defined.

Lemma elem_of_dict_set {A} (l : list (string * A)) k v x :
  x ∈ dict_set k v l -> x = (k, v) \/ x ∈ l.
Proof.
  induction l as [|[k' v'] l IH]; simpl.
  - intros ->%list_elem_of_singleton. by left.
  - destruct (decide (k' = k)) as [->|Hne].
    + intros [->|?]%elem_of_cons; [by left|right; by right].
    + intros [->|[?|?]%IH]%elem_of_cons; [right; left|by left|right; by right].
Qed.

Lemma dict_set_keys_NoDup {A} (l : list (string * A)) k v :
  NoDup (fst <$> l) -> NoDup (fst <$> dict_set k v l).
Proof.
  intros Hnd. destruct (dict_get k l) as [v0|] eqn:Hget.
  - destruct (dict_set_present l k v) as (l1 & v1 & l2 & Hl & -> & _);
      [by eexists|].
    rewrite Hl in Hnd. by rewrite fmap_app, fmap_cons in *.
  - rewrite dict_set_absent by done. rewrite fmap_app. simpl.
    apply NoDup_app. split; [done|]. split; [|apply NoDup_singleton].
    intros x Hx ->%list_elem_of_singleton. by apply dict_get_None in Hget.
Qed.

Lemma dict_set_values_NoDup {A B} (g : A -> B) (l : list (string * A)) k v :
  NoDup (g ∘ snd <$> l) ->
  (forall k' v', (k', v') ∈ l -> g v' <> g v) ->
  NoDup (g ∘ snd <$> dict_set k v l).
Proof.
  intros Hnd Hfresh. induction l as [|[k' v'] l IH]; simpl in *.
  - apply NoDup_singleton.
  - apply NoDup_cons in Hnd as [Hnot Hnd].
    assert (forall k2 v2, (k2, v2) ∈ l -> g v2 <> g v) as Hl.
    { intros k2 v2 Hin. apply (Hfresh k2). by right. }
    destruct (decide (k' = k)) as [->|Hne]; simpl.
    + apply NoDup_cons. split; [|done].
      intros ([k2 v2] & Heq & Hin)%list_elem_of_fmap. simpl in Heq.
      by apply (Hl k2 v2).
    + apply NoDup_cons. split; [|by apply IH].
      intros ([k2 v2] & Heq & [[= -> ->]|Hin]%elem_of_dict_set)%list_elem_of_fmap;
        simpl in Heq.
      * apply (Hfresh k' v'); [left|done].
      * apply Hnot. apply list_elem_of_fmap. by exists (k2, v2).
Qed.

(** X20: if no two users of the database share a user id, a username or an
    email, the same holds after every request that returns. *)
Theorem requests_keep_users_distinct hash check req s resp s' :
  users_distinct (db_users (database_of (db_file s))) ->
  serve hash check req s = Ok (resp, s') ->
  users_distinct (db_users (database_of (db_file s'))).
Proof.
  intros (Hk & Hu & He) H. destruct (is_register req) eqn:Hreq.
  - destruct req; try done. simpl in H. unfold register_post in H.
    rewrite ?load_db_spec in H; simpl in H.
    destruct (register_clash _ _ _) eqn:Hc.
    + by injection H as _ <-.
    + injection H as _ <-. simpl.
      pose proof (proj1 (register_clash_None _ _ _) Hc) as Hfree.
      split; [by apply dict_set_keys_NoDup|].
      split; apply dict_set_values_NoDup; try done;
        intros k d Hin; simpl; by destruct (Hfree k d Hin).
  - assert (same_accounts (db_users (database_of (db_file s)))
              (db_users (database_of (db_file s')))) as Hsame.
    { destruct (serve_database _ _ _ _ _ _ Hreq H)
        as [->|(uid & r & resp' & w' & Hh & ->)];
        [apply same_accounts_refl|].
      by apply (stored_users_same_accounts uid r (world_of s) resp' w'). }
    apply same_accounts_fmap in Hsame as (Hk' & Hu' & He').
    unfold users_distinct. by rewrite Hk', Hu', He'.
Qed.

Lemma requests_keep_users_distinct_witness :
  exists s',
    serve demo_hash demo_check
      (PostRegister "carol" "carol@example.org" "pw" 7%N "salt" "2024-01-03")
      demo_site
    = Ok (RedirectTo ToLogin
            (Some "Registration successful! Please login."%string), s') /\
    users_distinct (db_users (database_of (db_file s'))).
Proof.
  eexists. split; [by vm_compute|].
  eapply (requests_keep_users_distinct demo_hash demo_check
            (PostRegister "carol" "carol@example.org" "pw" 7%N "salt"
               "2024-01-03") demo_site).
  - repeat split; by_evaluation.
  - by vm_compute.
Defined.

(** X21: a request that is not one of the four JSON handlers keeps the round
    of the session; unless it is a registration it also keeps the content of
    the database, and behind [@login_required] (logout apart) it keeps the
    user of the session. *)
Theorem pages_keep_round hash check req s resp s' :
  is_api req = false ->
  serve hash check req s = Ok (resp, s') ->
  session_game s' = session_game s /\
  (is_register req = false ->
   database_of (db_file s') = database_of (db_file s)) /\
  (is_protected req = true -> req <> GetLogout ->
   session_user s' = session_user s).
Proof.
  intros Hreq H.
  destruct req; try done; simpl in H;
    unfold register_post, login_post, logout, get_balance, protected,
      load_user in H;
    try rewrite load_db_spec in H; simpl in H.
  - by injection H as _ <-.
  - by injection H as _ <-.
  - destruct (register_clash _ _ _); by injection H as _ <-.
  - by injection H as _ <-.
  - destruct (find_by_username _ _) as [[??]|]; [destruct (check _ _)|];
      by injection H as _ <-.
  - destruct (session_user s); [|by injection H as _ <-].
    rewrite ?load_db_spec in H; simpl in H.
    destruct (dict_get _ _); by injection H as _ <-.
  - destruct (session_user s) eqn:Hs; [|injection H as _ <-; by rewrite Hs].
    rewrite ?load_db_spec in H; simpl in H.
    destruct (dict_get _ _); by injection H as _ <-.
  - destruct (session_user s) eqn:Hs; [|injection H as _ <-; by rewrite Hs].
    rewrite ?load_db_spec in H; simpl in H.
    destruct (dict_get _ _); by injection H as _ <-.
  - destruct (session_user s) eqn:Hs; [|injection H as _ <-; by rewrite Hs].
    rewrite ?load_db_spec in H; simpl in H.
    destruct (dict_get _ _); [|by injection H as _ <-].
    simpl in H. destruct (dict_get _ _); [|done]. by injection H as _ <-.
Qed.

Lemma pages_keep_round_witness :
  let s := {| db_file := Some demo_database; session_user := Some demo_uid;
              session_game := Some demo_round |} in
  exists s',
    serve demo_hash demo_check (PostLogin "bob" "secret") s
      = Ok (RedirectTo ToDashboard None, s') /\
    session_game s' = Some demo_round /\
    database_of (db_file s') = demo_database.
Proof.
  eexists. split; [by vm_compute|].
  destruct (pages_keep_round demo_hash demo_check (PostLogin "bob" "secret")
              {| db_file := Some demo_database; session_user := Some demo_uid;
                 session_game := Some demo_round |}
              (RedirectTo ToDashboard None)
              {| db_file := Some demo_database;
                 session_user := Some demo_other_uid;
                 session_game := Some demo_round |})
    as (Hgame & Hdb & _); [reflexivity|by vm_compute|].
  split; [exact Hgame|]. by apply Hdb.
Defined.

(** X22: a JSON handler that returns leaves the record of every other user as
    it was, changes at most the balance in the record of the session's user,
    and answers with the redirect to the login page, changing nothing, when
    the users table does not hold the session's user. *)
Theorem handle_touches_only_current_user uid r w resp w' :
  handle uid r w = Ok (resp, w') ->
  (forall uid', uid' <> uid -> users w' !! uid' = users w !! uid') /\
  (forall u, users w !! uid = Some u ->
     exists u', users w' !! uid = Some u' /\ same_identity u u') /\
  (users w !! uid = None -> resp = LoginRedirect /\ w' = w).
Proof.
  intros H. split; [|split].
  - intros uid' Hne. by apply (handle_other_users _ _ _ _ _ _ H).
  - intros u Hu.
    destruct (handle_current_user _ _ _ _ _ _ H Hu) as [?|[b ?]];
      [by exists u|by exists (set_balance b u)].
  - intros Hu. rewrite (handle_no_user _ _ _ Hu) in H. by injection H as <- <-.
Qed.

Lemma handle_touches_only_current_user_witness :
  let w := world_of demo_site in
  let w' := world_after [Start demo_draws 100 3] w in
  users w' !! demo_other_uid = Some demo_other_user /\
  exists u', users w' !! demo_uid = Some u' /\ same_identity demo_user u'.
Proof.
  destruct (handle_touches_only_current_user demo_uid (Start demo_draws 100 3)
              (world_of demo_site) (GameStarted 900)
              (world_after [Start demo_draws 100 3] (world_of demo_site)))
    as (Hother & Hsame & _); [by vm_compute|].
  split.
  - rewrite Hother by done. by vm_compute.
  - apply Hsame. by vm_compute.
Defined.

(** X23: when the answer of a JSON handler carries a balance, that balance is
    the one stored for the session's user afterwards; when it carries none,
    the users table is unchanged. *)
Theorem response_balance_is_stored uid r w resp w' :
  handle uid r w = Ok (resp, w') ->
  match reported_balance resp with
  | Some b => balance_of uid w' = Some b
  | None => users w' = users w
  end.
Proof.
  intros H. destruct (reported_balance resp) as [b|] eqn:Hb.
  - by apply (handle_balance_stored _ _ _ _ _ _ H).
  - destruct r; simpl in H;
      unfold update_balance, start_mines_game, reveal_tile, cashout,
        login_required, mbind, result_bind in H;
      handler_cases; add_balance_cases; by simpl in *.
Qed.

Lemma response_balance_is_stored_witness :
  balance_of demo_uid (world_after [UpdateBalance 5] demo_world) = Some 1005.
Proof.
  apply (response_balance_is_stored demo_uid (UpdateBalance 5) demo_world
           (BalanceUpdated 1005)).
  by vm_compute.
Defined.
